(** * figma-email-html-plugin: the node-to-markup renderer, embedded and verified

    The plugin turns a Figma selection into table-based e-mail HTML.  The
    repository keeps several revisions of the renderer:

    - [src/code.ts], lines 1-685: the revision with width budgeting, icon
      groups and confirmed call-to-action buttons (module [CodeTs]);
    - [src/unnamed/part_000], lines 306-733: the revision with gradients,
      image export modes and the asset list (module [Part000]);
    - [src/code.ts], lines 685-1126, and [src/unnamed/part_000], lines
      1-306: two earlier revisions, of which the colour functions (module
      [CodeTsOld]) and the content block (module [Part000Old]) are
      embedded.

    JavaScript values are modelled as the language has them: a string is a
    sequence of UTF-16 code units, a number is a binary64 float (Rocq's
    primitive floats), a property that may be missing is an [option], an
    exception is a [Throw] result.  The Figma host (image export, fonts) and
    the parts of the JavaScript runtime that are not re-implemented here are
    the fields of a [Host] record. *)

From Stdlib Require Import ZArith NArith List Bool Floats Lia String Ascii.
From Stdlib Require Import Uint63 DecimalString HexadecimalString.
Import ListNotations.
Set Warnings "-inexact-float,-register-all".

(* ================================================================== *)
(** ** JavaScript strings and numbers *)
(* ================================================================== *)

Module JS.
Local Open Scope N_scope.

(** A string is its list of UTF-16 code units. *)
Definition str := list N.

(** An ASCII literal of the source, as code units. *)
Definition lit (s : string) : str := map N_of_ascii (list_ascii_of_string s).

Fixpoint str_eqb (a b : str) : bool :=
  match a, b with
  | [], [] => true
  | x :: a', y :: b' => N.eqb x y && str_eqb a' b'
  | _, _ => false
  end.

(** [!s] on a string: only the empty string is falsy. *)
Definition truthy (s : str) : bool :=
  match s with [] => false | _ :: _ => true end.

(** [a || b] on strings. *)
Definition orElse (a b : str) : str := if truthy a then a else b.

(** ECMAScript WhiteSpace and LineTerminator code units, what [trim] and
    [\s] remove. *)
Definition isWhiteSpace (c : N) : bool :=
  ((9 <=? c) && (c <=? 13)) || (c =? 32) || (c =? 160) || (c =? 5760)
  || ((8192 <=? c) && (c <=? 8202)) || (c =? 8232) || (c =? 8233)
  || (c =? 8239) || (c =? 8287) || (c =? 12288) || (c =? 65279).

Fixpoint trimStart (s : str) : str :=
  match s with
  | [] => []
  | c :: r => if isWhiteSpace c then trimStart r else s
  end.

Definition trimEnd (s : str) : str := rev (trimStart (rev s)).

Definition trim (s : str) : str := trimEnd (trimStart s).

(** [s.split(sep)] for a one-unit separator: the first piece and the
    others.  The result of [split] is never empty. *)
Fixpoint split_aux (sep : N) (s : str) : str * list str :=
  match s with
  | [] => ([], [])
  | c :: r =>
      let (h, t) := split_aux sep r in
      if c =? sep then ([], h :: t) else (c :: h, t)
  end.

Definition split (sep : N) (s : str) : list str :=
  let (h, t) := split_aux sep s in h :: t.

(** [l.join(sep)]. *)
Fixpoint join (sep : str) (l : list str) : str :=
  match l with
  | [] => []
  | x :: r => match r with [] => x | _ :: _ => x ++ sep ++ join sep r end
  end.

(** [s.replace(/c/g, rep)] for a one-unit pattern. *)
Definition replaceAll (c : N) (rep : str) (s : str) : str :=
  flat_map (fun x => if x =? c then rep else [x]) s.

Fixpoint startsWith (p s : str) : bool :=
  match p, s with
  | [], _ => true
  | x :: p', y :: s' => (x =? y) && startsWith p' s'
  | _ :: _, [] => false
  end.

(** [s.includes(p)] / [s.indexOf(p) !== -1]. *)
Fixpoint includes (p s : str) : bool :=
  startsWith p s || match s with [] => false | _ :: r => includes p r end.

(** [s.slice(-n)]: the last [n] code units. *)
Definition sliceLast (n : nat) (s : str) : str := skipn (List.length s - n)%nat s.

(** [toLowerCase] on the ASCII letters; other code units are kept.  The
    source only searches the result for the ASCII word [bold], which no
    non-ASCII letter lower-cases into. *)
Definition toLowerCase (s : str) : str :=
  map (fun c => if (65 <=? c) && (c <=? 90) then c + 32 else c) s.

(** [l.indexOf(x) !== -1] on an array of strings. *)
Definition inArray (x : str) (l : list str) : bool := existsb (str_eqb x) l.

(** [[...new Set(l)]]: first occurrences, in order. *)
Fixpoint dedupe (l : list str) : list str :=
  match l with
  | [] => []
  | x :: r => x :: filter (fun y => negb (str_eqb x y)) (dedupe r)
  end.

(** A [Map<string, string>]: entries in insertion order; [set] on a key
    already present keeps its place. *)
Fixpoint mapSet (k v : str) (m : list (str * str)) : list (str * str) :=
  match m with
  | [] => [(k, v)]
  | (k', v') :: rest =>
      if str_eqb k' k then (k', v) :: rest else (k', v') :: mapSet k v rest
  end.

(** An own property of an object literal with string values. *)
Definition ownProperty (key : str) (m : list (str * str)) : option str :=
  option_map snd (find (fun kv => str_eqb (fst kv) key) m).

(** Code units of the ASCII characters the source names. *)
Definition SEMI : N := 59.   (* ; *)
Definition COLON : N := 58.  (* : *)
Definition COMMA : N := 44.  (* , *)
Definition DASH : N := 45.   (* - *)
Definition QUOTE : N := 39.  (* ' *)
Definition AMP : N := 38.    (* & *)
Definition LT : N := 60.     (* < *)
Definition GT : N := 62.     (* > *)
Definition NL : N := 10.     (* \n *)
Definition BULLET : N := 8226. (* U+2022 *)
Definition STAR : N := 42.   (* * *)

(** *** Numbers: binary64 *)

Definition num := float.

(** The exception a failing operation throws. *)
Inductive Exn :=
| TypeError          (* a property read on [undefined] *)
| HostError (msg : str).  (* a rejected host promise *)

Inductive result (A : Type) :=
| Ok (a : A)
| Throw (e : Exn).
Arguments Ok {A} a.
Arguments Throw {A} e.

Definition rbind {A B} (x : result A) (f : A -> result B) : result B :=
  match x with Ok a => f a | Throw e => Throw e end.

(** The value of a finite float is [(-1)^s * m * 2^e]; [x] as an integer,
    when it is one. *)
Definition toInteger (x : num) : option Z :=
  match Prim2SF x with
  | S754_zero _ => Some 0%Z
  | S754_finite s m e =>
      let sign (z : Z) := if s then (- z)%Z else z in
      if (0 <=? e)%Z then Some (sign (Z.pos m * 2 ^ e)%Z)
      else
        let d := (2 ^ (- e))%Z in
        if (Z.pos m mod d =? 0)%Z then Some (sign (Z.pos m / d)%Z) else None
  | _ => None
  end.

(** An integer below 2^53 in absolute value, as a float (exact). *)
Definition ofInteger (z : Z) : num :=
  if (z <? 0)%Z then PrimFloat.opp (PrimFloat.of_uint63 (Uint63.of_Z (- z)))
  else PrimFloat.of_uint63 (Uint63.of_Z z).

(** [Math.round(x)]: the integer nearest to [x], ties towards +infinity;
    NaN, the infinities and the zeros are returned as they are, and a
    negative [x] that rounds to zero gives [-0]. *)
Definition Math_round (x : num) : num :=
  match Prim2SF x with
  | S754_finite s m e =>
      if (0 <=? e)%Z then x
      else
        let d := (2 ^ (- e))%Z in
        let v := if s then (- Z.pos m)%Z else Z.pos m in
        let z := ((2 * v + d) / (2 * d))%Z in          (* floor (x + 1/2) *)
        if (z =? 0)%Z then (if s then (-0)%float else 0%float) else ofInteger z
  | _ => x
  end.

Definition Math_min (a b : num) : num :=
  if PrimFloat.is_nan a || PrimFloat.is_nan b then PrimFloat.nan
  else if PrimFloat.ltb a b then a
  else if PrimFloat.ltb b a then b
  else if PrimFloat.is_zero a && PrimFloat.is_zero b
       then (if PrimFloat.get_sign a then a else b)
       else a.

Definition Math_max (a b : num) : num :=
  if PrimFloat.is_nan a || PrimFloat.is_nan b then PrimFloat.nan
  else if PrimFloat.ltb b a then a
  else if PrimFloat.ltb a b then b
  else if PrimFloat.is_zero a && PrimFloat.is_zero b
       then (if PrimFloat.get_sign a then b else a)
       else a.

(** A number in a boolean position: [0], [-0] and [NaN] are falsy. *)
Definition numTruthy (x : num) : bool :=
  negb (PrimFloat.is_zero x || PrimFloat.is_nan x).

Definition decimalDigits (n : N) : str :=
  lit (DecimalString.NilZero.string_of_uint (N.to_uint n)).

Definition hexDigits (n : N) : str :=
  lit (HexadecimalString.NilZero.string_of_uint (N.to_hex_uint n)).

Definition signed (digits : N -> str) (z : Z) : str :=
  if (z <? 0)%Z then lit "-" ++ digits (Z.to_N (- z)) else digits (Z.to_N z).

(** [Number.prototype.toString(radix)].  NaN, the infinities and the
    integers below 2^53 in absolute value are printed here: such an
    integer is printed with all its digits.  For any other double the
    runtime's printer [other] is asked: a fraction, and an integer from
    2^53 on, which JavaScript prints in radix 10 with the fewest digits
    that read back as the same double, padded with zeros or followed by
    an exponent, and in another radix as the implementation approximates
    it. *)
Definition toStringRadix (other : num -> str) (radix10 : bool) (x : num) : str :=
  match Prim2SF x with
  | S754_nan => lit "NaN"
  | S754_infinity s => if s then lit "-Infinity" else lit "Infinity"
  | _ =>
      match toInteger x with
      | Some z =>
          if (Z.abs z <? 2 ^ 53)%Z
          then signed (if radix10 then decimalDigits else hexDigits) z
          else other x
      | None => other x
      end
  end.

(** A double quote, and an HTML literal of the source: the double quotes
    of the markup are written as backquotes in the literals below. *)
Definition DQUOTE : N := 34.
Definition html (s : string) : str :=
  map (fun c => if c =? 96 then DQUOTE else c) (lit s).

(** [[a, b, ...].filter(Boolean).join(";")] over strings and [null]s. *)
Definition joinTruthy (l : list (option str)) : str :=
  join (lit ";")
       (filter truthy
          (flat_map (fun o => match o with Some s => [s] | None => [] end) l)).

Section Sort.
Context {A : Type} (key : A -> num).

(** [l.sort((a, b) => key(a) - key(b))]: the sort is stable, so for a
    comparator that orders the elements (no NaN) the result is the one
    insertion gives. *)
Fixpoint insertByY (k : A) (sorted : list A) : list A :=
  match sorted with
  | [] => [k]
  | k' :: rest =>
      if PrimFloat.ltb (PrimFloat.sub (key k') (key k)) 0%float
      then k' :: insertByY k rest
      else k :: sorted
  end.

Definition sortByY (l : list A) : list A := fold_right insertByY [] l.
End Sort.

(** *** The regular expressions of the final clean-up *)

(** [s] after its prefix [p], when it starts with [p]. *)
Fixpoint afterPrefix (p s : str) : option str :=
  match p, s with
  | [], _ => Some s
  | x :: p', y :: s' => if x =? y then afterPrefix p' s' else None
  | _ :: _, [] => None
  end.

(** [s] after its first [c], when [c] occurs: what is left after a match
    of [[^c]*c] at the start of [s]. *)
Fixpoint afterFirst (c : N) (s : str) : option str :=
  match s with
  | [] => None
  | x :: rest => if x =? c then Some rest else afterFirst c rest
  end.

Definition andThen {A B} (o : option A) (f : A -> option B) : option B :=
  match o with Some a => f a | None => None end.

(** A match of a regular expression at the start of a string, as what is
    left of the string after the match. *)
Definition Pattern := str -> option str.

(** [/<\/?tbody>/] *)
Definition tbodyTag : Pattern := fun s =>
  andThen (afterPrefix (lit "<") s) (fun s1 =>
  afterPrefix (lit "tbody>")
    (match afterPrefix (lit "/") s1 with Some s2 => s2 | None => s1 end)).

(** [/<tr[^>]*>\s*<td[^>]*>\s*<\/td>\s*<\/tr>/] *)
Definition emptyCellRow : Pattern := fun s =>
  andThen (afterPrefix (lit "<tr") s) (fun s1 =>
  andThen (afterFirst GT s1) (fun s2 =>
  andThen (afterPrefix (lit "<td") (trimStart s2)) (fun s3 =>
  andThen (afterFirst GT s3) (fun s4 =>
  andThen (afterPrefix (lit "</td>") (trimStart s4)) (fun s5 =>
  afterPrefix (lit "</tr>") (trimStart s5)))))).

(** [/<tr[^>]*>\s*<\/tr>/] *)
Definition emptyRow : Pattern := fun s =>
  andThen (afterPrefix (lit "<tr") s) (fun s1 =>
  andThen (afterFirst GT s1) (fun s2 =>
  afterPrefix (lit "</tr>") (trimStart s2))).

(** [s.replace(/p/g, "")]: the matches are looked for from left to right,
    and the search goes on behind a match; [skip] code units of [s] belong
    to the match found last. *)
Fixpoint removeMatches (p : Pattern) (s : str) (skip : nat) : str :=
  match s with
  | [] => []
  | c :: rest =>
      match skip with
      | S k => removeMatches p rest k
      | O =>
          match p s with
          | Some behind =>
              removeMatches p rest (List.length rest - List.length behind)
          | None => c :: removeMatches p rest 0
          end
      end
  end.

Definition removeAll (p : Pattern) (s : str) : str := removeMatches p s 0.

End JS.
Import JS.

Declare Scope js_scope.
Delimit Scope js_scope with js.
Notation "x <- e ;; k" := (rbind e (fun x => k))
  (at level 100, e at next level, right associativity) : js_scope.

(** A method of an object with mutable fields [S]: it may update the
    fields, and returns or throws; the fields keep what was written
    before a throw. *)
Definition Method (S A : Type) := S -> result A * S.

Definition ret {S A} (a : A) : Method S A := fun this => (Ok a, this).

Definition bind {S A B} (m : Method S A) (f : A -> Method S B) : Method S B :=
  fun this =>
    match m this with
    | (Ok a, this') => f a this'
    | (Throw e, this') => (Throw e, this')
    end.

(** A computation that touches no field, inside a method. *)
Definition lift {S A} (x : result A) : Method S A := fun this => (x, this).

Declare Scope parser_scope.
Delimit Scope parser_scope with parser.
Notation "x <- e ;; k" := (bind e (fun x => k))
  (at level 100, e at next level, right associativity) : parser_scope.

(* ================================================================== *)
(** ** The design tree, as the Figma plugin API hands it to the renderer *)
(* ================================================================== *)

Module Figma.

(** [figma.mixed]: the symbol a property holds when its value differs
    over parts of the node. *)
Inductive Mixed (A : Type) :=
| MIXED
| Val (v : A).
Arguments MIXED {A}.
Arguments Val {A} v.

Record RgbColor := { r : num; g : num; b : num }.

Module Rgba.
Record t := { r : num; g : num; b : num; a : num }.
End Rgba.
Definition RgbaColor := Rgba.t.

(** The colour of a gradient stop; [alpha] is read with [?? 1]. *)
Record StopColor := { sr : num; sg : num; sb : num; alpha : option num }.

Record ColorStop := { position : num; color : StopColor }.

(** [Paint], by its [type]: [SOLID], any [GRADIENT_*], [IMAGE], or
    another one ([VIDEO], [PATTERN]).  [visible] and [opacity] are
    optional properties. *)
Inductive Paint :=
| SOLID (visible : option bool) (opacity : option num) (color : RgbColor)
| GRADIENT (visible : option bool) (opacity : option num)
           (gradientStops : list ColorStop)
| IMAGE (visible : option bool) (opacity : option num)
| OTHER_PAINT (visible : option bool) (opacity : option num).

Definition paintVisible (p : Paint) : option bool :=
  match p with
  | SOLID v _ _ | GRADIENT v _ _ | IMAGE v _ | OTHER_PAINT v _ => v
  end.

(** [f.visible !== false] *)
Definition notHidden (p : Paint) : bool :=
  match paintVisible p with Some false => false | _ => true end.

Definition isSolid (p : Paint) : bool :=
  match p with SOLID _ _ _ => true | _ => false end.

Definition isGradient (p : Paint) : bool :=
  match p with GRADIENT _ _ _ => true | _ => false end.

Definition isImage (p : Paint) : bool :=
  match p with IMAGE _ _ => true | _ => false end.

Inductive NodeType :=
| FRAME | GROUP | COMPONENT | INSTANCE
| RECTANGLE | ELLIPSE | TEXT | VECTOR | LINE
| PAGE
| OTHER_TYPE.   (* STAR, POLYGON, SLICE, BOOLEAN_OPERATION, ... *)

Definition NodeType_eqb (a b : NodeType) : bool :=
  match a, b with
  | FRAME, FRAME | GROUP, GROUP | COMPONENT, COMPONENT | INSTANCE, INSTANCE
  | RECTANGLE, RECTANGLE | ELLIPSE, ELLIPSE | TEXT, TEXT | VECTOR, VECTOR
  | LINE, LINE | PAGE, PAGE | OTHER_TYPE, OTHER_TYPE => true
  | _, _ => false
  end.

Inductive LayoutMode := NONE | HORIZONTAL | VERTICAL.

Inductive PrimaryAxisAlign := PA_MIN | PA_CENTER | PA_MAX | SPACE_BETWEEN.
Inductive CounterAxisAlign := CA_MIN | CA_CENTER | CA_MAX | CA_BASELINE.

Inductive TextAlign := LEFT | CENTER | RIGHT | JUSTIFIED.

Record FontName := { family : str; style : str }.

Inductive LineHeight :=
| AUTO
| PIXELS (value : num)
| PERCENT (value : num).

Inductive TextDecoration := DECO_NONE | UNDERLINE | STRIKETHROUGH.

(** One entry of [getStyledTextSegments(['fontName', 'fontSize', 'fills',
    'lineHeight', 'textDecoration'])]. *)
Record StyledTextSegment := {
  seg_characters : str;
  seg_fontName : Mixed FontName;
  seg_fontSize : num;
  seg_fills : list Paint;
  seg_lineHeight : LineHeight;
  seg_textDecoration : TextDecoration
}.

(** What the renderer reads of an ancestor through [node.parent]. *)
Record Ancestor := {
  anc_type : NodeType;
  anc_fills : option (Mixed (list Paint))
}.

(** A scene node.  A property that only some node types have is an
    [option] ([None]: the property is not in the node); [parent] is the
    chain [node.parent], [node.parent.parent], ... outwards;
    [segments] is what [getStyledTextSegments] returns for the node. *)
Inductive SceneNode := mkNode {
  id : str;
  name : str;
  type : NodeType;
  visible : bool;
  x : num;
  y : num;
  width : num;
  height : num;
  parent : list Ancestor;
  fills : option (Mixed (list Paint));
  strokes : option (list Paint);
  strokeWeight : option (Mixed num);
  cornerRadius : option (Mixed num);
  children : option (list SceneNode);
  layoutMode : option LayoutMode;
  paddingTop : option num;
  paddingBottom : option num;
  paddingLeft : option num;
  paddingRight : option num;
  itemSpacing : option num;
  primaryAxisAlignItems : option PrimaryAxisAlign;
  counterAxisAlignItems : option CounterAxisAlign;
  characters : option str;
  textAlignHorizontal : option TextAlign;
  fontName : option (Mixed FontName);
  fontSize : option (Mixed num);
  segments : list StyledTextSegment
}.

(** [f] over the children of a node, none when it has no [children]. *)
Definition overChildren {B} (f : SceneNode -> B) (n : SceneNode) : list B :=
  match children n with Some l => map f l | None => [] end.

Definition bytes := list N.

(** [ExportSettingsImage] as the renderer builds it:
    [{ format: 'PNG', constraint: { type: 'WIDTH', value } }]. *)
Record ExportSettingsImage := { png_width : num }.

Inductive ImageExportMode := placeholder | base64 | download.

Record ImageAsset := { asset_name : str; asset_data : bytes }.

(** The collaborators outside the repository: the JavaScript runtime's
    number printers (for the doubles [toStringRadix] does not print),
    [toFixed(2)], [encodeURIComponent], the members every object inherits
    from [Object.prototype] (as the string a template literal makes of
    them), and Figma's font loader, image exporter and base64 encoder,
    each of which may reject. *)
Record Host := {
  numberToString : num -> str;
  numberToString16 : num -> str;
  toFixed2 : num -> str;
  encodeURIComponent : str -> str;
  inheritedProperty : str -> option str;
  loadFontAsync : FontName -> result unit;
  exportAsync : SceneNode -> ExportSettingsImage -> result bytes;
  base64Encode : bytes -> result str
}.

(** A number in a template literal: [`${x}`]. *)
Definition show (h : Host) (x : num) : str :=
  toStringRadix (numberToString h) true x.

(** [opt ?? d] *)
Definition orDefault {A} (o : option A) (d : A) : A :=
  match o with Some v => v | None => d end.

(** The effective colour the Color Resolver returns: [{ hex, rgb }]. *)
Record EffectiveColor := { hex : option str; rgb : RgbColor }.

Section Colors.
Variable h : Host.
Local Open Scope float_scope.

(** code.ts 10-13, part_000 320-323 (same text). *)
Definition toHex (c : num) : str :=
  sliceLast 2 (lit "0" ++ toStringRadix (numberToString16 h) false
                                        (Math_round (c * 255))).

Definition figmaColorToHex (color : RgbColor) : str :=
  lit "#" ++ toHex (r color) ++ toHex (g color) ++ toHex (b color).

(** code.ts 107-112, part_000 423-428 (same text). *)
Definition blendColors (fg : RgbaColor) (bg : RgbColor) : RgbColor :=
  {| r := Rgba.r fg * Rgba.a fg + r bg * (1 - Rgba.a fg);
     g := Rgba.g fg * Rgba.a fg + g bg * (1 - Rgba.a fg);
     b := Rgba.b fg * Rgba.a fg + b bg * (1 - Rgba.a fg) |}.

End Colors.

Definition white : RgbColor := {| r := 1%float; g := 1%float; b := 1%float |}.

(** [node.findAll(() => true)]: the nodes below [node], in document
    order. *)
Fixpoint findAll (node : SceneNode) : list SceneNode :=
  match children node with
  | Some cs => flat_map (fun child => child :: findAll child) cs
  | None => []
  end.

End Figma.
Import Figma.

(* ================================================================== *)
(** ** src/code.ts: the revision with confirmed call-to-action buttons *)
(* ================================================================== *)

Module CodeTs.
Local Open Scope float_scope.
Local Open Scope js_scope.

(** [bulletCharacterMap] (code.ts 1-5): its own keys. *)
Definition bulletCharacterMap : list (str * str) :=
  [ ([BULLET], lit "&#8226;"); (lit "*", lit "&#8226;"); (lit "-", lit "&#8211;") ].

(** 15-33 *)
Fixpoint findParentBackgroundColor_chain (chain : list Ancestor) : RgbColor :=
  match chain with
  | [] => white
  | parent :: up =>
      if NodeType_eqb (anc_type parent) PAGE then white
      else
        match anc_fills parent with
        | Some (Val ((_ :: _) as fs)) =>
            match find (fun f => isSolid f && notHidden f) fs with
            | Some (SOLID _ opacity color) =>
                if (0.99 <=? orDefault opacity 1) then color
                else findParentBackgroundColor_chain up
            | _ => findParentBackgroundColor_chain up
            end
        | _ => findParentBackgroundColor_chain up
        end
  end.

Definition findParentBackgroundColor (node : SceneNode) : RgbColor :=
  findParentBackgroundColor_chain (parent node).

(** 42-63 *)
Definition sanitizeRule (styleMap : list (str * str)) (rule : str)
  : list (str * str) :=
  match split COLON rule with
  | key :: valueParts =>
      let value := trim (join (lit ":") valueParts) in
      if negb (truthy key) || negb (truthy value) then styleMap
      else
        let prop := trim key in
        if str_eqb prop (lit "font-family") then
          let fonts :=
            map (fun f => replaceAll QUOTE [] (trim f)) (split COMMA value) in
          mapSet prop (join (lit ", ") (dedupe fonts)) styleMap
        else mapSet prop value styleMap
  | [] => styleMap
  end.

Definition sanitizeStyles (styleStr : str) : str :=
  if negb (truthy styleStr) then []
  else
    let rules := filter (fun rule => truthy (trim rule)) (split SEMI styleStr) in
    let styleMap := fold_left sanitizeRule rules [] in
    join (lit ";") (map (fun kv => fst kv ++ lit ":" ++ snd kv) styleMap).

(** [/^0(px|pt|em|rem|%|vw|vh)?$/.test(value)] *)
Definition isZeroLength (value : str) : bool :=
  match value with
  | zero :: unit =>
      (zero =? 48)%N
      && inArray unit [ []; lit "px"; lit "pt"; lit "em"; lit "rem"; lit "%";
                        lit "vw"; lit "vh" ]
  | [] => false
  end.

(** The filter of 65-83: [true] keeps the rule. *)
Definition keepRule (rule : str) : bool :=
  if negb (truthy (trim rule)) then false
  else
    match split COLON rule with
    | part0 :: part1 :: _ =>
        let value := trim part1 in
        let key := trim part0 in
        if inArray (hd [] (split DASH key))
                   [lit "margin"; lit "padding"; lit "border"; lit "border-radius"]
           && isZeroLength value
        then false else true
    | _ => true
    end.

(** 65-83 *)
Definition cleanZeroValueStyles (styleStr : str) : str :=
  if negb (truthy styleStr) then []
  else join (lit ";") (filter keepRule (split SEMI styleStr)).

(** 114-136 *)
Definition getEffectiveBackgroundColorForFills (h : Host)
    (fills : list Paint) (parentBgColor : RgbColor) : EffectiveColor :=
  match find (fun f => isSolid f && notHidden f) fills with
  | Some (SOLID _ opacity color) =>
      let fillOpacity := orDefault opacity 1 in
      let totalOpacity := fillOpacity in
      if (0.99 <=? totalOpacity) then
        let solidRgb := {| r := r color; g := g color; b := b color |} in
        {| hex := Some (figmaColorToHex h solidRgb); rgb := solidRgb |}
      else
        let foregroundColor :=
          {| Rgba.r := r color; Rgba.g := g color; Rgba.b := b color;
             Rgba.a := totalOpacity |} in
        let finalRgb := blendColors foregroundColor parentBgColor in
        {| hex := Some (figmaColorToHex h finalRgb); rgb := finalRgb |}
  | _ => {| hex := None; rgb := parentBgColor |}
  end.

(** 138-144 *)
Definition getEffectiveBackgroundColor (h : Host)
    (node : SceneNode) (parentBgColor : RgbColor) : EffectiveColor :=
  match fills node with
  | None => getEffectiveBackgroundColorForFills h [] parentBgColor
  | Some (Val fs) => getEffectiveBackgroundColorForFills h fs parentBgColor
  | Some MIXED => {| hex := None; rgb := parentBgColor |}
  end.

(** 85-105 *)
Definition getBorderStyles (h : Host) (node : SceneNode) : option str :=
  match strokes node, strokeWeight node with
  | Some ((_ :: _) as ss), Some (Val sw) =>
      if (sw =? 0) then None
      else
        match find (fun s => notHidden s && isSolid s) ss with
        | Some (SOLID _ _ _ as stroke) =>
            let weight := Math_round sw in
            if (weight =? 0) then None
            else
              let parentBg := findParentBackgroundColor node in
              let colorHex :=
                hex (getEffectiveBackgroundColorForFills h [stroke] parentBg) in
              Some (lit "border: " ++ show h weight ++ lit "px solid "
                    ++ orElse (orDefault colorHex []) (lit "#000000") ++ lit ";")
        | _ => None
        end
  | _, _ => None
  end.

(** 149-155 *)
Fixpoint isVectorial (n : SceneNode) : bool :=
  match children n with
  | Some ((_ :: _) as cs) =>
      forallb (fun child => negb (NodeType_eqb (type child) TEXT)
                            && isVectorial child) cs
  | _ =>
      existsb (NodeType_eqb (type n)) [VECTOR; ELLIPSE; LINE; RECTANGLE]
  end.

(** 146-157 *)
Definition isIconGroup (node : SceneNode) : bool :=
  match children node with
  | Some (_ :: _) => isVectorial node
  | _ => false
  end.

Definition hasImageFill (node : SceneNode) : bool :=
  match fills node with
  | Some (Val fs) => existsb isImage fs
  | _ => false
  end.

(** 159-169 *)
Definition isImageLikeNode (node : SceneNode) : bool :=
  if NodeType_eqb (type node) RECTANGLE && hasImageFill node then true
  else existsb (NodeType_eqb (type node)) [VECTOR; LINE] || isIconGroup node.

Definition isShapeType (t : NodeType) : bool :=
  NodeType_eqb t RECTANGLE || NodeType_eqb t ELLIPSE.

(** 622-629 *)
Definition isPotentialCta (node : SceneNode) : bool :=
  if negb (NodeType_eqb (type node) FRAME) && negb (NodeType_eqb (type node) GROUP)
  then false
  else
    match children node with
    | None => false
    | Some cs =>
        if negb (Nat.eqb (List.length cs) 2) then false
        else
          let hasText := existsb (fun child => NodeType_eqb (type child) TEXT) cs in
          let hasShape := existsb (fun child => isShapeType (type child)) cs in
          hasText && hasShape
    end.

(** 631-644.  Reading [characters] of a child that has none throws. *)
Definition isBulletPoint (node : SceneNode) : result bool :=
  if negb (NodeType_eqb (type node) FRAME) || negb (visible node) then Ok false
  else
    match layoutMode node, children node with
    | Some HORIZONTAL, Some [firstChild; secondChild] =>
        if negb (NodeType_eqb (type firstChild) TEXT)
           || negb (NodeType_eqb (type secondChild) TEXT)
        then Ok false
        else
          match characters firstChild with
          | None => Throw TypeError
          | Some cs =>
              let bulletChar := trim cs in
              Ok (Nat.eqb (List.length bulletChar) 1
                  && match ownProperty bulletChar bulletCharacterMap with
                     | Some _ => true | None => false end)
          end
    | _, _ => Ok false
    end.

(** The four [replace] calls of 436-440 and 468-472. *)
Definition escapeText (chars : str) : str :=
  replaceAll NL (html "<br />")
    (replaceAll GT (lit "&gt;")
      (replaceAll LT (lit "&lt;")
        (replaceAll AMP (lit "&amp;") chars))).

(** [(node.textAlignHorizontal || 'LEFT').toLowerCase()] *)
Definition textAlignOf (node : SceneNode) : str :=
  match orDefault (textAlignHorizontal node) LEFT with
  | LEFT => lit "left"
  | CENTER => lit "center"
  | RIGHT => lit "right"
  | JUSTIFIED => lit "justified"
  end.

Section Renderer.
Variable h : Host.
(** [this.confirmedCtaIds]: the ids given to [setConfirmedCtaIds]. *)
Variable confirmedCtaIds : list str.

(** 486-518 *)
Definition styleObjectToInlineCss (style : StyledTextSegment)
    (parentBgColor : RgbColor) : str :=
  let color :=
    match seg_fills style with
    | _ :: _ =>
        match hex (getEffectiveBackgroundColorForFills h (seg_fills style) parentBgColor) with
        | Some colorHex =>
            if truthy colorHex then [lit "color: " ++ colorHex] else []
        | None => []
        end
    | [] => []
    end in
  let font :=
    match seg_fontName style with
    | Val fontName =>
        [lit "font-family: '" ++ family fontName ++ lit "', sans-serif"]
        ++ (if includes (lit "bold") (toLowerCase (Figma.style fontName))
            then [lit "font-weight: 700"] else [])
    | MIXED => []
    end in
  let size :=
    if numTruthy (seg_fontSize style)
    then [lit "font-size: " ++ show h (Math_round (seg_fontSize style)) ++ lit "px"]
    else [] in
  let lineHeight :=
    match seg_lineHeight style with
    | AUTO => []
    | PIXELS value => [lit "line-height: " ++ show h (Math_round value) ++ lit "px"]
    | PERCENT value => [lit "line-height: " ++ show h (Math_round value) ++ lit "%"]
    end in
  let decoration :=
    match seg_textDecoration style with
    | STRIKETHROUGH => [lit "text-decoration: line-through"]
    | UNDERLINE => [lit "text-decoration: underline"]
    | DECO_NONE => []
    end in
  let styles := color ++ font ++ size ++ lineHeight ++ decoration in
  sanitizeStyles (cleanZeroValueStyles (join (lit ";") styles)).

(** [bulletCharacterMap[key] || fallback]: an own key, or a member
    inherited from [Object.prototype]. *)
Definition bulletOr (key fallback : str) : str :=
  match ownProperty key bulletCharacterMap with
  | Some entity => entity
  | None =>
      match inheritedProperty h key with
      | Some member => member
      | None => fallback
      end
  end.

(** The loop of 464-481. *)
Fixpoint renderSegments (segs : list StyledTextSegment)
    (parentBgColor : RgbColor) : result str :=
  match segs with
  | [] => Ok []
  | segment :: rest =>
      match seg_fontName segment with
      | MIXED => renderSegments rest parentBgColor
      | Val fontName =>
          _ <- loadFontAsync h fontName ;;
          let styleCss := styleObjectToInlineCss segment parentBgColor in
          let sanitizedChars := escapeText (seg_characters segment) in
          let finalContent := bulletOr (trim sanitizedChars) sanitizedChars in
          let piece :=
            if truthy styleCss
            then html "<span style=`" ++ styleCss ++ html "`>" ++ finalContent
                 ++ lit "</span>"
            else finalContent in
          more <- renderSegments rest parentBgColor ;;
          Ok (piece ++ more)
      end
  end.

(** [!node.characters?.trim()] *)
Definition blankCharacters (node : SceneNode) : bool :=
  match characters node with
  | None => true
  | Some cs => negb (truthy (trim cs))
  end.

(** 458-484 *)
Definition renderTextContent (node : SceneNode) (parentBgColor : RgbColor)
  : result str :=
  if blankCharacters node then Ok []
  else renderSegments (segments node) parentBgColor.

Definition tableCell (alignAttr styleAttr content : str) : str :=
  html "<table cellpadding=`0` cellspacing=`0` border=`0` role=`presentation` width=`100%`><tr><td "
  ++ alignAttr ++ lit " " ++ styleAttr ++ lit ">" ++ content
  ++ lit "</td></tr></table>".

Definition styleAttrOf (styles : str) : str :=
  if truthy styles then html "style=`" ++ styles ++ html "`" else [].

(** 417-456 *)
Definition renderText (node : SceneNode) (parentBgColor : RgbColor)
  : result str :=
  if blankCharacters node then Ok []
  else
    let textAlign := textAlignOf node in
    let alignAttr :=
      if negb (str_eqb textAlign (lit "left"))
      then html "align=`" ++ textAlign ++ html "`" else [] in
    match segments node with
    | [segment] =>
        match seg_fontName segment with
        | MIXED => Ok []
        | Val fontName =>
            _ <- loadFontAsync h fontName ;;
            let styleCss := styleObjectToInlineCss segment parentBgColor in
            let borderStyles := getBorderStyles h node in
            let textAlignStyle := lit "text-align: " ++ textAlign ++ lit ";" in
            let allStyles :=
              sanitizeStyles
                (joinTruthy [Some textAlignStyle; Some styleCss; borderStyles]) in
            let sanitizedChars := escapeText (orDefault (characters node) []) in
            Ok (tableCell alignAttr (styleAttrOf allStyles) sanitizedChars)
        end
    | _ =>
        contentHtml <- renderTextContent node parentBgColor ;;
        if negb (truthy contentHtml) then Ok []
        else
          let containerStyles :=
            sanitizeStyles (cleanZeroValueStyles
                              (joinTruthy [getBorderStyles h node])) in
          let textAlignStyle := lit "text-align: " ++ textAlign ++ lit ";" in
          let finalTdStyle :=
            if truthy containerStyles
            then containerStyles ++ lit ";" ++ textAlignStyle
            else textAlignStyle in
          Ok (tableCell alignAttr (styleAttrOf finalTdStyle) contentHtml)
    end.

(** 214-239.  [find] on the children gives [undefined] when no child has
    the type, and reading a property of [undefined] throws; so does
    destructuring a [fontName] that is not there. *)
Definition renderCta (node : SceneNode) (parentBgColor : RgbColor)
  : result str :=
  match children node with
  | None => Throw TypeError
  | Some cs =>
      let shape := find (fun n => isShapeType (type n)) cs in
      match find (fun n => NodeType_eqb (type n) TEXT) cs with
      | None => Throw TypeError
      | Some textNode =>
          let isMixed {A} (v : option (Mixed A)) :=
            match v with Some MIXED => true | _ => false end in
          if isMixed (fontName textNode) || isMixed (fontSize textNode) then Ok []
          else
            match shape with
            | None => Throw TypeError
            | Some shapeNode =>
                let bgColor := hex (getEffectiveBackgroundColor h shapeNode parentBgColor) in
                let finalBgColor := orElse (orDefault bgColor []) (lit "#6D28D9") in
                let borderRadius :=
                  match cornerRadius shapeNode with
                  | Some (Val cr) => cr
                  | _ => 6
                  end in
                match fontName textNode with
                | Some (Val fn) =>
                    _ <- loadFontAsync h fn ;;
                    let textColor :=
                      hex (getEffectiveBackgroundColor h textNode
                             {| r := 0; g := 0; b := 0 |}) in
                    let finalTextColor := orElse (orDefault textColor []) (lit "#FFFFFF") in
                    let fontWeight :=
                      if includes (lit "bold") (toLowerCase (Figma.style fn))
                      then lit "700" else lit "400" in
                    let finalFontSize :=
                      Math_round (match fontSize textNode with
                                  | Some (Val fs) => fs
                                  | _ => PrimFloat.nan
                                  end) in
                    let href := lit "#" in
                    Ok (html "<table border=`0` cellpadding=`0` cellspacing=`0` role=`presentation`><tr><td align=`center` style=`border-radius: "
                        ++ show h borderRadius ++ lit "px; background-color: "
                        ++ finalBgColor ++ html ";` bgcolor=`" ++ finalBgColor
                        ++ html "`><a href=`" ++ href
                        ++ html "` target=`_blank` style=`font-family: '"
                        ++ family fn ++ lit "', Arial, sans-serif; font-size: "
                        ++ show h finalFontSize ++ lit "px; font-weight: "
                        ++ fontWeight ++ lit "; color: " ++ finalTextColor
                        ++ lit "; text-decoration: none; padding: 12px 24px; border-radius: "
                        ++ show h borderRadius ++ html "px; display: inline-block;`>"
                        ++ orDefault (characters textNode) (lit "undefined")
                        ++ lit "</a></td></tr></table>")
                | _ => Throw TypeError
                end
            end
      end
  end.

(** 531-564 *)
Definition renderShape (node : SceneNode) (parentWidth : num)
    (parentBgColor : RgbColor) : str :=
  if (width node <? 1) || (height node <? 1) then []
  else
    let bgColorHex := hex (getEffectiveBackgroundColor h node parentBgColor) in
    let bgTruthy := orDefault bgColorHex [] in
    let finalHeight := Math_round (height node) in
    let cellStyles :=
      sanitizeStyles
        (cleanZeroValueStyles
           (joinTruthy
              [ (if truthy bgTruthy
                 then Some (lit "background-color:" ++ bgTruthy) else None);
                Some (lit "height:" ++ show h finalHeight ++ lit "px;");
                Some (lit "font-size:1px;");
                Some (lit "line-height:1px;");
                getBorderStyles h node ])) in
    let bgColorAttr :=
      if truthy bgTruthy then html "bgcolor=`" ++ bgTruthy ++ html "`" else [] in
    let styleAttr := styleAttrOf cellStyles in
    html "<table width=`100%` height=`" ++ show h finalHeight
    ++ html "` cellpadding=`0` cellspacing=`0` border=`0` role=`presentation`><tr><td "
    ++ bgColorAttr ++ lit " " ++ styleAttr ++ lit ">&nbsp;</td></tr></table>".

(** 566-581 *)
Definition renderImagePlaceholder (node : SceneNode) (parentWidth : num) : str :=
  if (width node <? 1) || (height node <? 1) then []
  else
    let w := Math_round (width node) in
    let h' := Math_round (height node) in
    let finalWidth := Math_max 1 (Math_min w parentWidth) in
    let url :=
      lit "https://placehold.co/" ++ show h finalWidth ++ lit "x" ++ show h h'
      ++ lit "/EFEFEF/7F7F7F?text="
      ++ encodeURIComponent h (show h finalWidth ++ lit " x " ++ show h h') in
    html "<img src=`" ++ url ++ html "` width=`" ++ show h finalWidth
    ++ html "` alt=`" ++ orElse (name node) (lit "Image")
    ++ html "` style=`display: block; border: 0; width: 100%; max-width: "
    ++ show h finalWidth ++ html "px; height: auto;` />".

(** A child together with the renderer of its subtree ([renderNode] on
    it): the loops below run the renderer where the source calls
    [this.renderNode(child, ...)]. *)
Definition Renderer := num -> RgbColor -> result str.
Definition Kid := (SceneNode * Renderer)%type.

(** 520-529 *)
Definition renderBulletPoint (node : SceneNode) (parentWidth : num)
    (parentBgColor : RgbColor) : result str :=
  match children node with
  | Some (bulletNode :: textNode :: _) =>
      let itemSpacing := orDefault (itemSpacing node) 8 in
      bulletHtml <- renderTextContent bulletNode parentBgColor ;;
      textHtml <- renderTextContent textNode parentBgColor ;;
      Ok (html "<table width=`100%` border=`0` cellpadding=`0` cellspacing=`0` role=`presentation`><tr><td style=`width:1%;` valign=`top`>"
          ++ bulletHtml ++ html "</td><td width=`" ++ show h itemSpacing
          ++ html "`>&nbsp;</td><td valign=`top`>" ++ textHtml
          ++ lit "</td></tr></table>")
  | _ => Throw TypeError
  end.

(** The filler row of 261-263. *)
Definition gapRow (verticalGap : num) : str :=
  html "<tr><td height=`" ++ show h verticalGap ++ html "` style=`font-size:"
  ++ show h verticalGap ++ lit "px; line-height:" ++ show h verticalGap
  ++ html "px;` colspan=`3`>&nbsp;</td></tr>".

Definition gutter (padding : num) : str :=
  if (0 <? padding)
  then html "<td class=`gutter` width=`" ++ show h padding ++ html "`>&nbsp;</td>"
  else [].

(** 260-264: what a gap pushes. *)
Definition fillerRows (verticalGap : num) : list str :=
  if (2 <? verticalGap) then [gapRow verticalGap] else [].

(** 272-285: what a rendered child pushes. *)
Definition contentRow (paddingLeft paddingRight : num) (childHtml : str)
  : list str :=
  if truthy childHtml
  then [lit "<tr>" ++ gutter paddingLeft ++ lit "<td>" ++ childHtml
        ++ lit "</td>" ++ gutter paddingRight ++ lit "</tr>"]
  else [].

(** The loop of 258-288: the rows pushed for [children], from
    [lastBottomY] on. *)
Fixpoint stackedRows (availableWidth : num) (parentBgColor : RgbColor)
    (paddingLeft paddingRight : num) (children : list Kid) (lastBottomY : num)
  : result (list str) :=
  match children with
  | [] => Ok []
  | (child, render) :: rest =>
      let verticalGap := Math_round (y child - lastBottomY) in
      childHtml <- render availableWidth parentBgColor ;;
      more <- stackedRows availableWidth parentBgColor paddingLeft paddingRight
                          rest (y child + height child) ;;
      Ok (fillerRows verticalGap ++ contentRow paddingLeft paddingRight childHtml
          ++ more)
  end.

(** 290: the table around the rows. *)
Definition stackTable (rows : list str) : str :=
  html "<table width=`100%` border=`0` cellpadding=`0` cellspacing=`0` role=`presentation`>"
  ++ join [] rows ++ lit "</table>".

(** 241-291 *)
Definition renderStackedChildrenK (kids : list Kid) (parentNode : SceneNode)
    (parentWidth : num) (parentBgColor : RgbColor) : result str :=
  let visibleKids := filter (fun k => visible (fst k)) kids in
  let children :=
    match layoutMode parentNode with
    | Some VERTICAL | None => visibleKids
    | Some _ => sortByY (fun k => y (fst k)) visibleKids
    end in
  let lastBottomY := orDefault (paddingTop parentNode) 0 in
  let paddingLeft := match paddingLeft parentNode with
                     | Some p => Math_round p | None => 0 end in
  let paddingRight := match paddingRight parentNode with
                      | Some p => Math_round p | None => 0 end in
  let availableWidth := parentWidth - paddingLeft - paddingRight in
  rows <- stackedRows availableWidth parentBgColor paddingLeft paddingRight
                      children lastBottomY ;;
  Ok (stackTable rows).

Definition isContainerType (t : NodeType) : bool :=
  existsb (NodeType_eqb t) [FRAME; GROUP; INSTANCE; COMPONENT].

(** The loop of 386-412; [index] counts from [0]. *)
Fixpoint horizontalCells (parentBgColor : RgbColor) (itemSpacing : num)
    (totalContentWidth : num) (count : nat) (children : list Kid) (index : nat)
  : result (list str) :=
  match children with
  | [] => Ok []
  | (child, render) :: rest =>
      let colWidth := Math_round (width child) in
      let widthAttr :=
        if isImageLikeNode child
        then html "width=`" ++ show h colWidth ++ html "`"
        else if isContainerType (type child) && Nat.ltb 1 count
        then html "width=`" ++ toFixed2 h (colWidth / totalContentWidth * 100)
             ++ html "%`"
        else [] in
      childHtml <- render colWidth parentBgColor ;;
      let finalWidthAttr := if truthy widthAttr then lit " " ++ widthAttr else [] in
      let cell := lit "<td" ++ finalWidthAttr ++ html " valign=`top`>" ++ childHtml
                  ++ lit "</td>" in
      let spacer :=
        if Nat.ltb index (count - 1) && (0 <? itemSpacing)
        then [html "<td width=`" ++ show h itemSpacing
              ++ html "` style=`font-size:0; line-height:0;`>&nbsp;</td>"]
        else [] in
      more <- horizontalCells parentBgColor itemSpacing totalContentWidth count
                              rest (S index) ;;
      Ok (cell :: spacer ++ more)
  end.

(** 368-415 *)
Definition renderHorizontalChildrenK (kids : list Kid) (node : SceneNode)
    (parentWidth : num) (parentBgColor : RgbColor) : result str :=
  let children := filter (fun k => visible (fst k)) kids in
  let itemSpacing := match itemSpacing node with
                     | Some sp => Math_round sp | None => 0 end in
  let totalChildWidth := fold_left (fun sum c => sum + width (fst c)) children 0 in
  let count := List.length children in
  let totalSpacing := itemSpacing * (ofInteger (Z.of_nat count) - 1) in
  let totalContentWidth := totalChildWidth + totalSpacing in
  cells <- horizontalCells parentBgColor itemSpacing totalContentWidth count
                           children 0 ;;
  Ok (html "<table width=`100%` border=`0` cellpadding=`0` cellspacing=`0` role=`presentation`><tr>"
      ++ join [] cells ++ lit "</tr></table>").

Definition paddingRow (padding : num) : str :=
  if (0 <? padding)
  then html "<tr><td height=`" ++ show h padding ++ html "` style=`font-size:"
       ++ show h padding ++ lit "px; line-height:" ++ show h padding
       ++ html "px;`>&nbsp;</td></tr>"
  else [].

(** 293-366 *)
Definition renderContainerK (kids : list Kid) (node : SceneNode)
    (parentWidth : num) (parentBgColor : RgbColor) (isRoot : bool)
  : result str :=
  let children := filter (fun k => visible (fst k)) kids in
  let effective := getEffectiveBackgroundColor h node parentBgColor in
  let bgColorHex := orDefault (hex effective) [] in
  let effectiveBgRgb := rgb effective in
  let border := getBorderStyles h node in
  if Nat.eqb (List.length children) 0 && negb (truthy bgColorHex)
     && negb (truthy (orDefault border []))
  then Ok []
  else
    let nodeWidth := Math_round (width node) in
    let finalWidth := if isRoot then 600 else Math_min nodeWidth parentWidth in
    let isFluid :=
      negb isRoot && ((0.95 <? nodeWidth / parentWidth) || (450 <? nodeWidth)) in
    let tableStyles :=
      sanitizeStyles
        (cleanZeroValueStyles
           (joinTruthy
              [ (if truthy bgColorHex
                 then Some (lit "background-color:" ++ bgColorHex) else None);
                border ])) in
    let tableStyleAttr := styleAttrOf tableStyles in
    let tableBgColorAttr :=
      if truthy bgColorHex then html "bgcolor=`" ++ bgColorHex ++ html "`" else [] in
    let tableWidthAttr :=
      if isRoot then html "width=`" ++ show h finalWidth ++ html "`"
      else if isFluid then html "width=`100%`"
      else html "width=`" ++ show h finalWidth ++ html "`" in
    let className := if isRoot then html "class=`wrapper`" else [] in
    innerHtml <-
      match layoutMode node with
      | Some HORIZONTAL =>
          renderHorizontalChildrenK kids node finalWidth effectiveBgRgb
      | _ => renderStackedChildrenK kids node finalWidth effectiveBgRgb
      end ;;
    let paddingTop := match paddingTop node with
                      | Some p => Math_round p | None => 0 end in
    let paddingBottom := match paddingBottom node with
                         | Some p => Math_round p | None => 0 end in
    let paddingTopHtml := paddingRow paddingTop in
    let paddingBottomHtml := paddingRow paddingBottom in
    let finalInnerHtml :=
      [NL] ++ lit "      " ++ paddingTopHtml
      ++ [NL] ++ lit "      "
      ++ (if truthy innerHtml
          then lit "<tr><td>" ++ innerHtml ++ lit "</td></tr>" else [])
      ++ lit " " ++ [NL] ++ lit "      " ++ paddingBottomHtml
      ++ [NL] ++ lit "    " in
    Ok (lit "<table " ++ className ++ lit " " ++ tableWidthAttr ++ lit " "
        ++ tableBgColorAttr ++ lit " " ++ tableStyleAttr
        ++ html " cellpadding=`0` cellspacing=`0` border=`0` role=`presentation`>"
        ++ finalInnerHtml ++ lit "</table>").

(** 171-212, given the children of [node] with their renderers. *)
Definition renderNodeK (kids : list Kid) (node : SceneNode)
    (parentWidth : num) (parentBgColor : RgbColor) : result str :=
  if negb (visible node) then Ok []
  else
    match type node with
    | FRAME | GROUP | COMPONENT | INSTANCE =>
        if isIconGroup node then Ok (renderImagePlaceholder node parentWidth)
        else
          bullet <- isBulletPoint node ;;
          if bullet : bool then renderBulletPoint node parentWidth parentBgColor
          else if inArray (id node) confirmedCtaIds && isPotentialCta node
          then renderCta node parentBgColor
          else renderContainerK kids node parentWidth parentBgColor false
    | RECTANGLE | ELLIPSE =>
        if hasImageFill node then Ok (renderImagePlaceholder node parentWidth)
        else Ok (renderShape node parentWidth parentBgColor)
    | TEXT => renderText node parentBgColor
    | VECTOR | LINE => Ok (renderImagePlaceholder node parentWidth)
    | _ => Ok []
    end.

(** [renderNode]: the recursion goes through the children of the node. *)
Fixpoint renderNode (node : SceneNode) : Renderer :=
  renderNodeK (overChildren (fun child => (child, renderNode child)) node) node.

Definition kidsOf (node : SceneNode) : list Kid :=
  overChildren (fun child => (child, renderNode child)) node.

Definition renderContainer (node : SceneNode) (parentWidth : num)
    (parentBgColor : RgbColor) (isRoot : bool) : result str :=
  renderContainerK (kidsOf node) node parentWidth parentBgColor isRoot.

Definition renderStackedChildren (parentNode : SceneNode) (parentWidth : num)
    (parentBgColor : RgbColor) : result str :=
  renderStackedChildrenK (kidsOf parentNode) parentNode parentWidth parentBgColor.

(** 619: the three [replace] calls on the final markup. *)
Definition cleanUp (finalHtml : str) : str :=
  removeAll emptyRow (removeAll emptyCellRow (removeAll tbodyTag finalHtml)).

(** The loop of 600-615 over the sorted selection; [first] is [i = 0]. *)
Fixpoint selectionRows (sortedNodes : list SceneNode) (first : bool)
    (lastBottomY : num) : result (list str) :=
  match sortedNodes with
  | [] => Ok []
  | node :: rest =>
      let gap := Math_round (y node - lastBottomY) in
      let filler :=
        if negb first && (2 <? gap)
        then [html "<tr><td height=`" ++ show h gap ++ html "` style=`font-size:"
              ++ show h gap ++ lit "px; line-height:" ++ show h gap
              ++ html "px;`>&nbsp;</td></tr>"]
        else [] in
      nodeHtml <- renderNode node (width node) white ;;
      let row :=
        if truthy (trim nodeHtml)
        then [lit "<tr><td>" ++ nodeHtml ++ lit "</td></tr>"] else [] in
      let lastBottomY' :=
        if visible node then y node + height node else lastBottomY in
      more <- selectionRows rest false lastBottomY' ;;
      Ok (filler ++ row ++ more)
  end.

(** 583-620 *)
Definition parse (nodes : list SceneNode) : result str :=
  match nodes with
  | [] => Ok []
  | [node] =>
      let rootBgColor := white in
      finalHtml <-
        (if existsb (NodeType_eqb (type node)) [FRAME; COMPONENT; INSTANCE]
         then renderContainer node (width node) rootBgColor true
         else renderNode node (width node) rootBgColor) ;;
      Ok (cleanUp finalHtml)
  | _ =>
      let sortedNodes := sortByY y nodes in
      rows <- selectionRows sortedNodes true 0 ;;
      let finalHtml :=
        html "<table width=`600` border=`0` cellpadding=`0` cellspacing=`0` role=`presentation` align=`center` style=`width:600px;`>"
        ++ join [] rows ++ lit "</table>" in
      Ok (cleanUp finalHtml)
  end.

End Renderer.

(** 667-672: the nodes the message handler looks at, the selected nodes
    each followed by what its [findAll] returns (the nodes of the four
    container types have the method), and the candidates it asks the
    user about. *)
Definition allNodes (selectedNodes : list SceneNode) : list SceneNode :=
  flat_map
    (fun node =>
       node :: (if isContainerType (type node) then findAll node else []))
    selectedNodes.

Definition potentialCtas (selectedNodes : list SceneNode) : list SceneNode :=
  filter isPotentialCta (allNodes selectedNodes).

End CodeTs.

(* ================================================================== *)
(** ** src/unnamed/part_000: the revision with image export modes *)
(* ================================================================== *)

Module Part000.
Local Open Scope float_scope.

(** [bulletCharacterMap] (part_000 306-310): its own keys. *)
Definition bulletCharacterMap : list (str * str) :=
  [ ([BULLET], lit "&#8226;"); (lit "*", lit "&#8226;"); (lit "-", lit "&#8211;") ].

(** The fields of the parser object (376-377).  The counter only ever
    holds the natural numbers [0, 1, 2, ...], which a double represents
    exactly up to 2^53. *)
Record Parser := {
  imageAssets : list ImageAsset;
  imageCounter : N
}.

(** The fields of [new FigmaPluginParser()]. *)
Definition newParser : Parser := {| imageAssets := []; imageCounter := 0 |}.

(** An [async] method of the parser: it may update the fields, and
    returns or throws. *)
Definition M (A : Type) := Method Parser A.

(** 320-323 is [figmaColorToHex], 423-428 is [blendColors]. *)

(** 325-353.  [gradientStops[0]] of a gradient without stops is
    [undefined], and reading its [color] throws. *)
Fixpoint findParentBackgroundColor_chain (chain : list Ancestor)
  : result RgbColor :=
  match chain with
  | [] => Ok white
  | parent :: up =>
      if NodeType_eqb (anc_type parent) PAGE then Ok white
      else
        match anc_fills parent with
        | Some (Val ((_ :: _) as fs)) =>
            match find (fun f => (isSolid f || isGradient f) && notHidden f) fs with
            | Some (SOLID _ opacity color) =>
                if (0.99 <=? orDefault opacity 1) then Ok color
                else findParentBackgroundColor_chain up
            | Some (GRADIENT _ _ gradientStops) =>
                match gradientStops with
                | [] => Throw TypeError
                | firstStop :: _ =>
                    let c := Figma.color firstStop in
                    if (0.99 <=? orDefault (alpha c) 1)
                    then Ok {| r := sr c; g := sg c; b := sb c |}
                    else findParentBackgroundColor_chain up
                end
            | _ => findParentBackgroundColor_chain up
            end
        | _ => findParentBackgroundColor_chain up
        end
  end.

Definition findParentBackgroundColor (node : SceneNode) : result RgbColor :=
  findParentBackgroundColor_chain (parent node).

(** 383-394 *)
Definition sanitizeRule (styleMap : list (str * str)) (rule : str)
  : list (str * str) :=
  match split COLON rule with
  | key :: valueParts =>
      let value := trim (join (lit ":") valueParts) in
      if negb (truthy key) || negb (truthy value) then styleMap
      else mapSet (trim key) value styleMap
  | [] => styleMap
  end.

Definition sanitizeStyles (styleStr : str) : str :=
  if negb (truthy styleStr) then []
  else
    let rules := filter (fun rule => truthy (trim rule)) (split SEMI styleStr) in
    let styleMap := fold_left sanitizeRule rules [] in
    join (lit ";") (map (fun kv => fst kv ++ lit ":" ++ snd kv) styleMap).

(** [/^0(px|pt|em|%|vw|vh)?$/.test(value)] *)
Definition isZero (value : str) : bool :=
  match value with
  | zero :: unit =>
      (zero =? 48)%N
      && inArray unit [ []; lit "px"; lit "pt"; lit "em"; lit "%"; lit "vw"; lit "vh" ]
  | [] => false
  end.

(** The filter of 398-407: [true] keeps the rule.  [&&] binds tighter
    than [||]. *)
Definition keepRule (rule : str) : bool :=
  if negb (truthy (trim rule)) then false
  else
    match map trim (split COLON rule) with
    | key :: value :: _ =>
        if negb (truthy value) then true
        else
          if includes (lit "border-radius") key
             || ((startsWith (lit "padding") key || startsWith (lit "margin") key
                  || startsWith (lit "border") key) && isZero value)
          then false else true
    | _ => true
    end.

(** 396-408 *)
Definition cleanZeroValueStyles (styleStr : str) : str :=
  if negb (truthy styleStr) then []
  else join (lit ";") (filter keepRule (split SEMI styleStr)).

(** 430-451 *)
Definition getEffectiveBackgroundColorForFills (h : Host)
    (fills : list Paint) (parentBgColor : RgbColor) : result EffectiveColor :=
  let none := {| hex := None; rgb := parentBgColor |} in
  let resolve (color : RgbColor) (opacity : num) :=
    if (0.99 <=? opacity)
    then {| hex := Some (figmaColorToHex h color); rgb := color |}
    else
      let finalRgb :=
        blendColors {| Rgba.r := r color; Rgba.g := g color; Rgba.b := b color;
                       Rgba.a := opacity |} parentBgColor in
      {| hex := Some (figmaColorToHex h finalRgb); rgb := finalRgb |} in
  match find notHidden fills with
  | None => Ok none
  | Some (SOLID _ opacity color) => Ok (resolve color (orDefault opacity 1))
  | Some (GRADIENT _ _ gradientStops) =>
      match gradientStops with
      | [] => Throw TypeError
      | firstStop :: _ =>
          let c := Figma.color firstStop in
          Ok (resolve {| r := sr c; g := sg c; b := sb c |} (orDefault (alpha c) 1))
      end
  | Some _ => Ok none
  end.

(** 453-459 *)
Definition getEffectiveBackgroundColor (h : Host)
    (node : SceneNode) (parentBgColor : RgbColor) : result EffectiveColor :=
  match fills node with
  | None => getEffectiveBackgroundColorForFills h [] parentBgColor
  | Some (Val fs) => getEffectiveBackgroundColorForFills h fs parentBgColor
  | Some MIXED => Ok {| hex := None; rgb := parentBgColor |}
  end.

(** 410-421 *)
Definition getBorderStyles (h : Host) (node : SceneNode) : result (option str) :=
  match strokes node, strokeWeight node with
  | Some ((_ :: _) as ss), Some (Val sw) =>
      if (sw =? 0) then Ok None
      else
        match find (fun s => notHidden s && isSolid s) ss with
        | Some (SOLID _ _ _ as stroke) =>
            let weight := Math_round sw in
            if (weight =? 0) then Ok None
            else
              rbind (findParentBackgroundColor node) (fun parentBg =>
              rbind (getEffectiveBackgroundColorForFills h [stroke] parentBg)
                (fun effective =>
                   let colorHex := hex effective in
                   Ok (Some (lit "border: " ++ show h weight ++ lit "px solid "
                             ++ orElse (orDefault colorHex []) (lit "#000000")
                             ++ lit ";"))))
        | _ => Ok None
        end
  | _, _ => Ok None
  end.

Definition isShapeType (t : NodeType) : bool :=
  NodeType_eqb t RECTANGLE || NodeType_eqb t ELLIPSE.

Definition hasImageFill (node : SceneNode) : bool :=
  match fills node with
  | Some (Val fs) => existsb isImage fs
  | _ => false
  end.

(** 461-468 *)
Fixpoint isImageLikeNode (node : SceneNode) : bool :=
  if isShapeType (type node) && hasImageFill node then true
  else if existsb (NodeType_eqb (type node)) [VECTOR; LINE] then true
  else
    match children node with
    | Some ((_ :: _) as cs) =>
        forallb (fun child => negb (NodeType_eqb (type child) TEXT)
                              && isImageLikeNode child) cs
    | _ => false
    end.

(** 697-703.  Reading [characters] of a child that has none throws. *)
Definition isBulletPoint (node : SceneNode) : result bool :=
  if negb (NodeType_eqb (type node) FRAME) || negb (visible node) then Ok false
  else
    match layoutMode node, children node with
    | Some HORIZONTAL, Some [firstChild; secondChild] =>
        if negb (NodeType_eqb (type firstChild) TEXT)
           || negb (NodeType_eqb (type secondChild) TEXT)
        then Ok false
        else
          match characters firstChild with
          | None => Throw TypeError
          | Some cs =>
              let bulletChar := trim cs in
              Ok (Nat.eqb (List.length bulletChar) 1
                  && match ownProperty bulletChar bulletCharacterMap with
                     | Some _ => true | None => false end)
          end
    | _, _ => Ok false
    end.

(** The four [replace] calls of 581. *)
Definition escapeText (chars : str) : str :=
  replaceAll NL (html "<br />")
    (replaceAll GT (lit "&gt;")
      (replaceAll LT (lit "&lt;")
        (replaceAll AMP (lit "&amp;") chars))).

(** [(node.textAlignHorizontal || 'LEFT').toLowerCase()] *)
Definition textAlignOf (node : SceneNode) : str :=
  match orDefault (textAlignHorizontal node) LEFT with
  | LEFT => lit "left"
  | CENTER => lit "center"
  | RIGHT => lit "right"
  | JUSTIFIED => lit "justified"
  end.

(** [!node.characters?.trim()] *)
Definition blankCharacters (node : SceneNode) : bool :=
  match characters node with
  | None => true
  | Some cs => negb (truthy (trim cs))
  end.

Definition styleAttrOf (styles : str) : str :=
  if truthy styles then html "style=`" ++ styles ++ html "`" else [].

Definition bgcolorAttrOf (bgColorHex : str) : str :=
  if truthy bgColorHex then html "bgcolor=`" ++ bgColorHex ++ html "`" else [].

Section Renderer.
Variable h : Host.
Local Open Scope js_scope.

(** 588-605 *)
Definition styleObjectToInlineCss (style : StyledTextSegment)
    (parentBgColor : RgbColor) : result str :=
  color <-
    match seg_fills style with
    | _ :: _ =>
        effective <- getEffectiveBackgroundColorForFills h (seg_fills style)
                                                       parentBgColor ;;
        match hex effective with
        | Some colorHex =>
            Ok (if truthy colorHex then [lit "color: " ++ colorHex] else [])
        | None => Ok []
        end
    | [] => Ok []
    end ;;
  let font :=
    match seg_fontName style with
    | Val fontName =>
        if truthy (family fontName) then
          [lit "font-family: '" ++ family fontName ++ lit "', sans-serif"]
          ++ (if includes (lit "bold") (toLowerCase (Figma.style fontName))
              then [lit "font-weight: 700"] else [])
        else []
    | MIXED => []
    end in
  let size :=
    if numTruthy (seg_fontSize style)
    then [lit "font-size: " ++ show h (Math_round (seg_fontSize style)) ++ lit "px"]
    else [] in
  let lineHeight :=
    match seg_lineHeight style with
    | AUTO => []
    | PIXELS value => [lit "line-height: " ++ show h (Math_round value) ++ lit "px"]
    | PERCENT value => [lit "line-height: " ++ show h (Math_round value) ++ lit "%"]
    end in
  let decoration :=
    match seg_textDecoration style with
    | UNDERLINE => [lit "text-decoration: underline"]
    | _ => []
    end in
  let styles := color ++ font ++ size ++ lineHeight ++ decoration in
  Ok (sanitizeStyles (cleanZeroValueStyles (join (lit ";") styles))).

(** [bulletCharacterMap[key] || fallback]: an own key, or a member
    inherited from [Object.prototype]. *)
Definition bulletOr (key fallback : str) : str :=
  match ownProperty key bulletCharacterMap with
  | Some entity => entity
  | None =>
      match inheritedProperty h key with
      | Some member => member
      | None => fallback
      end
  end.

(** The loop of 578-584. *)
Fixpoint renderSegments (segs : list StyledTextSegment)
    (parentBgColor : RgbColor) : result str :=
  match segs with
  | [] => Ok []
  | segment :: rest =>
      match seg_fontName segment with
      | MIXED => renderSegments rest parentBgColor
      | Val _ =>
          styleCss <- styleObjectToInlineCss segment parentBgColor ;;
          let sanitizedChars := escapeText (seg_characters segment) in
          let finalContent := bulletOr (trim sanitizedChars) sanitizedChars in
          let piece :=
            if truthy styleCss
            then html "<span style=`" ++ styleCss ++ html "`>" ++ finalContent
                 ++ lit "</span>"
            else finalContent in
          more <- renderSegments rest parentBgColor ;;
          Ok (piece ++ more)
      end
  end.

(** 574-586 *)
Definition renderTextContent (node : SceneNode) (parentBgColor : RgbColor)
  : result str :=
  if blankCharacters node then Ok []
  else renderSegments (segments node) parentBgColor.

(** 565-572 *)
Definition renderText (node : SceneNode) (parentBgColor : RgbColor)
  : result str :=
  if blankCharacters node then Ok []
  else
    let textAlign := textAlignOf node in
    contentHtml <- renderTextContent node parentBgColor ;;
    border <- getBorderStyles h node ;;
    let containerStyles :=
      sanitizeStyles (cleanZeroValueStyles (joinTruthy [border])) in
    let finalTdStyle :=
      (if truthy containerStyles then containerStyles ++ lit ";" else [])
      ++ lit "text-align: " ++ textAlign ++ lit ";" in
    Ok (html "<table cellpadding=`0` cellspacing=`0` border=`0` width=`100%`><tr><td align=`"
        ++ textAlign ++ html "` style=`" ++ finalTdStyle ++ html "`>"
        ++ contentHtml ++ lit "</td></tr></table>").

(** 607-614 *)
Definition renderBulletPoint (node : SceneNode) (parentBgColor : RgbColor)
  : result str :=
  match children node with
  | Some (bulletNode :: textNode :: _) =>
      let itemSpacing := orDefault (itemSpacing node) 8 in
      bulletHtml <- renderTextContent bulletNode parentBgColor ;;
      textHtml <- renderTextContent textNode parentBgColor ;;
      Ok (html "<table width=`100%` border=`0` cellpadding=`0` cellspacing=`0` role=`presentation`><tr><td style=`width:1%;` valign=`top`>"
          ++ bulletHtml ++ html "</td><td width=`" ++ show h itemSpacing
          ++ html "` style=`width: " ++ show h itemSpacing
          ++ html "px;`>&nbsp;</td><td valign=`top`>" ++ textHtml
          ++ lit "</td></tr></table>")
  | _ => Throw TypeError
  end.

(** 616-623 *)
Definition renderShape (node : SceneNode) (parentBgColor : RgbColor)
  : result str :=
  if (width node <? 1) || (height node <? 1) then Ok []
  else
    effective <- getEffectiveBackgroundColor h node parentBgColor ;;
    let bgColorHex := orDefault (hex effective) [] in
    let finalHeight := Math_round (height node) in
    border <- getBorderStyles h node ;;
    let cellStyles :=
      sanitizeStyles
        (cleanZeroValueStyles
           (joinTruthy
              [ (if truthy bgColorHex
                 then Some (lit "background-color:" ++ bgColorHex) else None);
                Some (lit "height:" ++ show h finalHeight ++ lit "px;");
                Some (lit "font-size:1px;");
                Some (lit "line-height:1px;");
                border ])) in
    Ok (html "<table width=`100%` height=`" ++ show h finalHeight
        ++ html "` cellpadding=`0` cellspacing=`0` border=`0`><tr><td "
        ++ bgcolorAttrOf bgColorHex ++ lit " " ++ styleAttrOf cellStyles
        ++ lit ">&nbsp;</td></tr></table>").

Definition imgTag (src : str) (finalWidth : num) (altText : str) : str :=
  html "<img src=`" ++ src ++ html "` width=`" ++ show h finalWidth
  ++ html "` alt=`" ++ altText
  ++ html "` style=`display: block; border: 0; width: 100%; max-width: "
  ++ show h finalWidth ++ html "px; height: auto;` />".

Definition exportError (altText : str) : str :=
  html "<p style=`color:red;`>Error exporting image: " ++ altText ++ lit "</p>".

Local Open Scope parser_scope.

(** 625-655.  Whatever the [try] block throws is caught; the counter is
    advanced and the asset pushed only after the export has returned. *)
Definition renderImage (node : SceneNode) (parentWidth : num)
    (mode : ImageExportMode) : M str :=
  if (width node <? 1) || (height node <? 1) then ret []
  else
    let finalWidth := Math_min (Math_round (width node)) parentWidth in
    let altText := orElse (name node) (lit "Image") in
    match mode with
    | placeholder =>
        let url :=
          lit "https://placehold.co/" ++ show h finalWidth ++ lit "x"
          ++ show h (Math_round (height node)) ++ lit "/EFEFEF/7F7F7F?text="
          ++ show h finalWidth ++ lit "x" ++ show h (Math_round (height node)) in
        ret (imgTag url finalWidth altText)
    | base64 =>
        let exportSettings := {| png_width := Math_round (width node * 2) |} in
        match rbind (exportAsync h node exportSettings) (base64Encode h) with
        | Ok base64String =>
            ret (imgTag (lit "data:image/png;base64," ++ base64String)
                        finalWidth altText)
        | Throw _ => ret (exportError altText)
        end
    | download =>
        let exportSettings := {| png_width := Math_round (width node * 2) |} in
        match exportAsync h node exportSettings with
        | Ok imageBytes =>
            fun this =>
              let counter := (imageCounter this + 1)%N in
              let imageName := lit "image-" ++ decimalDigits counter ++ lit ".png" in
              (Ok (imgTag (lit "images/" ++ imageName) finalWidth altText),
               {| imageAssets :=
                    imageAssets this
                    ++ [{| asset_name := imageName; asset_data := imageBytes |}];
                  imageCounter := counter |})
        | Throw _ => ret (exportError altText)
        end
    end.

(** A child together with the renderer of its subtree ([renderNode] on
    it): the loops below run the renderer where the source calls
    [this.renderNode(child, ...)]. *)
Definition Renderer := num -> RgbColor -> ImageExportMode -> M str.
Definition Kid := (SceneNode * Renderer)%type.

(** The filler row of 502. *)
Definition gapRow (verticalGap : num) : str :=
  html "<tr><td height=`" ++ show h verticalGap ++ html "` style=`height:"
  ++ show h verticalGap ++ lit "px; font-size:" ++ show h verticalGap
  ++ lit "px; line-height:" ++ show h verticalGap
  ++ html "px;` colspan=`3`>&nbsp;</td></tr>".

Definition gutter (padding : num) : str :=
  if (0 <? padding)
  then html "<td class=`gutter` width=`" ++ show h padding
       ++ html "` style=`width: " ++ show h padding ++ html "px;`>&nbsp;</td>"
  else [].

(** 501-502: what a gap pushes. *)
Definition fillerRows (verticalGap : num) : list str :=
  if (2 <? verticalGap) then [gapRow verticalGap] else [].

(** 504-508: what a rendered child pushes. *)
Definition contentRow (paddingLeft paddingRight : num) (childHtml : str)
  : list str :=
  if truthy childHtml
  then [lit "<tr>" ++ gutter paddingLeft ++ lit "<td>" ++ childHtml
        ++ lit "</td>" ++ gutter paddingRight ++ lit "</tr>"]
  else [].

(** The loop of 500-510: the rows pushed for [children], from
    [lastBottomY] on. *)
Fixpoint stackedRows (availableWidth : num) (parentBgColor : RgbColor)
    (imageExportMode : ImageExportMode) (paddingLeft paddingRight : num)
    (children : list Kid) (lastBottomY : num) : M (list str) :=
  match children with
  | [] => ret []
  | (child, render) :: rest =>
      let verticalGap := Math_round (y child - lastBottomY) in
      childHtml <- render availableWidth parentBgColor imageExportMode ;;
      more <- stackedRows availableWidth parentBgColor imageExportMode
                          paddingLeft paddingRight rest (y child + height child) ;;
      ret (fillerRows verticalGap
           ++ contentRow paddingLeft paddingRight childHtml ++ more)
  end.

(** 511: the table around the rows. *)
Definition stackTable (rows : list str) : str :=
  html "<table width=`100%` border=`0` cellpadding=`0` cellspacing=`0` role=`presentation`>"
  ++ join [] rows ++ lit "</table>".

(** 491-512 *)
Definition renderStackedChildrenK (kids : list Kid) (parentNode : SceneNode)
    (parentWidth : num) (parentBgColor : RgbColor)
    (imageExportMode : ImageExportMode) : M str :=
  let visibleKids := filter (fun k => visible (fst k)) kids in
  let children :=
    match layoutMode parentNode with
    | Some VERTICAL | None => visibleKids
    | Some _ => sortByY (fun k => y (fst k)) visibleKids
    end in
  let lastBottomY := orDefault (paddingTop parentNode) 0 in
  let paddingLeft := orDefault (paddingLeft parentNode) 0 in
  let paddingRight := orDefault (paddingRight parentNode) 0 in
  let availableWidth := parentWidth - paddingLeft - paddingRight in
  rows <- stackedRows availableWidth parentBgColor imageExportMode
                      paddingLeft paddingRight children lastBottomY ;;
  ret (stackTable rows).

(** The loop of 551-561; [index] counts from [0]. *)
Fixpoint horizontalCells (node : SceneNode) (parentBgColor : RgbColor)
    (imageExportMode : ImageExportMode) (itemSpacing : num)
    (isSpaceBetween : bool) (count : nat) (children : list Kid) (index : nat)
  : M (list str) :=
  match children with
  | [] => ret []
  | (child, render) :: rest =>
      childHtml <- render (width child) parentBgColor imageExportMode ;;
      let valign :=
        match counterAxisAlignItems node with
        | Some CA_MAX => lit "bottom"
        | Some CA_CENTER => lit "middle"
        | _ => lit "top"
        end in
      let cell := html "<td valign=`" ++ valign ++ html "`>" ++ childHtml
                  ++ lit "</td>" in
      let spacer :=
        if Nat.ltb index (count - 1) then
          if isSpaceBetween then [html "<td width=`100%`>&nbsp;</td>"]
          else if (0 <? itemSpacing)
          then [html "<td width=`" ++ show h itemSpacing ++ html "` style=`width: "
                ++ show h itemSpacing ++ html "px;`>&nbsp;</td>"]
          else []
        else [] in
      more <- horizontalCells node parentBgColor imageExportMode itemSpacing
                              isSpaceBetween count rest (S index) ;;
      ret (cell :: spacer ++ more)
  end.

(** 545-563 *)
Definition renderHorizontalChildrenK (kids : list Kid) (node : SceneNode)
    (parentWidth : num) (parentBgColor : RgbColor)
    (imageExportMode : ImageExportMode) : M str :=
  let children := filter (fun k => visible (fst k)) kids in
  let itemSpacing := match itemSpacing node with
                     | Some sp => Math_round sp | None => 0 end in
  let count := List.length children in
  let isSpaceBetween :=
    match primaryAxisAlignItems node with
    | Some SPACE_BETWEEN => Nat.ltb 1 count
    | _ => false
    end in
  cells <- horizontalCells node parentBgColor imageExportMode itemSpacing
                           isSpaceBetween count children 0 ;;
  ret (html "<table width=`100%` border=`0` cellpadding=`0` cellspacing=`0` role=`presentation`><tr>"
       ++ join [] cells ++ lit "</tr></table>").

Definition paddingRow (padding : num) : str :=
  if (0 <? padding)
  then html "<tr><td height=`" ++ show h padding ++ html "` style=`font-size:"
       ++ show h padding ++ lit "px; line-height:" ++ show h padding
       ++ html "px;`>&nbsp;</td></tr>"
  else [].

(** 514-543.  [getBorderStyles] is evaluated where the source evaluates
    it: behind the short-circuits of [&&] and [||]. *)
Definition renderContainerK (kids : list Kid) (node : SceneNode)
    (parentWidth : num) (parentBgColor : RgbColor) (isRoot : bool)
    (imageExportMode : ImageExportMode) : M str :=
  effective <- lift (getEffectiveBackgroundColor h node parentBgColor) ;;
  let bgColorHex := orDefault (hex effective) [] in
  let effectiveBgRgb := rgb effective in
  let children := filter (fun k => visible (fst k)) kids in
  let borderTruthy : M bool :=
    border <- lift (getBorderStyles h node) ;;
    ret (truthy (orDefault border [])) in
  empty <-
    (if Nat.eqb (List.length children) 0 && negb (truthy bgColorHex)
     then (b <- borderTruthy ;; ret (negb b))
     else ret false) ;;
  if empty : bool then ret []
  else
    innerHtml <-
      match layoutMode node with
      | Some HORIZONTAL =>
          renderHorizontalChildrenK kids node parentWidth effectiveBgRgb
                                    imageExportMode
      | _ => renderStackedChildrenK kids node parentWidth effectiveBgRgb
                                    imageExportMode
      end ;;
    hasStyles <- (if truthy bgColorHex then ret true else borderTruthy) ;;
    let paddingTop := match paddingTop node with
                      | Some p => Math_round p | None => 0 end in
    let paddingBottom := match paddingBottom node with
                         | Some p => Math_round p | None => 0 end in
    if negb hasStyles && (paddingTop =? 0) && (paddingBottom =? 0) && negb isRoot
    then ret innerHtml
    else
      border <- lift (getBorderStyles h node) ;;
      let tableStyles :=
        sanitizeStyles
          (cleanZeroValueStyles
             (joinTruthy
                [ (if truthy bgColorHex
                   then Some (lit "background-color:" ++ bgColorHex) else None);
                  border ])) in
      let paddingTopHtml := paddingRow paddingTop in
      let paddingBottomHtml := paddingRow paddingBottom in
      let finalInnerHtml :=
        paddingTopHtml
        ++ (if truthy innerHtml
            then lit "<tr><td>" ++ innerHtml ++ lit "</td></tr>" else [])
        ++ paddingBottomHtml in
      let width := if isRoot then parentWidth
                   else Math_min (width node) parentWidth in
      ret (html "<table width=`" ++ show h width ++ html "` "
           ++ bgcolorAttrOf bgColorHex ++ lit " " ++ styleAttrOf tableStyles
           ++ html " cellpadding=`0` cellspacing=`0` border=`0` role=`presentation`>"
           ++ finalInnerHtml ++ lit "</table>").

Definition isContainerType (t : NodeType) : bool :=
  existsb (NodeType_eqb t) [FRAME; GROUP; COMPONENT; INSTANCE].

(** 470-489, given the children of [node] with their renderers. *)
Definition renderNodeK (kids : list Kid) (node : SceneNode)
    (parentWidth : num) (parentBgColor : RgbColor)
    (imageExportMode : ImageExportMode) : M str :=
  if negb (visible node) then ret []
  else if isImageLikeNode node then renderImage node parentWidth imageExportMode
  else
    match type node with
    | FRAME | GROUP | COMPONENT | INSTANCE =>
        bullet <- lift (isBulletPoint node) ;;
        if bullet : bool then lift (renderBulletPoint node parentBgColor)
        else renderContainerK kids node parentWidth parentBgColor false
                              imageExportMode
    | RECTANGLE | ELLIPSE => lift (renderShape node parentBgColor)
    | TEXT => lift (renderText node parentBgColor)
    | _ => ret []
    end.

(** [renderNode]: the recursion goes through the children of the node. *)
Fixpoint renderNode (node : SceneNode) : Renderer :=
  renderNodeK (overChildren (fun child => (child, renderNode child)) node) node.

Definition kidsOf (node : SceneNode) : list Kid :=
  overChildren (fun child => (child, renderNode child)) node.

Definition renderContainer (node : SceneNode) (parentWidth : num)
    (parentBgColor : RgbColor) (isRoot : bool)
    (imageExportMode : ImageExportMode) : M str :=
  renderContainerK (kidsOf node) node parentWidth parentBgColor isRoot
                   imageExportMode.

Definition renderStackedChildren (parentNode : SceneNode) (parentWidth : num)
    (parentBgColor : RgbColor) (imageExportMode : ImageExportMode) : M str :=
  renderStackedChildrenK (kidsOf parentNode) parentNode parentWidth
                         parentBgColor imageExportMode.

(** The loop of 677-691 over the sorted selection; [first] is [i = 0]. *)
Fixpoint selectionRows (imageExportMode : ImageExportMode)
    (sortedNodes : list SceneNode) (first : bool) (lastBottomY : num)
  : M (list str) :=
  match sortedNodes with
  | [] => ret []
  | node :: rest =>
      let gap := Math_round (y node - lastBottomY) in
      let filler :=
        if negb first && (2 <? gap)
        then [html "<tr><td height=`" ++ show h gap ++ html "` style=`height:"
              ++ show h gap ++ lit "px; font-size:" ++ show h gap
              ++ lit "px; line-height:" ++ show h gap
              ++ html "px;`>&nbsp;</td></tr>"]
        else [] in
      nodeHtml <- renderNode node (width node) white imageExportMode ;;
      let row :=
        if truthy (trim nodeHtml)
        then [lit "<tr><td>" ++ nodeHtml ++ lit "</td></tr>"] else [] in
      let lastBottomY' :=
        if visible node then y node + height node else lastBottomY in
      more <- selectionRows imageExportMode rest false lastBottomY' ;;
      ret (filler ++ row ++ more)
  end.

(** 657-694 *)
Definition parse (nodes : list SceneNode) (imageExportMode : ImageExportMode)
  : M str :=
  match nodes with
  | [] => ret []
  | _ :: _ =>
      fun _ =>
        let reset := {| imageAssets := []; imageCounter := 0 |} in
        let rootBgColor := white in
        match nodes with
        | [node] =>
            let isRootSelection :=
              match parent node with
              | p :: _ => NodeType_eqb (anc_type p) PAGE
              | [] => false
              end in
            if existsb (NodeType_eqb (type node)) [FRAME; COMPONENT; INSTANCE]
            then renderContainer node (width node) rootBgColor isRootSelection
                                 imageExportMode reset
            else renderNode node (width node) rootBgColor imageExportMode reset
        | _ =>
            let sortedNodes := sortByY y nodes in
            let lastBottomY := match sortedNodes with
                               | first :: _ => y first
                               | [] => 0
                               end in
            (rows <- selectionRows imageExportMode sortedNodes true lastBottomY ;;
             ret (join [] rows)) reset
        end
  end.

(** [getCollectedImageAssets] (379-381) *)
Definition getCollectedImageAssets (this : Parser) : list ImageAsset :=
  imageAssets this.

End Renderer.

End Part000.

(* ================================================================== *)
(** ** src/code.ts 685-1126: the colours of an earlier revision *)
(* ================================================================== *)

Module CodeTsOld.
Local Open Scope float_scope.

(** 699-709.  Of the [SolidPaint] it is given, the function reads
    [color] and [opacity]. *)
Definition blendAndGetSolidHex (h : Host) (opacity : option num)
    (color : RgbColor) (bgRgb : RgbColor) : str :=
  let fgRgb := color in
  let alpha := orDefault opacity 1 in
  figmaColorToHex h
    {| r := r fgRgb * alpha + r bgRgb * (1 - alpha);
       g := g fgRgb * alpha + g bgRgb * (1 - alpha);
       b := b fgRgb * alpha + b bgRgb * (1 - alpha) |}.

(** [f.visible] as a condition: a fill without the property does not
    pass. *)
Definition shown (f : Paint) : bool :=
  match paintVisible f with Some true => true | _ => false end.

(** 716-728 *)
Fixpoint findBackgroundColor_chain (chain : list Ancestor) : RgbColor :=
  match chain with
  | [] => white
  | parent :: up =>
      if NodeType_eqb (anc_type parent) PAGE then white
      else
        match anc_fills parent with
        | Some (Val ((_ :: _) as fs)) =>
            match find (fun f => isSolid f && shown f) fs with
            | Some (SOLID _ opacity color) =>
                if (orDefault opacity 1 =? 1) then color
                else findBackgroundColor_chain up
            | _ => findBackgroundColor_chain up
            end
        | _ => findBackgroundColor_chain up
        end
  end.

Definition findBackgroundColor (node : SceneNode) : RgbColor :=
  findBackgroundColor_chain (parent node).

(** 776-783 *)
Definition getSolidHexForFill (h : Host) (opacity : option num)
    (color : RgbColor) (node : SceneNode) : str :=
  if (orDefault opacity 1 <? 1) then
    let parentBg := findBackgroundColor node in
    blendAndGetSolidHex h opacity color parentBg
  else figmaColorToHex h color.

End CodeTsOld.

(* ================================================================== *)
(** ** src/unnamed/part_000 44-64: the content block of the first revision *)
(* ================================================================== *)

Module Part000Old.

Inductive BlockType := text | other.

(** The fields of a [ContentBlock] (45-47). *)
Record ContentBlock := {
  htmlContent : list str;
  type : option BlockType;
  style : str
}.

(** [new ContentBlock()] *)
Definition newContentBlock : ContentBlock :=
  {| htmlContent := []; type := None; style := [] |}.

(** 49-55 *)
Definition add (html : str) (type' : BlockType) (style' : str)
    (this : ContentBlock) : ContentBlock :=
  match type this with
  | None =>
      {| htmlContent := htmlContent this ++ [html];
         type := Some type';
         style := match type' with text => style' | other => style this end |}
  | Some _ =>
      {| htmlContent := htmlContent this ++ [html];
         type := type this;
         style := style this |}
  end.

(** 57-58 *)
Definition isText (this : ContentBlock) : bool :=
  match type this with Some text => true | _ => false end.

Definition isEmpty (this : ContentBlock) : bool :=
  Nat.eqb (List.length (htmlContent this)) 0.

(** 60-63 *)
Definition render (this : ContentBlock) : str :=
  if isEmpty this then []
  else if isText this then join (html "<br />") (htmlContent this)
  else join [] (htmlContent this).

End Part000Old.

(* ================================================================== *)
(** ** Sample inputs: a host and a few nodes *)
(* ================================================================== *)

Module Sample.
Local Open Scope float_scope.

(** A host whose exporter returns two bytes for every node. *)
Definition host : Host := {|
  numberToString := fun _ => lit "1.5";
  numberToString16 := fun _ => lit "1.8";
  toFixed2 := fun _ => lit "50.00";
  encodeURIComponent := fun s => s;
  inheritedProperty := fun _ => None;
  loadFontAsync := fun _ => Ok tt;
  exportAsync := fun _ _ => Ok [137%N; 80%N];
  base64Encode := fun _ => Ok (lit "iVA=")
|}.

(** The same host with an exporter that rejects every request. *)
Definition failingHost : Host := {|
  numberToString := numberToString host;
  numberToString16 := numberToString16 host;
  toFixed2 := toFixed2 host;
  encodeURIComponent := encodeURIComponent host;
  inheritedProperty := inheritedProperty host;
  loadFontAsync := loadFontAsync host;
  exportAsync := fun _ _ => Throw (HostError (lit "export failed"));
  base64Encode := base64Encode host
|}.

(** The same host with an encoder that fails. *)
Definition brokenEncoderHost : Host := {|
  numberToString := numberToString host;
  numberToString16 := numberToString16 host;
  toFixed2 := toFixed2 host;
  encodeURIComponent := encodeURIComponent host;
  inheritedProperty := inheritedProperty host;
  loadFontAsync := loadFontAsync host;
  exportAsync := exportAsync host;
  base64Encode := fun _ => Throw (HostError (lit "encoding failed"))
|}.

Definition red : RgbColor := {| r := 1; g := 0; b := 0 |}.
Definition blue : RgbColor := {| r := 0; g := 0; b := 1 |}.

(** The fill of the blending example: red at half opacity. *)
Definition halfRed : Paint := SOLID (Some true) (Some 0.5) red.

(** A shape or vector node without strokes, named after its id. *)
Definition leaf (id' : string) (type' : NodeType) (y' width' height' : num)
    (fills' : list Paint) : SceneNode :=
  {| id := lit id'; name := lit id'; type := type'; visible := true;
     x := 0; y := y'; width := width'; height := height'; parent := [];
     fills := Some (Val fills'); strokes := Some [];
     strokeWeight := Some (Val 1); cornerRadius := Some (Val 0);
     children := None; layoutMode := None;
     paddingTop := None; paddingBottom := None; paddingLeft := None;
     paddingRight := None; itemSpacing := None;
     primaryAxisAlignItems := None; counterAxisAlignItems := None;
     characters := None; textAlignHorizontal := None; fontName := None;
     fontSize := None; segments := [] |}.

(** A hidden rectangle, filled red. *)
Definition ghost (id' : string) (y' width' height' : num) : SceneNode :=
  {| id := lit id'; name := lit id'; type := RECTANGLE; visible := false;
     x := 0; y := y'; width := width'; height := height'; parent := [];
     fills := Some (Val [SOLID (Some true) (Some 1) red]); strokes := Some [];
     strokeWeight := Some (Val 1); cornerRadius := Some (Val 0);
     children := None; layoutMode := None;
     paddingTop := None; paddingBottom := None; paddingLeft := None;
     paddingRight := None; itemSpacing := None;
     primaryAxisAlignItems := None; counterAxisAlignItems := None;
     characters := None; textAlignHorizontal := None; fontName := None;
     fontSize := None; segments := [] |}.

(** A rectangle with one opaque solid fill. *)
Definition rectangle (id' : string) (y' width' height' : num) (c : RgbColor)
  : SceneNode :=
  leaf id' RECTANGLE y' width' height' [SOLID (Some true) (Some 1) c].

(** A vector: an image-like leaf. *)
Definition vector (id' : string) (y' width' height' : num) : SceneNode :=
  leaf id' VECTOR y' width' height' [SOLID (Some true) (Some 1) blue].

Definition inter : FontName := {| family := lit "Inter"; style := lit "Regular" |}.

(** A run of text in one style: blue, 16 pixels, in the regular cut of
    the family. *)
Definition segment (family' chars : string) : StyledTextSegment :=
  {| seg_characters := lit chars;
     seg_fontName := Val {| family := lit family'; style := lit "Regular" |};
     seg_fontSize := 16;
     seg_fills := [SOLID (Some true) (Some 1) blue];
     seg_lineHeight := AUTO;
     seg_textDecoration := DECO_NONE |}.

(** A text node in one style: blue Inter at 16 pixels. *)
Definition textNode (id' chars : string) (y' : num) : SceneNode :=
  {| id := lit id'; name := lit chars; type := TEXT; visible := true;
     x := 0; y := y'; width := 100; height := 20; parent := [];
     fills := Some (Val [SOLID (Some true) (Some 1) blue]);
     strokes := Some []; strokeWeight := Some (Val 1); cornerRadius := None;
     children := None; layoutMode := None;
     paddingTop := None; paddingBottom := None; paddingLeft := None;
     paddingRight := None; itemSpacing := None;
     primaryAxisAlignItems := None; counterAxisAlignItems := None;
     characters := Some (lit chars); textAlignHorizontal := Some LEFT;
     fontName := Some (Val inter); fontSize := Some (Val 16);
     segments := [segment "Inter" chars] |}.

(** A text node set in two families: its [fontName] is mixed. *)
Definition twoFonts (id' first second : string) (y' : num) : SceneNode :=
  {| id := lit id'; name := lit first; type := TEXT; visible := true;
     x := 0; y := y'; width := 100; height := 20; parent := [];
     fills := Some (Val [SOLID (Some true) (Some 1) blue]);
     strokes := Some []; strokeWeight := Some (Val 1); cornerRadius := None;
     children := None; layoutMode := None;
     paddingTop := None; paddingBottom := None; paddingLeft := None;
     paddingRight := None; itemSpacing := None;
     primaryAxisAlignItems := None; counterAxisAlignItems := None;
     characters := Some (lit first ++ lit second);
     textAlignHorizontal := Some LEFT;
     fontName := Some MIXED; fontSize := Some (Val 16);
     segments := [segment "Inter" first; segment "Georgia" second] |}.

(** A frame without fills, strokes, padding or auto-layout. *)
Definition frame (id' : string) (cs : list SceneNode) : SceneNode :=
  {| id := lit id'; name := lit id'; type := FRAME; visible := true;
     x := 0; y := 0; width := 300; height := 200;
     parent := [ {| anc_type := PAGE; anc_fills := None |} ];
     fills := Some (Val []); strokes := Some [];
     strokeWeight := Some (Val 1); cornerRadius := Some (Val 0);
     children := Some cs; layoutMode := Some NONE;
     paddingTop := Some 0; paddingBottom := Some 0; paddingLeft := Some 0;
     paddingRight := Some 0; itemSpacing := Some 0;
     primaryAxisAlignItems := Some PA_MIN; counterAxisAlignItems := Some CA_MIN;
     characters := None; textAlignHorizontal := None; fontName := None;
     fontSize := None; segments := [] |}.

(** A button-shaped frame: a rectangle under a label. *)
Definition button (label : string) : SceneNode :=
  frame "1:1" [rectangle "1:2" 0 120 40 red; textNode "1:3" label 10].

(** Two rectangles, ten pixels high, stacked in a frame [gap] pixels
    apart. *)
Definition upper : SceneNode := rectangle "3:1" 0 100 10 red.
Definition lower (gap : num) : SceneNode := rectangle "3:2" (10 + gap) 100 10 blue.
Definition stacked (gap : num) : SceneNode := frame "3:0" [upper; lower gap].

(** What the two revisions make of [stacked gap] when the rows
    [between] stand between the rows of the two rectangles. *)
Definition stackedA (gap : num) (between : list str) : result str :=
  Ok (CodeTs.stackTable
        (CodeTs.contentRow host 0 0 (CodeTs.renderShape host upper 300 white)
         ++ between
         ++ CodeTs.contentRow host 0 0
              (CodeTs.renderShape host (lower gap) 300 white))).

Definition stackedD (gap : num) (between : list str) : result str :=
  (upperHtml <- Part000.renderShape host upper white ;;
   lowerHtml <- Part000.renderShape host (lower gap) white ;;
   Ok (Part000.stackTable
         (Part000.contentRow host 0 0 upperHtml
          ++ between
          ++ Part000.contentRow host 0 0 lowerHtml)))%js.

(** Three icons, one under the other. *)
Definition icons : list SceneNode :=
  [vector "4:1" 0 24 24; vector "4:2" 30 24 24; vector "4:3" 60 24 24].

(** A rectangle with a translucent red stroke of the given weight, in a
    frame filled blue. *)
Definition outlined (weight : num) : SceneNode :=
  {| id := lit "6:1"; name := lit "6:1"; type := RECTANGLE; visible := true;
     x := 0; y := 0; width := 100; height := 40;
     parent := [ {| anc_type := FRAME;
                    anc_fills := Some (Val [SOLID None None blue]) |};
                 {| anc_type := PAGE; anc_fills := None |} ];
     fills := Some (Val []); strokes := Some [halfRed];
     strokeWeight := Some (Val weight); cornerRadius := Some (Val 0);
     children := None; layoutMode := None;
     paddingTop := None; paddingBottom := None; paddingLeft := None;
     paddingRight := None; itemSpacing := None;
     primaryAxisAlignItems := None; counterAxisAlignItems := None;
     characters := None; textAlignHorizontal := None; fontName := None;
     fontSize := None; segments := [] |}.

(** A frame around the three icons. *)
Definition iconGroup : SceneNode := frame "4:0" icons.


(** A frame that lays its children out in a row, eight pixels apart. *)
Definition row (id' : string) (cs : list SceneNode) : SceneNode :=
  {| id := lit id'; name := lit id'; type := FRAME; visible := true;
     x := 0; y := 0; width := 300; height := 200;
     parent := [ {| anc_type := PAGE; anc_fills := None |} ];
     fills := Some (Val []); strokes := Some [];
     strokeWeight := Some (Val 1); cornerRadius := Some (Val 0);
     children := Some cs; layoutMode := Some HORIZONTAL;
     paddingTop := Some 0; paddingBottom := Some 0; paddingLeft := Some 0;
     paddingRight := Some 0; itemSpacing := Some 8;
     primaryAxisAlignItems := Some PA_MIN; counterAxisAlignItems := Some CA_MIN;
     characters := None; textAlignHorizontal := None; fontName := None;
     fontSize := None; segments := [] |}.

(** A parser that has been through a pass. *)
Definition used : Part000.Parser :=
  {| Part000.imageAssets :=
       [{| asset_name := lit "image-1.png"; asset_data := [137%N; 80%N] |}];
     Part000.imageCounter := 1 |}.

End Sample.

(* ================================================================== *)
(** ** Notions used in the statements *)
(* ================================================================== *)

Local Open Scope float_scope.

(** The accumulation step as the renderers of src/code.ts apply it
    (314-323, 447-449, 517, 546-558): pruning, then deduplication. *)
Definition accumulate (s : str) : str :=
  CodeTs.sanitizeStyles (CodeTs.cleanZeroValueStyles s).

(** What the four replacements of [escapeText] make of one code unit. *)
Definition escapeUnit (c : N) : str :=
  if (c =? AMP)%N then lit "&amp;"
  else if (c =? LT)%N then lit "&lt;"
  else if (c =? GT)%N then lit "&gt;"
  else if (c =? NL)%N then html "<br />"
  else [c].

(** [lastBottomY] after the stacking loop has gone over [children]. *)
Definition bottomAfter {R} (children : list (SceneNode * R)) (lastBottomY : num)
  : num :=
  fold_left (fun _ k => y (fst k) + height (fst k)) children lastBottomY.

(** The children of a node, none when it has no [children]. *)
Definition childrenOf (n : SceneNode) : list SceneNode :=
  orDefault (children n) [].

(** A child with its renderer. *)
Definition pairWith {R} (f : SceneNode -> R) (c : SceneNode) : SceneNode * R :=
  (c, f c).

(** [image-<n>.png] *)
Definition imageName (n : N) : str :=
  lit "image-" ++ decimalDigits n ++ lit ".png".

(** [1, 2, ..., n] *)
Definition upTo (n : N) : list N := map N.of_nat (seq 1 (N.to_nat n)).

(** The assets are named [image-1.png], ..., [image-<k>.png], in this
    order, where [k] is the counter. *)
Definition numbered (this : Part000.Parser) : Prop :=
  map asset_name (Part000.imageAssets this)
  = map imageName (upTo (Part000.imageCounter this)).

(** A method keeps an invariant of the fields. *)
Definition preserves {S A} (I : S -> Prop) (m : Method S A) : Prop :=
  forall this, I this -> I (snd (m this)).

(** A renderer keeps the numbering, whatever it is given. *)
Definition keeps (render : Part000.Renderer) : Prop :=
  forall parentWidth parentBgColor mode,
    preserves numbered (render parentWidth parentBgColor mode).

(** [h] with another exporter and another encoder. *)
Definition withExporter (h : Host)
    (exportAsync' : SceneNode -> ExportSettingsImage -> result bytes)
    (base64Encode' : bytes -> result str) : Host :=
  {| numberToString := numberToString h;
     numberToString16 := numberToString16 h;
     toFixed2 := toFixed2 h;
     encodeURIComponent := encodeURIComponent h;
     inheritedProperty := inheritedProperty h;
     loadFontAsync := loadFontAsync h;
     exportAsync := exportAsync';
     base64Encode := base64Encode' |}.

(** Two results end the same way: both return, or both throw the same
    exception. *)
Definition sameFate {A} (x x' : result A) : Prop :=
  match x, x' with
  | Ok _, Ok _ => True
  | Throw e, Throw e' => e = e'
  | _, _ => False
  end.

(** [items] with the cells [sep] between every two of them, and none
    behind the last. *)
Fixpoint between {A} (sep : list A) (items : list A) : list A :=
  match items with
  | [] => []
  | x :: rest =>
      match rest with
      | [] => [x]
      | _ :: _ => x :: sep ++ between sep rest
      end
  end.

(** The fragments of the children of a row, rendered one after the
    other, each at the width the row gives it. *)
Fixpoint fragmentsA (parentBgColor : RgbColor) (kids : list CodeTs.Kid)
  : result (list str) :=
  match kids with
  | [] => Ok []
  | (child, render) :: rest =>
      (childHtml <- render (Math_round (width child)) parentBgColor ;;
       more <- fragmentsA parentBgColor rest ;;
       Ok (childHtml :: more))%js
  end.

Fixpoint fragmentsD (parentBgColor : RgbColor) (mode : ImageExportMode)
    (kids : list Part000.Kid) : Part000.M (list str) :=
  match kids with
  | [] => ret []
  | (child, render) :: rest =>
      (childHtml <- render (width child) parentBgColor mode ;;
       more <- fragmentsD parentBgColor mode rest ;;
       ret (childHtml :: more))%parser
  end.

(** Another exporter answers for [n] as the exporter of [h] does. *)
Definition sameExport (h : Host)
    (exportAsync' : SceneNode -> ExportSettingsImage -> result bytes)
    (n : SceneNode) : Prop :=
  forall settings, exportAsync' n settings = exportAsync h n settings.

(** Two methods end the same way whatever the fields hold, and return
    values related by [R] when they return. *)
Definition related {S A} (R : A -> A -> Prop) (m m' : Method S A) : Prop :=
  forall this this',
    match fst (m this), fst (m' this') with
    | Ok a, Ok a' => R a a'
    | Throw e, Throw e' => e = e'
    | _, _ => False
    end.

Definition any {A} : A -> A -> Prop := fun _ _ => True.

(** Two renderers of one subtree, for two hosts. *)
Definition alike (render render' : Part000.Renderer) : Prop :=
  forall parentWidth parentBgColor mode,
    related any (render parentWidth parentBgColor mode)
                (render' parentWidth parentBgColor mode).

(** The part of [s] before its first [c], and the part after it (none
    when [c] does not occur). *)
Fixpoint before (c : N) (s : str) : str :=
  match s with
  | [] => []
  | x :: rest => if (x =? c)%N then [] else x :: before c rest
  end.

Fixpoint after (c : N) (s : str) : option str :=
  match s with
  | [] => None
  | x :: rest => if (x =? c)%N then Some rest else after c rest
  end.

(** A declaration [property:value]: its property name, and its value
    field (what stands between the first colon and the second one, if
    any), both trimmed. *)
Definition property (d : str) : str := trim (before COLON d).

Definition valueField (d : str) : option str :=
  option_map (fun rest => trim (before COLON rest)) (after COLON d).

(** The zero lengths of src/code.ts, and of part_000 (no [rem]). *)
Definition zeroLengthsA : list str :=
  [lit "0"; lit "0px"; lit "0pt"; lit "0em"; lit "0rem"; lit "0%"; lit "0vw";
   lit "0vh"].

Definition zeroLengthsD : list str :=
  [lit "0"; lit "0px"; lit "0pt"; lit "0em"; lit "0%"; lit "0vw"; lit "0vh"].

(** src/code.ts prunes a declaration when the first word of its
    property name, up to a dash, is [margin], [padding] or [border] and
    its value field is a zero length. *)
Definition prunedA (d : str) : bool :=
  match valueField d with
  | Some v =>
      inArray (before DASH (property d)) [lit "margin"; lit "padding"; lit "border"]
      && inArray v zeroLengthsA
  | None => false
  end.

(** part_000 prunes a declaration with a value field that is not empty
    when its property name contains [border-radius], or starts with
    [padding], [margin] or [border] and the value field is a zero length. *)
Definition prunedD (d : str) : bool :=
  match valueField d with
  | Some v =>
      truthy v
      && (includes (lit "border-radius") (property d)
          || ((startsWith (lit "padding") (property d)
               || startsWith (lit "margin") (property d)
               || startsWith (lit "border") (property d))
              && inArray v zeroLengthsD))
  | None => false
  end.

(** A declaration of white space only. *)
Definition blank (d : str) : bool := negb (truthy (trim d)).


(** [node] under other ancestors, and with other children. *)
Definition withParent (chain : list Ancestor) (n : SceneNode) : SceneNode :=
  {| id := id n; name := name n; type := type n; visible := visible n;
     x := x n; y := y n; width := width n; height := height n;
     parent := chain;
     fills := fills n; strokes := strokes n; strokeWeight := strokeWeight n;
     cornerRadius := cornerRadius n; children := children n;
     layoutMode := layoutMode n;
     paddingTop := paddingTop n; paddingBottom := paddingBottom n;
     paddingLeft := paddingLeft n; paddingRight := paddingRight n;
     itemSpacing := itemSpacing n;
     primaryAxisAlignItems := primaryAxisAlignItems n;
     counterAxisAlignItems := counterAxisAlignItems n;
     characters := characters n; textAlignHorizontal := textAlignHorizontal n;
     fontName := fontName n; fontSize := fontSize n; segments := segments n |}.

Definition withChildren (cs : list SceneNode) (n : SceneNode) : SceneNode :=
  {| id := id n; name := name n; type := type n; visible := visible n;
     x := x n; y := y n; width := width n; height := height n;
     parent := parent n;
     fills := fills n; strokes := strokes n; strokeWeight := strokeWeight n;
     cornerRadius := cornerRadius n; children := Some cs;
     layoutMode := layoutMode n;
     paddingTop := paddingTop n; paddingBottom := paddingBottom n;
     paddingLeft := paddingLeft n; paddingRight := paddingRight n;
     itemSpacing := itemSpacing n;
     primaryAxisAlignItems := primaryAxisAlignItems n;
     counterAxisAlignItems := counterAxisAlignItems n;
     characters := characters n; textAlignHorizontal := textAlignHorizontal n;
     fontName := fontName n; fontSize := fontSize n; segments := segments n |}.

(** A classifier that may throw says yes. *)
Definition saysYes (r : result bool) : bool :=
  match r with Ok true => true | _ => false end.

(** The image-like nodes a pass in [download] mode asks the exporter
    for, in the order in which it comes to them.  Below [node], given
    its children with what is reached from each: the visible children,
    in the order of the loop that renders them (sorted by [y] when the
    layout mode is [NONE]). *)
Definition reachedBelowK (kids : list (SceneNode * list SceneNode))
    (node : SceneNode) : list SceneNode :=
  let shown := filter (fun k => visible (fst k)) kids in
  flat_map snd
    match layoutMode node with
    | Some NONE => sortByY (fun k => y (fst k)) shown
    | _ => shown
    end.

(** From [node] itself: a visible image-like node of a pixel or more
    each way is exported; a container that is no bullet item is gone
    through; nothing else is. *)
Definition reachedK (kids : list (SceneNode * list SceneNode))
    (node : SceneNode) : list SceneNode :=
  if negb (visible node) then []
  else if Part000.isImageLikeNode node
  then (if (width node <? 1) || (height node <? 1) then [] else [node])%float
  else
    match type node with
    | FRAME | GROUP | COMPONENT | INSTANCE =>
        if saysYes (Part000.isBulletPoint node) then []
        else reachedBelowK kids node
    | _ => []
    end.

Fixpoint reached (node : SceneNode) : list SceneNode :=
  reachedK (overChildren (fun child => (child, reached child)) node) node.

Definition reachedBelow (node : SceneNode) : list SceneNode :=
  reachedBelowK (overChildren (fun child => (child, reached child)) node) node.

(** From a selection: a frame, component or instance selected alone is
    gone through as it is; several nodes are taken sorted by [y]. *)
Definition reachedByParse (nodes : list SceneNode) : list SceneNode :=
  match nodes with
  | [] => []
  | [node] =>
      if existsb (NodeType_eqb (type node)) [FRAME; COMPONENT; INSTANCE]
      then reachedBelow node else reached node
  | _ => flat_map reached (sortByY y nodes)
  end.

(** The bytes of the exports that succeed, of the nodes in [nodes]. *)
Definition exportsOf (h : Host) (nodes : list SceneNode) : list bytes :=
  flat_map
    (fun n =>
       match exportAsync h n {| png_width := Math_round (width n * 2) |} with
       | Ok imageBytes => [imageBytes]
       | Throw _ => []
       end)
    nodes.

(** The assets [image-<first>.png], [image-<first+1>.png], ... holding
    [datas], in this order. *)
Fixpoint assetsFrom (first : N) (datas : list bytes) : list ImageAsset :=
  match datas with
  | [] => []
  | d :: rest =>
      {| asset_name := imageName first; asset_data := d |}
      :: assetsFrom (first + 1) rest
  end.

(** A method appends to the asset list the exports [datas], numbered on
    from the counter, and advances the counter by their number; when it
    throws it has appended the first of them only. *)
Definition logs {A} (datas : list bytes) (m : Part000.M A) : Prop :=
  forall this,
    exists done rest,
      datas = done ++ rest
      /\ Part000.imageAssets (snd (m this))
         = Part000.imageAssets this
           ++ assetsFrom (Part000.imageCounter this + 1) done
      /\ Part000.imageCounter (snd (m this))
         = (Part000.imageCounter this + N.of_nat (List.length done))%N
      /\ (forall a, fst (m this) = Ok a -> rest = []).

(** The visible solid paint the resolver of src/code.ts looks for. *)
Definition visibleSolid (f : Paint) : bool := isSolid f && notHidden f.

(** The colour an ancestor offers as a background in src/code.ts: that
    of its first visible solid fill, when that fill has opacity at least
    0.99. *)
Definition opaqueFill (a : Ancestor) : option RgbColor :=
  match anc_fills a with
  | Some (Val fs) =>
      match find visibleSolid fs with
      | Some (SOLID _ o c) => if (0.99 <=? orDefault o 1)%float then Some c else None
      | _ => None
      end
  | _ => None
  end.

(** An ancestor that is no page and offers no background. *)
Definition passedOver (a : Ancestor) : Prop :=
  anc_type a <> PAGE /\ opaqueFill a = None.

(** Two renderers of src/code.ts give the same result, whatever width
    and background they are given. *)
Definition sameOutput (render render' : CodeTs.Renderer) : Prop :=
  forall parentWidth parentBgColor,
    render parentWidth parentBgColor = render' parentWidth parentBgColor.

(** The nodes [renderNode] may classify when it renders [node]: the
    node, and the nodes below it when it is a container. *)
Definition scope (node : SceneNode) : list SceneNode :=
  node :: (if CodeTs.isContainerType (type node) then findAll node else []).

(** Two lists of confirmed ids say the same of a node. *)
Definition sameAnswer (ids ids' : list str) (n : SceneNode) : Prop :=
  inArray (id n) ids = inArray (id n) ids'.

(** What a computation returned, or [d] when it threw. *)
Definition okOr {A} (d : A) (x : result A) : A :=
  match x with Ok a => a | Throw _ => d end.

(** The assets of [before] are still there in [after], in their places,
    and the counter has gone up by the number of assets added. *)
Definition grownFrom (before after : Part000.Parser) : Prop :=
  exists added,
    Part000.imageAssets after = Part000.imageAssets before ++ added
    /\ Part000.imageCounter after
       = (Part000.imageCounter before + N.of_nat (List.length added))%N.

(** The property names of the declarations of a style string. *)
Definition declaredProperties (styleStr : str) : list str :=
  map (before COLON) (split SEMI styleStr).

(** A style map whose keys are distinct and hold no colon and no
    semicolon, and whose values hold no semicolon. *)
Definition tidy (styleMap : list (str * str)) : Prop :=
  NoDup (map fst styleMap)
  /\ Forall (fun kv => ~ In COLON (fst kv) /\ ~ In SEMI (fst kv)
                       /\ ~ In SEMI (snd kv)) styleMap.

(** [node], shown or hidden. *)
Definition withVisible (shown : bool) (n : SceneNode) : SceneNode :=
  {| id := id n; name := name n; type := type n; visible := shown;
     x := x n; y := y n; width := width n; height := height n;
     parent := parent n;
     fills := fills n; strokes := strokes n; strokeWeight := strokeWeight n;
     cornerRadius := cornerRadius n; children := children n;
     layoutMode := layoutMode n;
     paddingTop := paddingTop n; paddingBottom := paddingBottom n;
     paddingLeft := paddingLeft n; paddingRight := paddingRight n;
     itemSpacing := itemSpacing n;
     primaryAxisAlignItems := primaryAxisAlignItems n;
     counterAxisAlignItems := counterAxisAlignItems n;
     characters := characters n; textAlignHorizontal := textAlignHorizontal n;
     fontName := fontName n; fontSize := fontSize n; segments := segments n |}.

(** An addition to a content block: the markup, its type and its style;
    and the block a sequence of additions makes of a new one. *)
Definition Addition := (str * Part000Old.BlockType * str)%type.

Definition addedTo (this : Part000Old.ContentBlock) (a : Addition)
  : Part000Old.ContentBlock :=
  Part000Old.add (fst (fst a)) (snd (fst a)) (snd a) this.

Definition built (additions : list Addition) : Part000Old.ContentBlock :=
  fold_left addedTo additions Part000Old.newContentBlock.

(** A paint the renderer of [part_000] can read: a gradient has a first
    stop. *)
Definition hasStops (p : Paint) : bool :=
  match p with GRADIENT _ _ [] => false | _ => true end.

Definition soundFills (fs : option (Mixed (list Paint))) : bool :=
  match fs with Some (Val ps) => forallb hasStops ps | _ => true end.

(** A node the renderer of [part_000] can read: the gradients among its
    fills, the fills of its ancestors and the fills of its text segments
    have stops, and a text node has [characters]. *)
Definition soundNode (n : SceneNode) : bool :=
  forallb (fun a => soundFills (anc_fills a)) (parent n)
  && soundFills (fills n)
  && forallb (fun s => forallb hasStops (seg_fills s)) (segments n)
  && match type n, characters n with TEXT, None => false | _, _ => true end.

(** A method that returns, whatever the fields hold. *)
Definition returns {S A} (m : Method S A) : Prop :=
  forall this, exists a this', m this = (Ok a, this').

(** A node and the nodes below it. *)
Definition subtree (node : SceneNode) : list SceneNode := node :: findAll node.
(* ================================================================== *)
(** ** Properties *)
(* ================================================================== *)

(** *** Lists and strings *)

Lemma find_skip {A} (p : A -> bool) (pre : list A) (x : A) (post : list A) :
  Forall (fun a => p a = false) pre -> p x = true ->
  find p (pre ++ x :: post) = Some x.
Proof.
  induction 1 as [|a pre Ha _ IH]; intros Hx; simpl.
  - now rewrite Hx.
  - rewrite Ha. now apply IH.
Qed.

Lemma filter_ext_eq {A} (f g : A -> bool) (l : list A) :
  (forall a, f a = g a) -> filter f l = filter g l.
Proof.
  intros H. induction l as [|a l IH]; cbn [filter]; [|rewrite H, IH]; reflexivity.
Qed.

Lemma Forall_filter {A} (P : A -> Prop) (f : A -> bool) (l : list A) :
  Forall P l -> Forall P (filter f l).
Proof.
  induction 1 as [|a l Ha Hl IH]; cbn [filter]; [constructor|].
  destruct (f a); [constructor|]; assumption.
Qed.

Lemma Forall_insertByY {A} (key : A -> num) (P : A -> Prop) (a : A) (l : list A) :
  P a -> Forall P l -> Forall P (insertByY key a l).
Proof.
  intros Ha Hl. induction Hl as [|b l Hb Hl IH]; cbn [insertByY].
  - now constructor.
  - destruct (PrimFloat.ltb _ _); repeat constructor; assumption.
Qed.

Lemma Forall_sortByY {A} (key : A -> num) (P : A -> Prop) (l : list A) :
  Forall P l -> Forall P (sortByY key l).
Proof.
  induction 1 as [|a l Ha Hl IH]; cbn [sortByY fold_right]; [constructor|].
  now apply Forall_insertByY.
Qed.

Lemma str_eqb_eq (a b : str) : str_eqb a b = true <-> a = b.
Proof.
  revert b. induction a as [|x a IH]; intros [|y b]; cbn [str_eqb];
    try (split; [discriminate | discriminate]); [now split|].
  rewrite andb_true_iff, N.eqb_eq, IH. split.
  - now intros [-> ->].
  - intros H; injection H as -> ->. now split.
Qed.

Lemma inArray_cons (x y : N) (v : str) (units : list str) :
  inArray (x :: v) (map (cons y) units) = (x =? y)%N && inArray v units.
Proof.
  unfold inArray. induction units as [|u units IH]; cbn [map existsb].
  - now rewrite andb_false_r.
  - rewrite IH.
    change (str_eqb (x :: v) (y :: u)) with ((x =? y)%N && str_eqb v u).
    now destruct (x =? y)%N.
Qed.

Lemma split_unfold (c : N) (s : str) :
  split c s
  = before c s :: match after c s with Some rest => split c rest | None => [] end.
Proof.
  unfold split. induction s as [|x s IH]; [reflexivity|].
  cbn [split_aux before after].
  destruct (split_aux c s) as [hd tl] eqn:Haux.
  destruct (x =? c)%N.
  - now rewrite Haux.
  - now injection IH as -> ->.
Qed.

Lemma before_absent (c : N) (s : str) :
  ~ In c s -> before c s = s /\ after c s = None.
Proof.
  induction s as [|x s IH]; intros Hs; [now split|].
  cbn [before after]. destruct (N.eqb_spec x c) as [->|Hx].
  - exfalso. apply Hs. now left.
  - destruct IH as [-> ->]; [|now split]. intros H. apply Hs. now right.
Qed.

Lemma before_app (c : N) (a rest : str) :
  ~ In c a -> before c (a ++ c :: rest) = a /\ after c (a ++ c :: rest) = Some rest.
Proof.
  induction a as [|x a IH]; intros Ha; cbn [app before after].
  - now rewrite N.eqb_refl.
  - destruct (N.eqb_spec x c) as [->|Hx].
    + exfalso. apply Ha. now left.
    + destruct IH as [-> ->]; [|now split]. intros H. apply Ha. now right.
Qed.

Lemma before_has_no (c : N) (s : str) : ~ In c (before c s).
Proof.
  induction s as [|x s IH]; [intros []|].
  cbn [before]. destruct (N.eqb_spec x c) as [->|Hx]; [intros []|].
  intros [H|H]; [now apply Hx | now apply IH].
Qed.

(** Splitting what was joined gives the pieces back, when there is a
    piece and no piece holds the separator. *)
Lemma split_join (c : N) (ds : list str) :
  ds <> [] -> Forall (fun d => ~ In c d) ds -> split c (join [c] ds) = ds.
Proof.
  intros Hne Hds. induction Hds as [|d ds Hd Hds IH]; [contradiction|].
  cbn [join]. destruct ds as [|d' ds].
  - rewrite split_unfold. now destruct (before_absent c d Hd) as [-> ->].
  - cbn [app]. rewrite split_unfold.
    destruct (before_app c d (join [c] (d' :: ds)) Hd) as [-> ->].
    f_equal. apply IH. discriminate.
Qed.

(** *** Methods *)

Lemma preserves_ret {S A} (I : S -> Prop) (a : A) : preserves I (ret a).
Proof. intros this H; exact H. Qed.

Lemma preserves_lift {S A} (I : S -> Prop) (x : result A) : preserves I (lift x).
Proof. intros this H; exact H. Qed.

Lemma preserves_bind {S A B} (I : S -> Prop) (m : Method S A)
    (f : A -> Method S B) :
  preserves I m -> (forall a, preserves I (f a)) -> preserves I (bind m f).
Proof.
  intros Hm Hf this H. unfold bind.
  specialize (Hm this H). destruct (m this) as [[a|e] this']; cbn [snd] in *.
  - now apply Hf.
  - exact Hm.
Qed.

(** Binding pointwise equal methods to pointwise equal continuations. *)
Lemma bind_cong {S A B} (m m' : Method S A) (f f' : A -> Method S B) :
  (forall this, m this = m' this) ->
  (forall a this, f a this = f' a this) ->
  forall this, bind m f this = bind m' f' this.
Proof.
  intros Hm Hf this. unfold bind. rewrite Hm.
  destruct (m' this) as [[a|e] this']; [apply Hf | reflexivity].
Qed.

(** The nodes below a node are its children and the nodes below them. *)
Lemma findAll_eq (node : SceneNode) :
  findAll node = flat_map (fun child => child :: findAll child) (childrenOf node).
Proof. destruct node as [? ? ? ? ? ? ? ? ? ? ? ? ? [cs|]]; reflexivity. Qed.

Lemma subtree_of_child (node c : SceneNode) :
  In c (childrenOf node) -> incl (subtree c) (findAll node).
Proof.
  intros Hc n Hn. rewrite findAll_eq. apply in_flat_map. now exists c.
Qed.

(** Goes through the binds and the branches of a method. *)
Ltac preserve :=
  repeat first
    [ apply preserves_ret
    | apply preserves_lift
    | assumption
    | match goal with H : forall _, _ |- _ => simple apply H end
    | apply preserves_bind; [|intros ?]
    | match goal with
      | |- preserves _ (if ?c then _ else _) => destruct c
      | |- preserves _ (match ?x with _ => _ end) => destruct x
      end ].

Lemma related_ret {S A} (R : A -> A -> Prop) (a a' : A) :
  R a a' -> related (S := S) R (ret a) (ret a').
Proof. intros H this this'. exact H. Qed.

Lemma related_lift {S A} (x : result A) : related (S := S) eq (lift x) (lift x).
Proof. intros this this'. cbn. now destruct x. Qed.

Lemma related_bind {S A B} (R : A -> A -> Prop) (Q : B -> B -> Prop)
    (m m' : Method S A) (f f' : A -> Method S B) :
  related R m m' -> (forall a a', R a a' -> related Q (f a) (f' a')) ->
  related Q (bind m f) (bind m' f').
Proof.
  intros Hm Hf this this'. unfold bind. specialize (Hm this this').
  destruct (m this) as [[a|e] t], (m' this') as [[a'|e'] t']; cbn [fst] in *;
    try contradiction.
  - exact (Hf a a' Hm t t').
  - exact Hm.
Qed.

Lemma related_any {S A} (R : A -> A -> Prop) (m m' : Method S A) :
  related R m m' -> related any m m'.
Proof.
  intros H this this'. specialize (H this this').
  destruct (fst (m this)), (fst (m' this')); try exact H. exact I.
Qed.

(** *** The design tree *)

(** A property of all nodes follows from its step from the children of a
    node to the node. *)
Lemma SceneNode_children_ind (P : SceneNode -> Prop) :
  (forall n, Forall P (childrenOf n) -> P n) -> forall n, P n.
Proof.
  intros step. fix IH 1. intros n. apply step.
  destruct n as [? ? ? ? ? ? ? ? ? ? ? ? ? cs ? ? ? ? ? ? ? ? ? ? ? ? ?].
  unfold childrenOf; cbn [children orDefault].
  destruct cs as [cs|]; [|constructor].
  induction cs as [|c cs IHcs]; constructor; [apply IH | exact IHcs].
Qed.

Lemma CodeTs_renderNode_eq (h : Host) (ids : list str) (node : SceneNode) :
  CodeTs.renderNode h ids node
  = CodeTs.renderNodeK h ids (CodeTs.kidsOf h ids node) node.
Proof. destruct node; reflexivity. Qed.

Lemma Part000_renderNode_eq (h : Host) (node : SceneNode) :
  Part000.renderNode h node
  = Part000.renderNodeK h (Part000.kidsOf h node) node.
Proof. destruct node; reflexivity. Qed.

Lemma Part000_kidsOf_eq (h : Host) (n : SceneNode) :
  Part000.kidsOf h n = map (pairWith (Part000.renderNode h)) (childrenOf n).
Proof.
  unfold Part000.kidsOf, overChildren, childrenOf.
  now destruct (children n).
Qed.

Lemma filter_pairWith {R} (f : SceneNode -> R) (p : SceneNode -> bool)
    (cs : list SceneNode) :
  filter (fun k => p (fst k)) (map (pairWith f) cs)
  = map (pairWith f) (filter p cs).
Proof.
  induction cs as [|c cs IH]; [reflexivity|]. cbn [map filter pairWith fst].
  destruct (p c); cbn [map]; now rewrite IH.
Qed.

Lemma insertByY_pairWith {R} (f : SceneNode -> R) (key : SceneNode -> num)
    (c : SceneNode) (cs : list SceneNode) :
  insertByY (fun k => key (fst k)) (pairWith f c) (map (pairWith f) cs)
  = map (pairWith f) (insertByY key c cs).
Proof.
  induction cs as [|c' cs IH]; [reflexivity|].
  cbn [map insertByY pairWith fst].
  destruct (PrimFloat.ltb _ _); cbn [map]; [|reflexivity].
  f_equal. exact IH.
Qed.

Lemma sortByY_pairWith {R} (f : SceneNode -> R) (key : SceneNode -> num)
    (cs : list SceneNode) :
  sortByY (fun k => key (fst k)) (map (pairWith f) cs)
  = map (pairWith f) (sortByY key cs).
Proof.
  unfold sortByY.
  induction cs as [|c cs IH]; [reflexivity|].
  cbn [map fold_right]. rewrite IH. apply insertByY_pairWith.
Qed.

(** *** The Color Resolver *)

Lemma RgbColor_eta (c : RgbColor) : {| r := r c; g := g c; b := b c |} = c.
Proof. now destruct c. Qed.

(** C1, as amended: red at opacity 0.5 over blue resolves to the RGB
    (0.5, 0, 0.5), and its hex string is #800080, because
    [Math.round(127.5)] is 128; both revisions agree. *)
Theorem blend_half_red_over_blue (h : Host) :
  CodeTs.getEffectiveBackgroundColorForFills h [Sample.halfRed] Sample.blue
  = {| hex := Some (lit "#800080"); rgb := {| r := 0.5; g := 0; b := 0.5 |} |}
  /\ Part000.getEffectiveBackgroundColorForFills h [Sample.halfRed] Sample.blue
     = Ok {| hex := Some (lit "#800080"); rgb := {| r := 0.5; g := 0; b := 0.5 |} |}.
Proof. split; vm_compute; reflexivity. Qed.

(** C1, as the spec states it, fails: the hex string is not #7f007f. *)
Lemma blend_half_red_over_blue_is_not_7f007f :
  hex (CodeTs.getEffectiveBackgroundColorForFills Sample.host [Sample.halfRed]
         Sample.blue) <> Some (lit "#7f007f")
  /\ rbind (Part000.getEffectiveBackgroundColorForFills Sample.host
              [Sample.halfRed] Sample.blue) (fun e => Ok (hex e))
     <> Ok (Some (lit "#7f007f")).
Proof. split; vm_compute; discriminate. Qed.

(** The rounding of one channel: 0.5 scales to 127.5, which
    [Math.round] takes to 128, printed [80]. *)
Lemma toHex_half (h : Host) :
  (0.5 * 255 = 127.5) /\ Math_round 127.5 = 128 /\ toHex h 0.5 = lit "80".
Proof. repeat split; vm_compute; reflexivity. Qed.

(** C2: a solid fill that is the first visible one and has opacity at
    least 0.99 resolves to its own colour, whatever the background. *)
Theorem opaque_fill_keeps_its_color (h : Host) (hidden : list Paint)
    (visible : option bool) (opacity : option num) (color : RgbColor)
    (others : list Paint) (parentBgColor : RgbColor) :
  Forall (fun f => notHidden f = false) hidden ->
  visible <> Some false ->
  (0.99 <=? orDefault opacity 1) = true ->
  let fills := hidden ++ SOLID visible opacity color :: others in
  CodeTs.getEffectiveBackgroundColorForFills h fills parentBgColor
  = {| hex := Some (figmaColorToHex h color); rgb := color |}
  /\ Part000.getEffectiveBackgroundColorForFills h fills parentBgColor
     = Ok {| hex := Some (figmaColorToHex h color); rgb := color |}.
Proof.
  intros Hhidden Hvis Hop fills.
  assert (Hnh : notHidden (SOLID visible opacity color) = true).
  { unfold notHidden; simpl. destruct visible as [[|]|]; congruence. }
  split.
  - unfold CodeTs.getEffectiveBackgroundColorForFills, fills.
    rewrite (find_skip _ hidden (SOLID visible opacity color) others).
    + rewrite Hop, RgbColor_eta. reflexivity.
    + eapply Forall_impl; [|exact Hhidden]. intros f Hf; cbv beta.
      rewrite Hf. apply andb_false_r.
    + simpl. exact Hnh.
  - unfold Part000.getEffectiveBackgroundColorForFills, fills.
    rewrite (find_skip _ hidden (SOLID visible opacity color) others Hhidden Hnh).
    now rewrite Hop.
Qed.

Lemma opaque_fill_keeps_its_color_witness :
  CodeTs.getEffectiveBackgroundColorForFills Sample.host
    ([SOLID (Some false) None Sample.blue]
     ++ SOLID None (Some 0.995) Sample.red :: [Sample.halfRed]) Sample.blue
  = {| hex := Some (figmaColorToHex Sample.host Sample.red); rgb := Sample.red |}
  /\ Part000.getEffectiveBackgroundColorForFills Sample.host
       ([SOLID (Some false) None Sample.blue]
        ++ SOLID None (Some 0.995) Sample.red :: [Sample.halfRed]) Sample.blue
     = Ok {| hex := Some (figmaColorToHex Sample.host Sample.red);
             rgb := Sample.red |}.
Proof.
  apply (opaque_fill_keeps_its_color Sample.host
           [SOLID (Some false) None Sample.blue] None (Some 0.995) Sample.red
           [Sample.halfRed] Sample.blue).
  - repeat constructor.
  - discriminate.
  - reflexivity.
Defined.

(** *** The Style Accumulator *)

(** C3 fails on the code.  A declaration whose property name is blank
    passes the emptiness test of [sanitizeStyles] (the key is tested
    before it is trimmed, the value after), comes out with an empty
    name, and is dropped by a second pass.  And the style of a text
    segment whose font family is padded with spaces, which
    [styleObjectToInlineCss] has already put through the step, is
    changed when the step is applied to it again: a font name is trimmed
    before its quotes are removed. *)
Theorem accumulate_is_not_idempotent :
  (accumulate (lit " :x") = lit ":x"
   /\ accumulate (accumulate (lit " :x")) = [])
  /\ (CodeTs.styleObjectToInlineCss Sample.host (Sample.segment " Inter " "Hi") white
      = accumulate
          (lit "color: #0000ff;font-family: ' Inter ', sans-serif;font-size: 16px")
      /\ accumulate
           (lit "color: #0000ff;font-family: ' Inter ', sans-serif;font-size: 16px")
         = lit "color:#0000ff;font-family: Inter , sans-serif;font-size:16px"
      /\ accumulate
           (accumulate
              (lit "color: #0000ff;font-family: ' Inter ', sans-serif;font-size: 16px"))
         = lit "color:#0000ff;font-family:Inter, sans-serif;font-size:16px").
Proof.
  split; [split | split; [|split]]; vm_compute; reflexivity.
Qed.

(** On the declarations the renderers build, a second pass changes
    nothing. *)
Lemma accumulate_twice_on_a_cell_style :
  let s := lit "background-color:#ff0000;height:40px;;font-size:1px;;line-height:1px;;border: 0px solid #000000;;padding:0" in
  accumulate s
  = lit "background-color:#ff0000;height:40px;font-size:1px;line-height:1px;border:0px solid #000000"
  /\ accumulate (accumulate s) = accumulate s.
Proof. split; vm_compute; reflexivity. Qed.

(** The regular expressions accept the listed strings and no other. *)
Lemma isZeroLength_list (v : str) : CodeTs.isZeroLength v = inArray v zeroLengthsA.
Proof.
  destruct v as [|x v]; [reflexivity|].
  change zeroLengthsA
    with (map (cons 48%N)
            [ []; lit "px"; lit "pt"; lit "em"; lit "rem"; lit "%"; lit "vw";
              lit "vh" ]).
  now rewrite inArray_cons.
Qed.

Lemma isZero_list (v : str) : Part000.isZero v = inArray v zeroLengthsD.
Proof.
  destruct v as [|x v]; [reflexivity|].
  change zeroLengthsD
    with (map (cons 48%N)
            [ []; lit "px"; lit "pt"; lit "em"; lit "%"; lit "vw"; lit "vh" ]).
  now rewrite inArray_cons.
Qed.

(** The first word of a property name holds no dash, so the entry
    [border-radius] of the list in src/code.ts never matches. *)
Lemma first_word_is_not_border_radius (key : str) :
  str_eqb (before DASH key) (lit "border-radius") = false.
Proof.
  apply not_true_is_false. intros H. apply str_eqb_eq in H.
  apply (before_has_no DASH key). rewrite H. vm_compute. tauto.
Qed.

Lemma CodeTs_keepRule_spec (d : str) :
  CodeTs.keepRule d = negb (blank d) && negb (prunedA d).
Proof.
  unfold CodeTs.keepRule, blank, prunedA, valueField, property.
  destruct (truthy (trim d)); [cbn [negb andb] | reflexivity].
  rewrite split_unfold. destruct (after COLON d) as [rest|]; [|reflexivity].
  rewrite (split_unfold COLON rest). cbn [option_map].
  rewrite (split_unfold DASH (trim (before COLON d))). cbn [hd].
  rewrite isZeroLength_list.
  unfold inArray at 1 3. cbn [existsb].
  rewrite first_word_is_not_border_radius, !orb_false_r.
  now destruct (_ && _).
Qed.

Lemma Part000_keepRule_spec (d : str) :
  Part000.keepRule d = negb (blank d) && negb (prunedD d).
Proof.
  unfold Part000.keepRule, blank, prunedD, valueField, property.
  destruct (truthy (trim d)); [cbn [negb andb] | reflexivity].
  rewrite split_unfold. destruct (after COLON d) as [rest|]; [|reflexivity].
  rewrite (split_unfold COLON rest). cbn [option_map map].
  rewrite isZero_list.
  destruct (truthy (trim (before COLON rest))); [cbn [negb andb] | reflexivity].
  now destruct (_ || _).
Qed.

(** C4, as amended: over the declarations of a style string, pruning
    keeps, in order and unchanged, the declarations that are neither
    blank nor pruned.  What is pruned is decided on the value field of
    the declaration, the text between its first colon and its second one
    (or its end), trimmed, and not on all that follows the first colon:
    src/code.ts prunes by [prunedA] (first word of the property name
    [margin], [padding] or [border], value field a zero length) and
    part_000 by [prunedD] (property name starting with one of the three
    and value field a zero length, or property name containing
    [border-radius] and value field not empty). *)
Theorem pruning_keeps_the_other_declarations (ds : list str) :
  Forall (fun d => ~ In SEMI d) ds ->
  CodeTs.cleanZeroValueStyles (join (lit ";") ds)
  = join (lit ";") (filter (fun d => negb (blank d) && negb (prunedA d)) ds)
  /\ Part000.cleanZeroValueStyles (join (lit ";") ds)
     = join (lit ";") (filter (fun d => negb (blank d) && negb (prunedD d)) ds).
Proof.
  intros Hds.
  assert (Hsplit : ds <> [] -> split SEMI (join (lit ";") ds) = ds)
    by (intros Hne; now apply (split_join SEMI)).
  unfold CodeTs.cleanZeroValueStyles, Part000.cleanZeroValueStyles.
  rewrite <- (filter_ext_eq _ _ ds CodeTs_keepRule_spec).
  rewrite <- (filter_ext_eq _ _ ds Part000_keepRule_spec).
  destruct ds as [|d ds]; [split; reflexivity|].
  rewrite Hsplit by discriminate.
  destruct (truthy (join (lit ";") (d :: ds))) eqn:Hjoin;
    [split; reflexivity|].
  assert (d = [] /\ ds = []) as [-> ->].
  { cbn [join] in Hjoin. destruct ds; [now destruct d | now destruct d]. }
  split; reflexivity.
Qed.

Lemma pruning_keeps_the_other_declarations_witness :
  CodeTs.cleanZeroValueStyles
    (join (lit ";") [lit "padding-left:0px"; lit "border-radius:5px"; lit "color:red"])
  = join (lit ";")
      (filter (fun d => negb (blank d) && negb (prunedA d))
         [lit "padding-left:0px"; lit "border-radius:5px"; lit "color:red"])
  /\ Part000.cleanZeroValueStyles
       (join (lit ";") [lit "padding-left:0px"; lit "border-radius:5px"; lit "color:red"])
     = join (lit ";")
         (filter (fun d => negb (blank d) && negb (prunedD d))
            [lit "padding-left:0px"; lit "border-radius:5px"; lit "color:red"]).
Proof.
  apply (pruning_keeps_the_other_declarations
           [lit "padding-left:0px"; lit "border-radius:5px"; lit "color:red"]).
  repeat constructor; vm_compute; intuition discriminate.
Defined.

(** The examples of the spec hold in both revisions. *)
Lemma pruning_examples :
  CodeTs.cleanZeroValueStyles (lit "padding-left:0px;color:red") = lit "color:red"
  /\ CodeTs.cleanZeroValueStyles (lit "border:0") = []
  /\ Part000.cleanZeroValueStyles (lit "padding-left:0px;color:red") = lit "color:red"
  /\ Part000.cleanZeroValueStyles (lit "border:0") = [].
Proof. repeat split; vm_compute; reflexivity. Qed.

(** In src/code.ts a declaration whose value field is no zero length is
    never pruned; in part_000 the same holds for a declaration whose
    property name does not contain [border-radius]. *)
Lemma non_zero_values_are_kept (d : str) :
  ((forall v, valueField d = Some v -> inArray v zeroLengthsA = false) ->
   prunedA d = false)
  /\ ((forall v, valueField d = Some v -> inArray v zeroLengthsD = false) ->
      includes (lit "border-radius") (property d) = false ->
      prunedD d = false).
Proof.
  split.
  - intros H. unfold prunedA. destruct (valueField d) as [v|]; [|reflexivity].
    rewrite (H v eq_refl). apply andb_false_r.
  - intros H Hradius. unfold prunedD.
    destruct (valueField d) as [v|]; [|reflexivity].
    rewrite (H v eq_refl), Hradius, andb_false_r. apply andb_false_r.
Qed.

(** Only the value field is read: a declaration with a second colon is
    pruned on what stands before it, in both revisions, while the
    deduplication step keeps what follows the first colon whole. *)
Lemma value_is_read_up_to_the_second_colon :
  valueField (lit "margin:0:5px") = Some (lit "0")
  /\ CodeTs.cleanZeroValueStyles (lit "margin:0:5px;color:red") = lit "color:red"
  /\ Part000.cleanZeroValueStyles (lit "margin:0:5px;color:red") = lit "color:red"
  /\ CodeTs.cleanZeroValueStyles (lit "margin:5px:0;color:red")
     = lit "margin:5px:0;color:red"
  /\ Part000.cleanZeroValueStyles (lit "margin:5px:0;color:red")
     = lit "margin:5px:0;color:red"
  /\ CodeTs.sanitizeStyles (lit "margin:0:5px") = lit "margin:0:5px".
Proof. repeat split; vm_compute; reflexivity. Qed.

(** C4, as the spec states it, fails on part_000: a [border-radius]
    declaration with a value that is not zero is dropped. *)
Lemma border_radius_is_always_pruned :
  Part000.cleanZeroValueStyles (lit "border-radius:5px") = []
  /\ Part000.cleanZeroValueStyles (lit "color:red;border-radius:5px") = lit "color:red"
  /\ CodeTs.cleanZeroValueStyles (lit "border-radius:5px") = lit "border-radius:5px".
Proof. repeat split; vm_compute; reflexivity. Qed.

(** *** Vertical stacking *)

Lemma bottomAfter_last {R} (pre : list (SceneNode * R)) (k : SceneNode * R)
    (lastBottomY : num) :
  bottomAfter (pre ++ [k]) lastBottomY = y (fst k) + height (fst k).
Proof. unfold bottomAfter. now rewrite fold_left_app. Qed.

Section StackedRows.
Variable h : Host.
Variables (availableWidth : num) (parentBgColor : RgbColor).
Variables (paddingLeft paddingRight : num).
Variable mode : ImageExportMode.

(** The rows of a list of children are the rows of its first part
    followed by the rows of the rest, started at the bottom of the first
    part. *)
Lemma CodeTs_stackedRows_app (l1 l2 : list (SceneNode * CodeTs.Renderer))
    (lastBottomY : num) :
  CodeTs.stackedRows h availableWidth parentBgColor paddingLeft paddingRight
    (l1 ++ l2) lastBottomY
  = (r1 <- CodeTs.stackedRows h availableWidth parentBgColor paddingLeft
             paddingRight l1 lastBottomY ;;
     r2 <- CodeTs.stackedRows h availableWidth parentBgColor paddingLeft
             paddingRight l2 (bottomAfter l1 lastBottomY) ;;
     Ok (r1 ++ r2))%js.
Proof.
  revert lastBottomY.
  induction l1 as [|[child render] l1 IH]; intros lastBottomY.
  - cbn [app CodeTs.stackedRows rbind bottomAfter fold_left].
    now destruct (CodeTs.stackedRows _ _ _ _ _ l2 lastBottomY).
  - cbn [app CodeTs.stackedRows].
    destruct (render availableWidth parentBgColor) as [childHtml|e];
      [cbn [rbind] | reflexivity].
    rewrite IH.
    change (bottomAfter ((child, render) :: l1) lastBottomY)
      with (bottomAfter l1 (y child + height child)).
    destruct (CodeTs.stackedRows _ _ _ _ _ l1 _) as [r1|e];
      [cbn [rbind] | reflexivity].
    destruct (CodeTs.stackedRows _ _ _ _ _ l2 _) as [r2|e];
      [cbn [rbind] | reflexivity].
    now rewrite <- !app_assoc.
Qed.

Lemma Part000_stackedRows_app (l1 l2 : list (SceneNode * Part000.Renderer))
    (lastBottomY : num) (this : Part000.Parser) :
  Part000.stackedRows h availableWidth parentBgColor mode paddingLeft
    paddingRight (l1 ++ l2) lastBottomY this
  = (r1 <- Part000.stackedRows h availableWidth parentBgColor mode paddingLeft
             paddingRight l1 lastBottomY ;;
     r2 <- Part000.stackedRows h availableWidth parentBgColor mode paddingLeft
             paddingRight l2 (bottomAfter l1 lastBottomY) ;;
     ret (r1 ++ r2))%parser this.
Proof.
  revert lastBottomY this.
  induction l1 as [|[child render] l1 IH]; intros lastBottomY this.
  - cbn [app Part000.stackedRows bottomAfter fold_left].
    unfold bind, ret.
    now destruct (Part000.stackedRows _ _ _ _ _ _ l2 lastBottomY this) as [[r|e] t].
  - cbn [app Part000.stackedRows]. unfold bind, ret.
    destruct (render availableWidth parentBgColor mode this) as [[childHtml|e] t];
      [|reflexivity].
    rewrite IH.
    change (bottomAfter ((child, render) :: l1) lastBottomY)
      with (bottomAfter l1 (y child + height child)).
    unfold bind, ret.
    destruct (Part000.stackedRows _ _ _ _ _ _ l1 _ t) as [[r1|e] t1];
      [|reflexivity].
    destruct (Part000.stackedRows _ _ _ _ _ _ l2 _ t1) as [[r2|e] t2];
      [|reflexivity].
    now rewrite <- !app_assoc.
Qed.

(** C5, as amended: between the rows of two consecutive children the
    loop pushes a filler row exactly when the gap between them, rounded
    to the nearest integer, is greater than 2, and the row is the cell
    written out below, with the rounded gap as its height, font size and
    line height (in part_000 also as the [height] of its style); nothing
    else stands between the rows up to the previous child and the row of
    the current one. *)
Theorem filler_row_between_stacked_children
    (preA : list (SceneNode * CodeTs.Renderer))
    (prevA curA : SceneNode * CodeTs.Renderer)
    (postA : list (SceneNode * CodeTs.Renderer))
    (preD : list (SceneNode * Part000.Renderer))
    (prevD curD : SceneNode * Part000.Renderer)
    (postD : list (SceneNode * Part000.Renderer))
    (lastBottomY : num) (this : Part000.Parser) :
  let gapOf (prev cur : SceneNode) :=
    Math_round (y cur - (y prev + height prev)) in
  let fillerA (gap : num) :=
    html "<tr><td height=`" ++ show h gap ++ html "` style=`font-size:"
    ++ show h gap ++ lit "px; line-height:" ++ show h gap
    ++ html "px;` colspan=`3`>&nbsp;</td></tr>" in
  let fillerD (gap : num) :=
    html "<tr><td height=`" ++ show h gap ++ html "` style=`height:"
    ++ show h gap ++ lit "px; font-size:" ++ show h gap
    ++ lit "px; line-height:" ++ show h gap
    ++ html "px;` colspan=`3`>&nbsp;</td></tr>" in
  CodeTs.stackedRows h availableWidth parentBgColor paddingLeft paddingRight
    (preA ++ prevA :: curA :: postA) lastBottomY
  = (before <- CodeTs.stackedRows h availableWidth parentBgColor paddingLeft
                 paddingRight (preA ++ [prevA]) lastBottomY ;;
     curHtml <- snd curA availableWidth parentBgColor ;;
     after <- CodeTs.stackedRows h availableWidth parentBgColor paddingLeft
                paddingRight postA (y (fst curA) + height (fst curA)) ;;
     Ok (before
         ++ (if (2 <? gapOf (fst prevA) (fst curA))
             then [fillerA (gapOf (fst prevA) (fst curA))] else [])
         ++ CodeTs.contentRow h paddingLeft paddingRight curHtml
         ++ after))%js
  /\ Part000.stackedRows h availableWidth parentBgColor mode paddingLeft
       paddingRight (preD ++ prevD :: curD :: postD) lastBottomY this
     = (before <- Part000.stackedRows h availableWidth parentBgColor mode
                    paddingLeft paddingRight (preD ++ [prevD]) lastBottomY ;;
        curHtml <- snd curD availableWidth parentBgColor mode ;;
        after <- Part000.stackedRows h availableWidth parentBgColor mode
                   paddingLeft paddingRight postD
                   (y (fst curD) + height (fst curD)) ;;
        ret
          (before
           ++ (if (2 <? gapOf (fst prevD) (fst curD))
               then [fillerD (gapOf (fst prevD) (fst curD))] else [])
           ++ Part000.contentRow h paddingLeft paddingRight curHtml
           ++ after))%parser this.
Proof.
  intros gapOf fillerA fillerD. split.
  - replace (preA ++ prevA :: curA :: postA)
      with ((preA ++ [prevA]) ++ curA :: postA) by now rewrite <- app_assoc.
    rewrite (CodeTs_stackedRows_app (preA ++ [prevA]) (curA :: postA)),
      bottomAfter_last.
    destruct (CodeTs.stackedRows _ _ _ _ _ (preA ++ [prevA]) _) as [before|e];
      [cbn [rbind] | reflexivity].
    destruct curA as [cur render]. cbn [CodeTs.stackedRows fst snd].
    destruct (render availableWidth parentBgColor) as [curHtml|e];
      [cbn [rbind] | reflexivity].
    destruct (CodeTs.stackedRows _ _ _ _ _ postA _) as [after|e];
      [cbn [rbind] | reflexivity].
    reflexivity.
  - replace (preD ++ prevD :: curD :: postD)
      with ((preD ++ [prevD]) ++ curD :: postD) by now rewrite <- app_assoc.
    rewrite (Part000_stackedRows_app (preD ++ [prevD]) (curD :: postD)),
      bottomAfter_last.
    unfold bind, ret.
    destruct (Part000.stackedRows _ _ _ _ _ _ (preD ++ [prevD]) _ this)
      as [[before|e] t]; [|reflexivity].
    destruct curD as [cur render]. cbn [Part000.stackedRows fst snd].
    unfold bind, ret.
    destruct (render availableWidth parentBgColor mode t) as [[curHtml|e] t1];
      [|reflexivity].
    destruct (Part000.stackedRows _ _ _ _ _ _ postD _ t1) as [[after|e] t2];
      [|reflexivity].
    reflexivity.
Qed.

End StackedRows.

(** The examples of the spec: a gap of exactly 2 gives no filler row, a
    gap of 3 a filler row of height 3. *)
Lemma stacked_gap_two_and_three :
  CodeTs.renderStackedChildren Sample.host [] (Sample.stacked 2) 300 white
  = Sample.stackedA 2 []
  /\ CodeTs.renderStackedChildren Sample.host [] (Sample.stacked 3) 300 white
     = Sample.stackedA 3
         [html "<tr><td height=`3` style=`font-size:3px; line-height:3px;` colspan=`3`>&nbsp;</td></tr>"]
  /\ Part000.renderStackedChildren Sample.host (Sample.stacked 2) 300 white
       placeholder Part000.newParser
     = (Sample.stackedD 2 [], Part000.newParser)
  /\ Part000.renderStackedChildren Sample.host (Sample.stacked 3) 300 white
       placeholder Part000.newParser
     = (Sample.stackedD 3
          [html "<tr><td height=`3` style=`height:3px; font-size:3px; line-height:3px;` colspan=`3`>&nbsp;</td></tr>"],
        Part000.newParser).
Proof. repeat split; vm_compute; reflexivity. Qed.

(** C5, as the spec states it, fails: a gap of 2.25 pixels exceeds 2
    and gets no filler row, and a gap of 2.5 pixels gets a filler row of
    height 3, not 2.5. *)
Lemma stacked_gap_is_rounded_first :
  (2 <? y (Sample.lower 2.25) - (y Sample.upper + height Sample.upper)) = true
  /\ CodeTs.renderStackedChildren Sample.host [] (Sample.stacked 2.25) 300 white
     = Sample.stackedA 2.25 []
  /\ Part000.renderStackedChildren Sample.host (Sample.stacked 2.25) 300 white
       placeholder Part000.newParser
     = (Sample.stackedD 2.25 [], Part000.newParser)
  /\ y (Sample.lower 2.5) - (y Sample.upper + height Sample.upper) = 2.5
  /\ CodeTs.renderStackedChildren Sample.host [] (Sample.stacked 2.5) 300 white
     = Sample.stackedA 2.5
         [html "<tr><td height=`3` style=`font-size:3px; line-height:3px;` colspan=`3`>&nbsp;</td></tr>"]
  /\ Part000.renderStackedChildren Sample.host (Sample.stacked 2.5) 300 white
       placeholder Part000.newParser
     = (Sample.stackedD 2.5
          [html "<tr><td height=`3` style=`height:3px; font-size:3px; line-height:3px;` colspan=`3`>&nbsp;</td></tr>"],
        Part000.newParser).
Proof. repeat split; vm_compute; reflexivity. Qed.

(** *** The Node Classifier *)

Lemma isVectorial_eq (n : SceneNode) :
  CodeTs.isVectorial n
  = match children n with
    | Some ((_ :: _) as cs) =>
        forallb (fun child => negb (NodeType_eqb (type child) TEXT)
                              && CodeTs.isVectorial child) cs
    | _ => existsb (NodeType_eqb (type n)) [VECTOR; ELLIPSE; LINE; RECTANGLE]
    end.
Proof. destruct n; reflexivity. Qed.

(** A container with a text child is no icon group. *)
Lemma isIconGroup_text_child (node : SceneNode) (cs : list SceneNode) :
  children node = Some cs ->
  existsb (fun c => NodeType_eqb (type c) TEXT) cs = true ->
  CodeTs.isIconGroup node = false.
Proof.
  intros Hcs Htext. unfold CodeTs.isIconGroup. rewrite Hcs.
  destruct cs as [|c cs']; [reflexivity|].
  rewrite isVectorial_eq, Hcs.
  apply not_true_is_false. intros Hall.
  rewrite forallb_forall in Hall.
  apply existsb_exists in Htext. destruct Htext as [t [Hin Ht]].
  specialize (Hall t Hin). rewrite Ht in Hall. discriminate.
Qed.

(** A frame with a child that is no text node is no bullet item. *)
Lemma isBulletPoint_shape_child (node c1 c2 : SceneNode) :
  children node = Some [c1; c2] ->
  NodeType_eqb (type c1) TEXT = false \/ NodeType_eqb (type c2) TEXT = false ->
  CodeTs.isBulletPoint node = Ok false.
Proof.
  intros Hcs Hshape. unfold CodeTs.isBulletPoint. rewrite Hcs.
  destruct (negb (NodeType_eqb (type node) FRAME) || negb (visible node));
    [reflexivity|].
  destruct (layoutMode node) as [[| |]|]; try reflexivity.
  destruct Hshape as [H|H]; rewrite H; [reflexivity|].
  now rewrite orb_true_r.
Qed.

Lemma isShapeType_not_text (t : NodeType) :
  CodeTs.isShapeType t = true -> NodeType_eqb t TEXT = false.
Proof. now destruct t. Qed.

(** C6: a container with exactly two children, one a text node and the
    other a rectangle or an ellipse, whose id is not among the confirmed
    ones, is rendered by [renderContainer] (as any node, it renders as
    the empty string when it is hidden); [renderCta] is not called. *)
Theorem unconfirmed_cta_renders_as_container (h : Host) (confirmedCtaIds : list str)
    (node c1 c2 : SceneNode) (parentWidth : num) (parentBgColor : RgbColor) :
  CodeTs.isContainerType (type node) = true ->
  children node = Some [c1; c2] ->
  (type c1 = TEXT /\ CodeTs.isShapeType (type c2) = true)
  \/ (CodeTs.isShapeType (type c1) = true /\ type c2 = TEXT) ->
  inArray (id node) confirmedCtaIds = false ->
  CodeTs.renderNode h confirmedCtaIds node parentWidth parentBgColor
  = if visible node
    then CodeTs.renderContainer h confirmedCtaIds node parentWidth parentBgColor
           false
    else Ok [].
Proof.
  intros Htype Hcs Hshape Hid.
  rewrite CodeTs_renderNode_eq. unfold CodeTs.renderNodeK, CodeTs.renderContainer.
  destruct (visible node); [cbn [negb] | reflexivity].
  assert (Hicon : CodeTs.isIconGroup node = false).
  { apply (isIconGroup_text_child node [c1; c2] Hcs).
    destruct Hshape as [[H _]|[_ H]]; simpl; rewrite H; simpl;
      [reflexivity | apply orb_true_r]. }
  assert (Hbullet : CodeTs.isBulletPoint node = Ok false).
  { apply (isBulletPoint_shape_child node c1 c2 Hcs).
    destruct Hshape as [[_ H]|[H _]]; [right | left];
      now apply isShapeType_not_text. }
  destruct (type node); try discriminate Htype;
    rewrite Hicon, Hbullet; cbn [rbind]; rewrite Hid; reflexivity.
Qed.

Lemma unconfirmed_cta_renders_as_container_witness :
  CodeTs.isPotentialCta (Sample.button "Buy") = true
  /\ CodeTs.renderNode Sample.host [lit "9:9"] (Sample.button "Buy") 600 white
     = CodeTs.renderContainer Sample.host [lit "9:9"] (Sample.button "Buy") 600
         white false.
Proof.
  split; [reflexivity|].
  apply (unconfirmed_cta_renders_as_container Sample.host [lit "9:9"]
           (Sample.button "Buy") (Sample.rectangle "1:2" 0 120 40 Sample.red)
           (Sample.textNode "1:3" "Buy" 10)).
  - reflexivity.
  - reflexivity.
  - right. split; reflexivity.
  - reflexivity.
Defined.

(** With its id confirmed, the same frame takes the button path. *)
Lemma confirmed_cta_renders_as_button (h : Host) (confirmedCtaIds : list str)
    (node : SceneNode) (parentWidth : num) (parentBgColor : RgbColor) :
  visible node = true ->
  CodeTs.isPotentialCta node = true ->
  inArray (id node) confirmedCtaIds = true ->
  CodeTs.renderNode h confirmedCtaIds node parentWidth parentBgColor
  = CodeTs.renderCta h node parentBgColor.
Proof.
  intros Hvis Hcta Hid.
  rewrite CodeTs_renderNode_eq. unfold CodeTs.renderNodeK.
  rewrite Hvis. cbn [negb].
  pose proof Hcta as Hshape. unfold CodeTs.isPotentialCta in Hshape.
  destruct (children node) as [cs|] eqn:Hcs;
    [|destruct (negb _ && negb _); discriminate].
  destruct (negb (NodeType_eqb (type node) FRAME)
            && negb (NodeType_eqb (type node) GROUP)) eqn:Ht; [discriminate|].
  destruct cs as [|c1 [|c2 [|c3 cs]]]; try discriminate Hshape.
  cbn [List.length Nat.eqb negb] in Hshape.
  apply andb_true_iff in Hshape. destruct Hshape as [Htext Hsh].
  assert (Hicon : CodeTs.isIconGroup node = false)
    by exact (isIconGroup_text_child node [c1; c2] Hcs Htext).
  assert (Hbullet : CodeTs.isBulletPoint node = Ok false).
  { apply (isBulletPoint_shape_child node c1 c2 Hcs).
    cbn [existsb] in Hsh. rewrite orb_false_r in Hsh.
    apply orb_true_iff in Hsh.
    destruct Hsh as [H|H]; [left | right]; now apply isShapeType_not_text. }
  destruct (type node); try discriminate Ht;
    rewrite Hicon, Hbullet; cbn [rbind]; rewrite Hid, Hcta; reflexivity.
Qed.

(** The two paths give different markup for the sample button. *)
Lemma button_paths_differ :
  CodeTs.renderContainer Sample.host [] (Sample.button "Buy") 600 white false
  <> CodeTs.renderCta Sample.host (Sample.button "Buy") white.
Proof. vm_compute. discriminate. Qed.

(** *** The asset list and its counter *)

Lemma upTo_succ (n : N) : upTo (n + 1) = upTo n ++ [(n + 1)%N].
Proof.
  unfold upTo. replace (N.to_nat (n + 1)) with (S (N.to_nat n)) by lia.
  rewrite seq_S, map_app. cbn [map]. do 2 f_equal. lia.
Qed.

Section Numbering.
Variable h : Host.

(** A successful export in [download] mode: the counter goes up by one,
    the file is named after the new count, and the asset is appended. *)
Lemma renderImage_download (node : SceneNode) (parentWidth : num)
    (imageBytes : bytes) (this : Part000.Parser) :
  (width node <? 1) || (height node <? 1) = false ->
  exportAsync h node {| png_width := Math_round (width node * 2) |} = Ok imageBytes ->
  let n := (Part000.imageCounter this + 1)%N in
  Part000.renderImage h node parentWidth download this
  = (Ok (Part000.imgTag h (lit "images/" ++ imageName n)
           (Math_min (Math_round (width node)) parentWidth)
           (orElse (name node) (lit "Image"))),
     {| Part000.imageAssets :=
          Part000.imageAssets this
          ++ [{| asset_name := imageName n; asset_data := imageBytes |}];
        Part000.imageCounter := n |}).
Proof.
  intros Hsize Hexport n. unfold Part000.renderImage.
  rewrite Hsize, Hexport. reflexivity.
Qed.

Lemma renderImage_numbered (node : SceneNode) (parentWidth : num)
    (mode : ImageExportMode) :
  preserves numbered (Part000.renderImage h node parentWidth mode).
Proof.
  unfold Part000.renderImage.
  destruct ((width node <? 1) || (height node <? 1)); [apply preserves_ret|].
  destruct mode.
  - apply preserves_ret.
  - destruct (rbind _ _); apply preserves_ret.
  - destruct (exportAsync h node _) as [imageBytes|e]; [|apply preserves_ret].
    intros this Hnum. unfold numbered in *. cbn [snd Part000.imageAssets
      Part000.imageCounter].
    rewrite map_app, Hnum, upTo_succ, map_app. reflexivity.
Qed.

Lemma stackedRows_numbered availableWidth parentBgColor mode paddingLeft
    paddingRight (kids : list Part000.Kid) :
  Forall (fun k => keeps (snd k)) kids ->
  forall lastBottomY,
    preserves numbered
      (Part000.stackedRows h availableWidth parentBgColor mode paddingLeft
         paddingRight kids lastBottomY).
Proof.
  induction 1 as [|[child render] kids Hk _ IH]; intros lastBottomY;
    cbn [Part000.stackedRows]; [apply preserves_ret|].
  apply preserves_bind; [apply Hk | intros childHtml].
  apply preserves_bind; [apply IH | intros more; apply preserves_ret].
Qed.

Lemma horizontalCells_numbered node parentBgColor mode itemSpacing
    isSpaceBetween count (kids : list Part000.Kid) :
  Forall (fun k => keeps (snd k)) kids ->
  forall index,
    preserves numbered
      (Part000.horizontalCells h node parentBgColor mode itemSpacing
         isSpaceBetween count kids index).
Proof.
  induction 1 as [|[child render] kids Hk _ IH]; intros index;
    cbn [Part000.horizontalCells]; [apply preserves_ret|].
  apply preserves_bind; [apply Hk | intros childHtml].
  apply preserves_bind; [apply IH | intros more; apply preserves_ret].
Qed.

Lemma renderContainerK_numbered (kids : list Part000.Kid) node parentWidth
    parentBgColor isRoot mode :
  Forall (fun k => keeps (snd k)) kids ->
  preserves numbered
    (Part000.renderContainerK h kids node parentWidth parentBgColor isRoot mode).
Proof.
  intros Hkids.
  assert (Hstack : forall w bg,
            preserves numbered (Part000.renderStackedChildrenK h kids node w bg mode)).
  { intros w bg. unfold Part000.renderStackedChildrenK.
    apply preserves_bind; [|intros rows; apply preserves_ret].
    apply stackedRows_numbered.
    destruct (layoutMode node) as [[| |]|];
      try apply Forall_sortByY; now apply Forall_filter. }
  assert (Hrow : forall w bg,
            preserves numbered
              (Part000.renderHorizontalChildrenK h kids node w bg mode)).
  { intros w bg. unfold Part000.renderHorizontalChildrenK.
    apply preserves_bind; [|intros cells; apply preserves_ret].
    apply horizontalCells_numbered. now apply Forall_filter. }
  unfold Part000.renderContainerK. preserve.
Qed.

Lemma renderNodeK_numbered (kids : list Part000.Kid) node parentWidth
    parentBgColor mode :
  Forall (fun k => keeps (snd k)) kids ->
  preserves numbered
    (Part000.renderNodeK h kids node parentWidth parentBgColor mode).
Proof.
  intros Hkids. unfold Part000.renderNodeK.
  destruct (negb (visible node)); [apply preserves_ret|].
  destruct (Part000.isImageLikeNode node); [apply renderImage_numbered|].
  pose proof (renderContainerK_numbered kids node parentWidth parentBgColor
                false mode Hkids).
  destruct (type node); preserve.
Qed.

Lemma kidsOf_numbered (node : SceneNode) :
  Forall (fun c => keeps (Part000.renderNode h c)) (childrenOf node) ->
  Forall (fun k => keeps (snd k)) (Part000.kidsOf h node).
Proof.
  intros Hcs. rewrite Part000_kidsOf_eq.
  induction Hcs; cbn [map]; constructor; assumption.
Qed.

Lemma renderNode_numbered (node : SceneNode) : keeps (Part000.renderNode h node).
Proof.
  induction node as [node IH] using SceneNode_children_ind.
  intros parentWidth parentBgColor mode.
  rewrite Part000_renderNode_eq.
  apply renderNodeK_numbered, kidsOf_numbered, IH.
Qed.

Lemma renderContainer_numbered node parentWidth parentBgColor isRoot mode :
  preserves numbered
    (Part000.renderContainer h node parentWidth parentBgColor isRoot mode).
Proof.
  apply renderContainerK_numbered, kidsOf_numbered.
  apply Forall_forall. intros c _. apply renderNode_numbered.
Qed.

Lemma selectionRows_numbered mode (nodes : list SceneNode) :
  forall first lastBottomY,
    preserves numbered (Part000.selectionRows h mode nodes first lastBottomY).
Proof.
  induction nodes as [|node nodes IH]; intros first lastBottomY;
    cbn [Part000.selectionRows]; [apply preserves_ret|].
  apply preserves_bind; [apply renderNode_numbered | intros nodeHtml].
  apply preserves_bind; [apply IH | intros more; apply preserves_ret].
Qed.

Lemma newParser_numbered : numbered Part000.newParser.
Proof. reflexivity. Qed.

End Numbering.

(** *** What a pass exports *)

Lemma assetsFrom_app (first : N) (a b : list bytes) :
  assetsFrom first (a ++ b)
  = assetsFrom first a ++ assetsFrom (first + N.of_nat (List.length a)) b.
Proof.
  revert first. induction a as [|d a IH]; intros first;
    cbn [app assetsFrom List.length].
  - now rewrite N.add_0_r.
  - rewrite IH. do 3 f_equal. lia.
Qed.

Lemma assetsFrom_names (first : N) (datas : list bytes) :
  map asset_name (assetsFrom first datas)
  = map (fun i => imageName (first + N.of_nat i))
        (seq 0 (List.length datas)).
Proof.
  revert first. induction datas as [|d datas IH]; intros first; [reflexivity|].
  cbn [assetsFrom map List.length seq]. rewrite N.add_0_r. f_equal.
  rewrite IH, <- seq_shift, map_map. apply map_ext. intros i.
  f_equal. lia.
Qed.

Lemma exportsOf_app (h : Host) (l1 l2 : list SceneNode) :
  exportsOf h (l1 ++ l2) = exportsOf h l1 ++ exportsOf h l2.
Proof. apply flat_map_app. Qed.

Lemma exportsOf_flat_map {X} (h : Host) (f : X -> list SceneNode) (l : list X) :
  exportsOf h (flat_map f l) = flat_map (fun x => exportsOf h (f x)) l.
Proof.
  induction l as [|x l IH]; [reflexivity|].
  cbn [flat_map]. now rewrite exportsOf_app, IH.
Qed.

Lemma flat_map_pairWith {R X} (f : SceneNode -> R) (g : SceneNode * R -> list X)
    (cs : list SceneNode) :
  flat_map g (map (pairWith f) cs) = flat_map (fun c => g (c, f c)) cs.
Proof. induction cs as [|c cs IH]; [reflexivity|]. cbn. now rewrite IH. Qed.

Lemma logs_ret {A} (a : A) : logs [] (ret a).
Proof.
  intros this. exists [], []. cbn. rewrite app_nil_r, N.add_0_r. now repeat split.
Qed.

Lemma logs_lift {A} (x : result A) : logs [] (lift x).
Proof.
  intros this. exists [], []. cbn. rewrite app_nil_r, N.add_0_r. now repeat split.
Qed.

Lemma logs_bind {A B} (d1 d2 : list bytes) (m : Part000.M A)
    (f : A -> Part000.M B) :
  logs d1 m -> (forall a, logs d2 (f a)) -> logs (d1 ++ d2) (bind m f).
Proof.
  intros Hm Hf this. unfold bind.
  destruct (Hm this) as [done1 [rest1 [E1 [A1 [C1 O1]]]]].
  destruct (m this) as [[a|e] this1]; cbn [fst snd] in *.
  - rewrite (O1 a eq_refl), app_nil_r in E1. subst d1.
    destruct (Hf a this1) as [done2 [rest2 [E2 [A2 [C2 O2]]]]].
    exists (done1 ++ done2), rest2. repeat split.
    + now rewrite E2, app_assoc.
    + rewrite A2, A1, C1, assetsFrom_app, <- app_assoc. do 3 f_equal. lia.
    + rewrite C2, C1, length_app. lia.
    + exact O2.
  - exists done1, (rest1 ++ d2). repeat split.
    + now rewrite E1, app_assoc.
    + exact A1.
    + exact C1.
    + discriminate.
Qed.

Lemma logs_bind_first {A B} (datas : list bytes) (m : Part000.M A)
    (f : A -> Part000.M B) :
  logs datas m -> (forall a, logs [] (f a)) -> logs datas (bind m f).
Proof.
  intros Hm Hf. rewrite <- (app_nil_r datas). now apply logs_bind.
Qed.

Lemma logs_bind_then {A B} (datas : list bytes) (m : Part000.M A)
    (f : A -> Part000.M B) :
  logs [] m -> (forall a, logs datas (f a)) -> logs datas (bind m f).
Proof. intros Hm Hf. now apply (logs_bind [] datas). Qed.

Lemma logs_bind_ret {A B} (datas : list bytes) (a : A) (f : A -> Part000.M B) :
  logs datas (f a) -> logs datas (bind (ret a) f).
Proof. intros H this. exact (H this). Qed.

Lemma logs_bind_throw {A B} (datas : list bytes) (e : Exn)
    (f : A -> Part000.M B) :
  logs datas (bind (lift (Throw e)) f).
Proof.
  intros this. exists [], datas. cbn. rewrite app_nil_r, N.add_0_r.
  repeat split. discriminate.
Qed.

(** Goes through the binds and the branches of a method that exports
    nothing. *)
Ltac nothing_logged :=
  repeat first
    [ apply logs_ret
    | apply logs_lift
    | assumption
    | apply (logs_bind [] []); [|intros ?]
    | match goal with
      | |- logs _ (if ?c then _ else _) => destruct c
      | |- logs _ (match ?x with _ => _ end) => destruct x
      end ].

Section Exports.
Variable h : Host.

(** The exports of what is reached from [c]. *)
Let ex (c : SceneNode) : list bytes := exportsOf h (reached c).

(** The visible children in the order of the loop that renders them. *)
Let ordered (node : SceneNode) (cs : list SceneNode) : list SceneNode :=
  match layoutMode node with
  | Some NONE => sortByY y (filter visible cs)
  | _ => filter visible cs
  end.

Lemma reached_eq (node : SceneNode) :
  reached node = reachedK (map (pairWith reached) (childrenOf node)) node.
Proof.
  destruct node as [? ? ? ? ? ? ? ? ? ? ? ? ? cs ? ? ? ? ? ? ? ? ? ? ? ? ?].
  unfold childrenOf. cbn [children orDefault]. now destruct cs.
Qed.

Lemma reachedBelow_eq (node : SceneNode) :
  exportsOf h (reachedBelow node) = flat_map ex (ordered node (childrenOf node)).
Proof.
  unfold reachedBelow, reachedBelowK, ordered, overChildren, childrenOf.
  destruct (children node) as [cs|]; cbn [orDefault map filter].
  - change (fun child => (child, reached child)) with (pairWith reached).
    rewrite filter_pairWith, sortByY_pairWith.
    destruct (layoutMode node) as [[| |]|];
      now rewrite flat_map_pairWith, exportsOf_flat_map.
  - now destruct (layoutMode node) as [[| |]|].
Qed.

Lemma renderImage_logs (node : SceneNode) (parentWidth : num) :
  logs (exportsOf h (if (width node <? 1) || (height node <? 1)
                     then [] else [node]))
       (Part000.renderImage h node parentWidth download).
Proof.
  unfold Part000.renderImage.
  destruct ((width node <? 1) || (height node <? 1)); [apply logs_ret|].
  unfold exportsOf. cbn [flat_map]. rewrite app_nil_r.
  destruct (exportAsync h node _) as [imageBytes|e]; [|apply logs_ret].
  intros this. exists [imageBytes], []. now repeat split.
Qed.

Section Kids.
Variable render : SceneNode -> Part000.Renderer.

Lemma stackedRows_logs availableWidth parentBgColor paddingLeft paddingRight
    (cs : list SceneNode) :
  Forall (fun c => forall w bg, logs (ex c) (render c w bg download)) cs ->
  forall lastBottomY,
    logs (flat_map ex cs)
         (Part000.stackedRows h availableWidth parentBgColor download
            paddingLeft paddingRight (map (pairWith render) cs) lastBottomY).
Proof.
  induction 1 as [|c cs Hc _ IH]; intros lastBottomY;
    cbn [map pairWith flat_map Part000.stackedRows]; [apply logs_ret|].
  apply logs_bind; [apply Hc | intros childHtml].
  apply logs_bind_first; [apply IH | intros more; apply logs_ret].
Qed.

Lemma horizontalCells_logs node parentBgColor itemSpacing isSpaceBetween count
    (cs : list SceneNode) :
  Forall (fun c => forall w bg, logs (ex c) (render c w bg download)) cs ->
  forall index,
    logs (flat_map ex cs)
         (Part000.horizontalCells h node parentBgColor download itemSpacing
            isSpaceBetween count (map (pairWith render) cs) index).
Proof.
  induction 1 as [|c cs Hc _ IH]; intros index;
    cbn [map pairWith flat_map Part000.horizontalCells]; [apply logs_ret|].
  apply logs_bind; [apply Hc | intros childHtml].
  apply logs_bind_first; [apply IH | intros more; apply logs_ret].
Qed.

Lemma renderContainerK_logs (cs : list SceneNode) node parentWidth
    parentBgColor isRoot :
  Forall (fun c => forall w bg, logs (ex c) (render c w bg download)) cs ->
  logs (flat_map ex (ordered node cs))
       (Part000.renderContainerK h (map (pairWith render) cs) node parentWidth
          parentBgColor isRoot download).
Proof.
  intros Hcs.
  pose proof (Forall_filter _ visible _ Hcs) as Hvis.
  pose proof (Forall_sortByY y _ _ Hvis) as Hsort.
  assert (Hinner : forall w bg,
            logs (flat_map ex (ordered node cs))
              match layoutMode node with
              | Some HORIZONTAL =>
                  Part000.renderHorizontalChildrenK h (map (pairWith render) cs)
                    node w bg download
              | _ =>
                  Part000.renderStackedChildrenK h (map (pairWith render) cs)
                    node w bg download
              end).
  { intros w bg. unfold ordered, Part000.renderStackedChildrenK,
      Part000.renderHorizontalChildrenK.
    rewrite !filter_pairWith, !sortByY_pairWith.
    destruct (layoutMode node) as [[| |]|];
      (apply logs_bind_first; [|intros; apply logs_ret]).
    - now apply stackedRows_logs.
    - now apply horizontalCells_logs.
    - now apply stackedRows_logs.
    - now apply stackedRows_logs. }
  unfold Part000.renderContainerK.
  apply logs_bind_then; [apply logs_lift | intros effective].
  cbv zeta. rewrite !filter_pairWith, !length_map.
  destruct (filter visible cs) as [|c shown] eqn:Hshown.
  - assert (Hnil : flat_map ex (ordered node cs) = [])
      by (unfold ordered; rewrite Hshown; now destruct (layoutMode node) as [[| |]|]).
    rewrite Hnil in *.
    repeat first
      [ apply Hinner
      | apply logs_ret
      | apply logs_lift
      | apply (logs_bind [] []); [|intros ?]
      | match goal with
        | |- logs _ (if ?c then _ else _) => destruct c
        end ].
  - cbn [List.length Nat.eqb andb]. apply logs_bind_ret. cbv iota.
    apply logs_bind_first; [apply Hinner | intros innerHtml].
    nothing_logged.
Qed.

Lemma renderNodeK_logs (cs : list SceneNode) node parentWidth parentBgColor :
  Forall (fun c => forall w bg, logs (ex c) (render c w bg download)) cs ->
  logs (exportsOf h
          (if negb (visible node) then []
           else if Part000.isImageLikeNode node
           then (if (width node <? 1) || (height node <? 1) then [] else [node])
           else
             match type node with
             | FRAME | GROUP | COMPONENT | INSTANCE =>
                 if saysYes (Part000.isBulletPoint node) then []
                 else flat_map reached (ordered node cs)
             | _ => []
             end))
       (Part000.renderNodeK h (map (pairWith render) cs) node parentWidth
          parentBgColor download).
Proof.
  intros Hcs. unfold Part000.renderNodeK.
  destruct (negb (visible node)); [apply logs_ret|].
  destruct (Part000.isImageLikeNode node); [apply renderImage_logs|].
  assert (Hcontainer :
            logs (exportsOf h
                    (if saysYes (Part000.isBulletPoint node) then []
                     else flat_map reached (ordered node cs)))
              (bullet <- lift (Part000.isBulletPoint node) ;;
               if bullet : bool
               then lift (Part000.renderBulletPoint h node parentBgColor)
               else Part000.renderContainerK h (map (pairWith render) cs) node
                      parentWidth parentBgColor false download)%parser).
  { destruct (Part000.isBulletPoint node) as [[|]|e]; cbn [saysYes].
    - apply (logs_bind_ret (B := str) [] true). apply logs_lift.
    - apply (logs_bind_ret (B := str) _ false). rewrite exportsOf_flat_map.
      now apply renderContainerK_logs.
    - apply logs_bind_throw. }
  destruct (type node); try exact Hcontainer;
    first [apply logs_lift | apply logs_ret].
Qed.

End Kids.

(** What [renderNode] exports from a node is what is reached from it. *)
Lemma renderNode_logs (node : SceneNode) :
  forall w bg, logs (ex node) (Part000.renderNode h node w bg download).
Proof.
  induction node as [node IH] using SceneNode_children_ind. intros w bg.
  unfold ex. rewrite Part000_renderNode_eq, Part000_kidsOf_eq, reached_eq.
  unfold reachedK, reachedBelowK.
  rewrite filter_pairWith, sortByY_pairWith.
  replace (flat_map snd
             match layoutMode node with
             | Some NONE =>
                 map (pairWith reached) (sortByY y (filter visible (childrenOf node)))
             | _ => map (pairWith reached) (filter visible (childrenOf node))
             end)
    with (flat_map reached (ordered node (childrenOf node)))
    by (unfold ordered; destruct (layoutMode node) as [[| |]|];
        now rewrite flat_map_pairWith).
  now apply renderNodeK_logs.
Qed.

Lemma renderContainer_logs node parentWidth parentBgColor isRoot :
  logs (exportsOf h (reachedBelow node))
       (Part000.renderContainer h node parentWidth parentBgColor isRoot download).
Proof.
  rewrite reachedBelow_eq. unfold Part000.renderContainer.
  rewrite Part000_kidsOf_eq. apply renderContainerK_logs.
  apply Forall_forall. intros c _. apply renderNode_logs.
Qed.

Lemma selectionRows_logs (nodes : list SceneNode) :
  forall first lastBottomY,
    logs (exportsOf h (flat_map reached nodes))
         (Part000.selectionRows h download nodes first lastBottomY).
Proof.
  induction nodes as [|node nodes IH]; intros first lastBottomY;
    cbn [flat_map Part000.selectionRows]; [apply logs_ret|].
  rewrite exportsOf_app.
  apply logs_bind; [apply renderNode_logs | intros nodeHtml].
  apply logs_bind_first; [apply IH | intros more; apply logs_ret].
Qed.

(** A pass from a new parser appends the exports of what the selection
    reaches. *)
Lemma parse_logs (nodes : list SceneNode) :
  exists done rest,
    exportsOf h (reachedByParse nodes) = done ++ rest
    /\ Part000.imageAssets (snd (Part000.parse h nodes download Part000.newParser))
       = assetsFrom 1 done
    /\ Part000.imageCounter
         (snd (Part000.parse h nodes download Part000.newParser))
       = N.of_nat (List.length done)
    /\ (forall html,
          fst (Part000.parse h nodes download Part000.newParser) = Ok html ->
          rest = []).
Proof.
  assert (Hpass : forall m : Part000.M str,
            logs (exportsOf h (reachedByParse nodes)) m ->
            exists done rest,
              exportsOf h (reachedByParse nodes) = done ++ rest
              /\ Part000.imageAssets (snd (m Part000.newParser))
                 = assetsFrom 1 done
              /\ Part000.imageCounter (snd (m Part000.newParser))
                 = N.of_nat (List.length done)
              /\ (forall html, fst (m Part000.newParser) = Ok html -> rest = [])).
  { intros m Hm. destruct (Hm Part000.newParser) as [done [rest H]].
    now exists done, rest. }
  destruct nodes as [|node [|node' nodes]].
  - apply (Hpass (ret [])). apply logs_ret.
  - unfold Part000.parse, reachedByParse in *.
    destruct (existsb _ _).
    + apply (Hpass (Part000.renderContainer h node (width node) white _ download)).
      apply renderContainer_logs.
    + apply (Hpass (Part000.renderNode h node (width node) white download)).
      apply renderNode_logs.
  - unfold Part000.parse.
    apply (Hpass (rows <- Part000.selectionRows h download
                            (sortByY y (node :: node' :: nodes)) true _ ;;
                  ret (join [] rows))%parser).
    unfold reachedByParse.
    apply logs_bind_first; [apply selectionRows_logs | intros; apply logs_ret].
Qed.

End Exports.

Section Pass.
Variable h : Host.

(** C7: a call of [parse] with at least one node starts from an empty
    asset list and a counter of 0, whatever the parser held before.  In
    [download] mode it asks the exporter for the image-like nodes it
    comes to, in the order in which it comes to them; the [n]-th export
    that succeeds is named [image-<n>.png] and appended with its bytes.
    So when the call returns the assets are the successful exports of
    the nodes reached, in this order, named [image-1.png], ...,
    [image-<k>.png], and the counter is their number [k]; when it throws
    they are the first of these exports. *)
Theorem parse_numbers_assets (nodes : list SceneNode) (mode : ImageExportMode)
    (this : Part000.Parser) :
  nodes <> [] ->
  let exported := exportsOf h (reachedByParse nodes) in
  let after := snd (Part000.parse h nodes download this) in
  Part000.parse h nodes mode this = Part000.parse h nodes mode Part000.newParser
  /\ numbered (snd (Part000.parse h nodes mode this))
  /\ (forall html,
        fst (Part000.parse h nodes download this) = Ok html ->
        Part000.imageAssets after = assetsFrom 1 exported
        /\ map asset_name (Part000.imageAssets after)
           = map imageName (upTo (N.of_nat (List.length exported)))
        /\ Part000.imageCounter after = N.of_nat (List.length exported))
  /\ (exists done rest,
        exported = done ++ rest
        /\ Part000.imageAssets after = assetsFrom 1 done
        /\ Part000.imageCounter after = N.of_nat (List.length done))
  /\ (forall node parentWidth imageBytes before,
        (width node <? 1) || (height node <? 1) = false ->
        exportAsync h node {| png_width := Math_round (width node * 2) |}
        = Ok imageBytes ->
        let n := (Part000.imageCounter before + 1)%N in
        snd (Part000.renderImage h node parentWidth download before)
        = {| Part000.imageAssets :=
               Part000.imageAssets before
               ++ [{| asset_name := imageName n; asset_data := imageBytes |}];
             Part000.imageCounter := n |}).
Proof.
  intros Hnodes exported after.
  assert (Hreset : forall m,
            Part000.parse h nodes m this = Part000.parse h nodes m Part000.newParser)
    by (intros m; destruct nodes; [contradiction | reflexivity]).
  assert (Hnumbered : forall m, numbered (snd (Part000.parse h nodes m this))).
  { intros m. destruct nodes as [|node nodes]; [contradiction|].
    unfold Part000.parse.
    destruct nodes as [|node' nodes].
    + destruct (existsb _ _).
      * apply renderContainer_numbered, newParser_numbered.
      * apply renderNode_numbered, newParser_numbered.
    + refine (preserves_bind numbered _ _ _ _ _ newParser_numbered).
      * apply selectionRows_numbered.
      * intros rows. apply preserves_ret. }
  destruct (parse_logs h nodes) as [done [rest [Hsplit [Hassets [Hcounter Hok]]]]].
  fold exported in Hsplit. rewrite <- (Hreset download) in Hassets, Hcounter, Hok.
  fold after in Hassets, Hcounter.
  split; [apply Hreset | split; [apply Hnumbered | split; [|split]]].
  - intros html Hhtml. rewrite (Hok html Hhtml), app_nil_r in Hsplit.
    subst done. repeat split; try assumption.
    specialize (Hnumbered download). unfold numbered in Hnumbered.
    fold after in Hnumbered. now rewrite Hnumbered, Hcounter.
  - now exists done, rest.
  - intros node parentWidth imageBytes before Hsize Hexport n.
    now rewrite (renderImage_download h node parentWidth imageBytes before
                   Hsize Hexport).
Qed.

End Pass.

Lemma parse_numbers_assets_witness :
  let h := Sample.host in
  let nodes := Sample.icons in
  let mode := download in
  let this := Sample.used in
  let exported := exportsOf h (reachedByParse nodes) in
  let after := snd (Part000.parse h nodes download this) in
  Part000.parse h nodes mode this = Part000.parse h nodes mode Part000.newParser
  /\ numbered (snd (Part000.parse h nodes mode this))
  /\ (forall html,
        fst (Part000.parse h nodes download this) = Ok html ->
        Part000.imageAssets after = assetsFrom 1 exported
        /\ map asset_name (Part000.imageAssets after)
           = map imageName (upTo (N.of_nat (List.length exported)))
        /\ Part000.imageCounter after = N.of_nat (List.length exported))
  /\ (exists done rest,
        exported = done ++ rest
        /\ Part000.imageAssets after = assetsFrom 1 done
        /\ Part000.imageCounter after = N.of_nat (List.length done))
  /\ (forall node parentWidth imageBytes before,
        (width node <? 1) || (height node <? 1) = false ->
        exportAsync h node {| png_width := Math_round (width node * 2) |}
        = Ok imageBytes ->
        let n := (Part000.imageCounter before + 1)%N in
        snd (Part000.renderImage h node parentWidth download before)
        = {| Part000.imageAssets :=
               Part000.imageAssets before
               ++ [{| asset_name := imageName n; asset_data := imageBytes |}];
             Part000.imageCounter := n |}).
Proof.
  apply (parse_numbers_assets Sample.host Sample.icons download Sample.used).
  discriminate.
Defined.

(** The example of the spec: three image-like nodes give three assets,
    named in order and holding what the exporter returned, also on a
    parser that has been used before. *)
Lemma three_images_three_assets :
  reachedByParse Sample.icons = Sample.icons
  /\ Part000.getCollectedImageAssets
       (snd (Part000.parse Sample.host Sample.icons download Sample.used))
     = [ {| asset_name := lit "image-1.png"; asset_data := [137%N; 80%N] |};
         {| asset_name := lit "image-2.png"; asset_data := [137%N; 80%N] |};
         {| asset_name := lit "image-3.png"; asset_data := [137%N; 80%N] |} ]
  /\ Part000.imageCounter
       (snd (Part000.parse Sample.host Sample.icons download Sample.used))
     = 3%N.
Proof. repeat split; vm_compute; reflexivity. Qed.

(** Outside the plugin: a call of [parse] without nodes returns before
    the reset.  The handler of the plugin (part_000 705-724) makes a new
    parser for every pass and does not call [parse] on an empty
    selection. *)
Lemma parse_without_nodes_keeps_assets :
  Part000.parse Sample.host [] download Sample.used = (Ok [], Sample.used)
  /\ Part000.parse Sample.host [] download Part000.newParser
     = (Ok [], Part000.newParser).
Proof. split; vm_compute; reflexivity. Qed.
(** *** Export failures *)

Section ExportFailure.
Variable h : Host.
Variable exportAsync' : SceneNode -> ExportSettingsImage -> result bytes.
Variable base64Encode' : bytes -> result str.
Let h' : Host := withExporter h exportAsync' base64Encode'.

Lemma renderImage_returns (g : Host) node parentWidth mode this :
  exists fragment this',
    Part000.renderImage g node parentWidth mode this = (Ok fragment, this').
Proof.
  unfold Part000.renderImage.
  destruct ((width node <? 1) || (height node <? 1)); [now eexists; eexists|].
  destruct mode.
  - now eexists; eexists.
  - destruct (rbind _ _); now eexists; eexists.
  - destruct (exportAsync g node _); now eexists; eexists.
Qed.

Lemma renderImage_related node parentWidth mode :
  related any (Part000.renderImage h node parentWidth mode)
              (Part000.renderImage h' node parentWidth mode).
Proof.
  intros this this'.
  destruct (renderImage_returns h node parentWidth mode this) as [f [t ->]].
  destruct (renderImage_returns h' node parentWidth mode this') as [f' [t' ->]].
  exact I.
Qed.

Section Children.
Variables render render' : SceneNode -> Part000.Renderer.

Lemma stackedRows_related availableWidth parentBgColor mode paddingLeft
    paddingRight (cs : list SceneNode) :
  Forall (fun c => alike (render c) (render' c)) cs ->
  forall lastBottomY,
    related any
      (Part000.stackedRows h availableWidth parentBgColor mode paddingLeft
         paddingRight (map (pairWith render) cs) lastBottomY)
      (Part000.stackedRows h' availableWidth parentBgColor mode paddingLeft
         paddingRight (map (pairWith render') cs) lastBottomY).
Proof.
  induction 1 as [|c cs Hc _ IH]; intros lastBottomY;
    cbn [map pairWith Part000.stackedRows]; [now apply related_ret|].
  eapply related_bind; [apply Hc | intros childHtml childHtml' _].
  eapply related_bind; [apply IH | intros more more' _].
  now apply related_ret.
Qed.

Lemma horizontalCells_related node parentBgColor mode itemSpacing
    isSpaceBetween count (cs : list SceneNode) :
  Forall (fun c => alike (render c) (render' c)) cs ->
  forall index,
    related any
      (Part000.horizontalCells h node parentBgColor mode itemSpacing
         isSpaceBetween count (map (pairWith render) cs) index)
      (Part000.horizontalCells h' node parentBgColor mode itemSpacing
         isSpaceBetween count (map (pairWith render') cs) index).
Proof.
  induction 1 as [|c cs Hc _ IH]; intros index;
    cbn [map pairWith Part000.horizontalCells]; [now apply related_ret|].
  eapply related_bind; [apply Hc | intros childHtml childHtml' _].
  eapply related_bind; [apply IH | intros more more' _].
  now apply related_ret.
Qed.

Lemma renderContainerK_related (cs : list SceneNode) node parentWidth
    parentBgColor isRoot mode :
  Forall (fun c => alike (render c) (render' c)) cs ->
  related any
    (Part000.renderContainerK h (map (pairWith render) cs) node parentWidth
       parentBgColor isRoot mode)
    (Part000.renderContainerK h' (map (pairWith render') cs) node parentWidth
       parentBgColor isRoot mode).
Proof.
  intros Hcs.
  assert (Hborder : related eq
            (border <- lift (S := Part000.Parser) (Part000.getBorderStyles h node) ;;
             ret (truthy (orDefault border [])))%parser
            (border <- lift (Part000.getBorderStyles h' node) ;;
             ret (truthy (orDefault border [])))%parser).
  { eapply related_bind; [apply related_lift | intros b b' <-].
    now apply related_ret. }
  unfold Part000.renderContainerK.
  eapply related_bind; [apply related_lift | intros effective ? <-].
  eapply related_bind with (R := eq).
  { rewrite !filter_pairWith, !length_map.
    destruct (_ && _); [|now apply related_ret].
    eapply related_bind; [exact Hborder | intros b ? <-]. now apply related_ret. }
  intros empty ? <-. destruct empty; [now apply related_ret|].
  eapply related_bind with (R := any).
  { unfold Part000.renderStackedChildrenK, Part000.renderHorizontalChildrenK.
    rewrite !filter_pairWith, !sortByY_pairWith, !length_map.
    destruct (layoutMode node) as [[| |]|];
      (eapply related_bind; [|intros; now apply related_ret]).
    - apply stackedRows_related. now apply Forall_sortByY, Forall_filter.
    - apply horizontalCells_related. now apply Forall_filter.
    - apply stackedRows_related. now apply Forall_filter.
    - apply stackedRows_related. now apply Forall_filter. }
  intros innerHtml innerHtml' _.
  eapply related_bind with (R := eq).
  { destruct (truthy _); [now apply related_ret | exact Hborder]. }
  intros hasStyles ? <-.
  destruct (_ && _); [now apply related_ret|].
  eapply related_bind; [apply related_lift | intros border ? <-].
  now apply related_ret.
Qed.

Lemma renderNodeK_related (cs : list SceneNode) node parentWidth
    parentBgColor mode :
  Forall (fun c => alike (render c) (render' c)) cs ->
  related any
    (Part000.renderNodeK h (map (pairWith render) cs) node parentWidth
       parentBgColor mode)
    (Part000.renderNodeK h' (map (pairWith render') cs) node parentWidth
       parentBgColor mode).
Proof.
  intros Hcs. unfold Part000.renderNodeK.
  destruct (negb (visible node)); [now apply related_ret|].
  destruct (Part000.isImageLikeNode node); [apply renderImage_related|].
  pose proof (renderContainerK_related cs node parentWidth parentBgColor false
                mode Hcs) as Hcontainer.
  assert (Hpure : forall x : result str, related (S := Part000.Parser) any (lift x) (lift x))
    by (intros x; eapply related_any, related_lift).
  destruct (type node); try (now apply related_ret);
    try (eapply related_bind; [apply related_lift | intros bullet ? <-];
         destruct bullet; [apply Hpure | exact Hcontainer]);
    apply Hpure.
Qed.

End Children.

Lemma renderNode_related (node : SceneNode) :
  alike (Part000.renderNode h node) (Part000.renderNode h' node).
Proof.
  induction node as [node IH] using SceneNode_children_ind.
  intros parentWidth parentBgColor mode.
  rewrite !Part000_renderNode_eq, !Part000_kidsOf_eq.
  apply (renderNodeK_related (Part000.renderNode h) (Part000.renderNode h')).
  exact IH.
Qed.

Lemma selectionRows_related mode (nodes : list SceneNode) :
  forall first lastBottomY,
    related any (Part000.selectionRows h mode nodes first lastBottomY)
                (Part000.selectionRows h' mode nodes first lastBottomY).
Proof.
  induction nodes as [|node nodes IH]; intros first lastBottomY;
    cbn [Part000.selectionRows]; [now apply related_ret|].
  eapply related_bind; [apply renderNode_related | intros nodeHtml nodeHtml' _].
  eapply related_bind; [apply IH | intros; now apply related_ret].
Qed.

(** Whether [parse] returns or throws does not depend on the exporter. *)
Lemma parse_related (nodes : list SceneNode) (mode : ImageExportMode) :
  related any (Part000.parse h nodes mode) (Part000.parse h' nodes mode).
Proof.
  intros this this'. unfold Part000.parse.
  destruct nodes as [|node nodes]; [exact I|].
  destruct nodes as [|node' nodes].
  - destruct (existsb _ _).
    + unfold Part000.renderContainer. rewrite !Part000_kidsOf_eq.
      apply (renderContainerK_related (Part000.renderNode h)
               (Part000.renderNode h')).
      apply Forall_forall. intros c _. apply renderNode_related.
    + apply renderNode_related.
  - refine (related_bind any any _ _ _ _ _ _ _ _).
    + apply selectionRows_related.
    + intros; now apply related_ret.
Qed.

End ExportFailure.

(** What a node renders to depends on the exporter only through the
    exports of the nodes at and below it. *)
Section SameExports.
Variable h : Host.
Variable exportAsync' : SceneNode -> ExportSettingsImage -> result bytes.
Variable base64Encode' : bytes -> result str.
Variable mode : ImageExportMode.
Let h' : Host := withExporter h exportAsync' base64Encode'.
Hypothesis sameEncoder : forall b, base64Encode' b = base64Encode h b.

Lemma renderImage_same (node : SceneNode) (parentWidth : num)
    (this : Part000.Parser) :
  sameExport h exportAsync' node ->
  Part000.renderImage h node parentWidth mode this
  = Part000.renderImage h' node parentWidth mode this.
Proof.
  intros Hnode. unfold Part000.renderImage.
  destruct ((width node <? 1) || (height node <? 1)); [reflexivity|].
  destruct mode; [reflexivity | |].
  - cbn [h' withExporter exportAsync base64Encode]. rewrite Hnode.
    destruct (exportAsync h node _) as [imageBytes|e]; [|reflexivity].
    cbn [rbind]. now rewrite sameEncoder.
  - cbn [h' withExporter exportAsync]. rewrite Hnode. reflexivity.
Qed.

Section Kids.
Variables render render' : SceneNode -> Part000.Renderer.

Lemma stackedRows_same availableWidth parentBgColor paddingLeft paddingRight
    (cs : list SceneNode) :
  Forall (fun c => forall w bg this,
            render c w bg mode this = render' c w bg mode this) cs ->
  forall lastBottomY this,
    Part000.stackedRows h availableWidth parentBgColor mode paddingLeft
      paddingRight (map (pairWith render) cs) lastBottomY this
    = Part000.stackedRows h' availableWidth parentBgColor mode paddingLeft
        paddingRight (map (pairWith render') cs) lastBottomY this.
Proof.
  induction 1 as [|c cs Hc _ IH]; intros lastBottomY this; [reflexivity|].
  cbn [map pairWith Part000.stackedRows].
  apply bind_cong; [apply Hc | intros childHtml this1].
  apply bind_cong; [apply IH | reflexivity].
Qed.

Lemma horizontalCells_same node parentBgColor itemSpacing isSpaceBetween count
    (cs : list SceneNode) :
  Forall (fun c => forall w bg this,
            render c w bg mode this = render' c w bg mode this) cs ->
  forall index this,
    Part000.horizontalCells h node parentBgColor mode itemSpacing
      isSpaceBetween count (map (pairWith render) cs) index this
    = Part000.horizontalCells h' node parentBgColor mode itemSpacing
        isSpaceBetween count (map (pairWith render') cs) index this.
Proof.
  induction 1 as [|c cs Hc _ IH]; intros index this; [reflexivity|].
  cbn [map pairWith Part000.horizontalCells].
  apply bind_cong; [apply Hc | intros childHtml this1].
  apply bind_cong; [apply IH | reflexivity].
Qed.

Lemma renderContainerK_same (cs : list SceneNode) node parentWidth
    parentBgColor isRoot (this : Part000.Parser) :
  Forall (fun c => forall w bg this,
            render c w bg mode this = render' c w bg mode this) cs ->
  Part000.renderContainerK h (map (pairWith render) cs) node parentWidth
    parentBgColor isRoot mode this
  = Part000.renderContainerK h' (map (pairWith render') cs) node parentWidth
      parentBgColor isRoot mode this.
Proof.
  intros Hcs.
  pose proof (Forall_filter _ visible _ Hcs) as Hvis.
  pose proof (Forall_sortByY y _ _ Hvis) as Hsort.
  unfold Part000.renderContainerK.
  apply bind_cong; [reflexivity | intros effective this1].
  apply bind_cong;
    [intros this2; now rewrite !filter_pairWith, !length_map
    | intros empty this2].
  destruct empty; [reflexivity|].
  apply bind_cong; [|reflexivity].
  intros this3.
  unfold Part000.renderStackedChildrenK, Part000.renderHorizontalChildrenK.
  rewrite !filter_pairWith, !sortByY_pairWith, !length_map.
  destruct (layoutMode node) as [[| |]|];
    (apply bind_cong; [intros this4 | reflexivity]).
  - now apply stackedRows_same.
  - now apply horizontalCells_same.
  - now apply stackedRows_same.
  - now apply stackedRows_same.
Qed.

Lemma renderNodeK_same (cs : list SceneNode) node parentWidth parentBgColor
    (this : Part000.Parser) :
  sameExport h exportAsync' node ->
  Forall (fun c => forall w bg this,
            render c w bg mode this = render' c w bg mode this) cs ->
  Part000.renderNodeK h (map (pairWith render) cs) node parentWidth
    parentBgColor mode this
  = Part000.renderNodeK h' (map (pairWith render') cs) node parentWidth
      parentBgColor mode this.
Proof.
  intros Hnode Hcs. unfold Part000.renderNodeK.
  destruct (negb (visible node)); [reflexivity|].
  destruct (Part000.isImageLikeNode node); [now apply renderImage_same|].
  destruct (type node); try reflexivity;
    (apply bind_cong; [reflexivity | intros bullet this1];
     destruct bullet; [reflexivity | now apply renderContainerK_same]).
Qed.

End Kids.

Lemma renderNode_same (node : SceneNode) :
  (forall n, In n (subtree node) -> sameExport h exportAsync' n) ->
  forall w bg this,
    Part000.renderNode h node w bg mode this
    = Part000.renderNode h' node w bg mode this.
Proof.
  induction node as [node IH] using SceneNode_children_ind.
  intros Hsame w bg this.
  rewrite !Part000_renderNode_eq, !Part000_kidsOf_eq.
  apply renderNodeK_same; [apply Hsame; now left|].
  rewrite Forall_forall in IH. apply Forall_forall. intros c Hc.
  apply (IH c Hc). intros n Hn. apply Hsame. right.
  exact (subtree_of_child node c Hc n Hn).
Qed.

End SameExports.

(** A fragment in a tag is not blank. *)
Lemma truthy_trim_tagged (s : str) :
  truthy (trim (lit "<" ++ s ++ lit ">")) = true.
Proof.
  unfold trim, trimEnd. cbn [lit list_ascii_of_string map app trimStart].
  change (isWhiteSpace (N_of_ascii "<")) with false. cbv iota.
  change (N_of_ascii "<" :: s ++ [N_of_ascii ">"])
    with ((N_of_ascii "<" :: s) ++ [N_of_ascii ">"]).
  rewrite rev_app_distr. cbn [rev app trimStart].
  change (isWhiteSpace (N_of_ascii ">")) with false. cbv iota.
  cbn [rev]. now destruct (rev (rev s ++ [N_of_ascii "<"])).
Qed.

(** C8: when the export of a node fails in [base64] or [download] mode,
    [renderImage] returns the red paragraph [Error exporting image:]
    followed by the node's name (or by [Image] when the name is empty)
    and leaves the parser's fields as they were, and so does [renderNode]
    on a visible image-like node.  Each of the three loops that render
    siblings (the stack, the row and the selection) writes that paragraph
    in the place of the node and goes on with the siblings behind it from
    the same fields.  What a sibling renders to is the same under any
    exporter that answers alike for the nodes at and below the sibling,
    and whether a whole [parse] returns or throws is the same for any two
    exporters. *)
Theorem export_failure_is_recovered (h : Host) (node : SceneNode)
    (parentWidth : num) (parentBgColor : RgbColor) (mode : ImageExportMode)
    (this : Part000.Parser) (e : Exn)
    (availableWidth paddingLeft paddingRight lastBottomY : num)
    (container : SceneNode) (itemSpacing : num) (isSpaceBetween : bool)
    (count index : nat) (first : bool)
    (siblings : list (SceneNode * Part000.Renderer)) (others : list SceneNode)
    (exportAsync' : SceneNode -> ExportSettingsImage -> result bytes)
    (base64Encode' : bytes -> result str)
    (nodes : list SceneNode) (before before' : Part000.Parser) :
  mode <> placeholder ->
  (width node <? 1) || (height node <? 1) = false ->
  exportAsync h node {| png_width := Math_round (width node * 2) |} = Throw e ->
  let fragment :=
    html "<p style=`color:red;`>Error exporting image: "
    ++ orElse (name node) (lit "Image") ++ lit "</p>" in
  Part000.renderImage h node parentWidth mode this = (Ok fragment, this)
  /\ (visible node = true -> Part000.isImageLikeNode node = true ->
      Part000.renderNode h node parentWidth parentBgColor mode this
      = (Ok fragment, this)
      /\ Part000.stackedRows h availableWidth parentBgColor mode paddingLeft
           paddingRight ((node, Part000.renderNode h node) :: siblings)
           lastBottomY this
         = (rows <- Part000.stackedRows h availableWidth parentBgColor mode
                      paddingLeft paddingRight siblings (y node + height node) ;;
            ret (Part000.fillerRows h (Math_round (y node - lastBottomY))
                 ++ [lit "<tr>" ++ Part000.gutter h paddingLeft ++ lit "<td>"
                     ++ fragment ++ lit "</td>" ++ Part000.gutter h paddingRight
                     ++ lit "</tr>"]
                 ++ rows))%parser this
      /\ Part000.horizontalCells h container parentBgColor mode itemSpacing
           isSpaceBetween count ((node, Part000.renderNode h node) :: siblings)
           index this
         = (cells <- Part000.horizontalCells h container parentBgColor mode
                       itemSpacing isSpaceBetween count siblings (S index) ;;
            ret ((html "<td valign=`"
                  ++ match counterAxisAlignItems container with
                     | Some CA_MAX => lit "bottom"
                     | Some CA_CENTER => lit "middle"
                     | _ => lit "top"
                     end
                  ++ html "`>" ++ fragment ++ lit "</td>")
                 :: (if (index <? count - 1)%nat
                     then if isSpaceBetween
                          then [html "<td width=`100%`>&nbsp;</td>"]
                          else if (0 <? itemSpacing)
                          then [html "<td width=`" ++ show h itemSpacing
                                ++ html "` style=`width: " ++ show h itemSpacing
                                ++ html "px;`>&nbsp;</td>"]
                          else []
                     else [])
                 ++ cells))%parser this
      /\ Part000.selectionRows h mode (node :: others) first lastBottomY this
         = (rows <- Part000.selectionRows h mode others false
                      (y node + height node) ;;
            ret ((if negb first && (2 <? Math_round (y node - lastBottomY))
                  then [html "<tr><td height=`"
                        ++ show h (Math_round (y node - lastBottomY))
                        ++ html "` style=`height:"
                        ++ show h (Math_round (y node - lastBottomY))
                        ++ lit "px; font-size:"
                        ++ show h (Math_round (y node - lastBottomY))
                        ++ lit "px; line-height:"
                        ++ show h (Math_round (y node - lastBottomY))
                        ++ html "px;`>&nbsp;</td></tr>"]
                  else [])
                 ++ [lit "<tr><td>" ++ fragment ++ lit "</td></tr>"]
                 ++ rows))%parser this)
  /\ (forall sibling w bg fields,
        (forall n, In n (subtree sibling) -> sameExport h exportAsync' n) ->
        (forall b, base64Encode' b = base64Encode h b) ->
        Part000.renderNode (withExporter h exportAsync' base64Encode') sibling
          w bg mode fields
        = Part000.renderNode h sibling w bg mode fields)
  /\ sameFate (fst (Part000.parse h nodes mode before))
              (fst (Part000.parse (withExporter h exportAsync' base64Encode')
                      nodes mode before')).
Proof.
  intros Hmode Hsize Hfail fragment.
  assert (Himage : forall w, Part000.renderImage h node w mode this
                             = (Ok fragment, this)).
  { intros w. unfold Part000.renderImage. rewrite Hsize.
    destruct mode; [contradiction | |]; now rewrite Hfail. }
  split; [apply Himage | split; [|split]].
  - intros Hvisible Hlike.
    assert (Hnode : forall w bg, Part000.renderNode h node w bg mode this
                                 = (Ok fragment, this)).
    { intros w bg. rewrite Part000_renderNode_eq. unfold Part000.renderNodeK.
      rewrite Hvisible, Hlike. cbn [negb]. apply Himage. }
    split; [apply Hnode | split; [|split]].
    + cbn [Part000.stackedRows]. unfold bind at 1 3. rewrite Hnode.
      reflexivity.
    + cbn [Part000.horizontalCells]. unfold bind at 1 3. rewrite Hnode.
      reflexivity.
    + cbn [Part000.selectionRows]. unfold bind at 1 3. rewrite Hnode.
      assert (Htrim : truthy (trim fragment) = true).
      { replace fragment
          with (lit "<"
                ++ (html "p style=`color:red;`>Error exporting image: "
                    ++ orElse (name node) (lit "Image") ++ lit "</p")
                ++ lit ">")
          by (subst fragment; rewrite <- !app_assoc; reflexivity).
        apply truthy_trim_tagged. }
      rewrite Htrim, Hvisible. reflexivity.
  - intros sibling w bg fields Hsame Hencoder. symmetry.
    now apply renderNode_same.
  - pose proof (parse_related h exportAsync' base64Encode' nodes mode
                  before before') as H.
    unfold sameFate.
    destruct (fst (Part000.parse h nodes mode before)),
             (fst (Part000.parse _ nodes mode before')); exact H.
Qed.

Lemma export_failure_is_recovered_witness :
  let icon := Sample.vector "5:1" 0 24 24 in
  let h := Sample.failingHost in
  let upper := (Sample.upper, Part000.renderNode h Sample.upper) in
  let fragment :=
    html "<p style=`color:red;`>Error exporting image: "
    ++ orElse (name icon) (lit "Image") ++ lit "</p>" in
  Part000.renderImage h icon 600 download Part000.newParser
  = (Ok fragment, Part000.newParser)
  /\ (visible icon = true -> Part000.isImageLikeNode icon = true ->
      Part000.renderNode h icon 600 white download Part000.newParser
      = (Ok fragment, Part000.newParser)
      /\ Part000.stackedRows h 600 white download 0 0
           [(icon, Part000.renderNode h icon); upper] 0 Part000.newParser
         = (rows <- Part000.stackedRows h 600 white download 0 0 [upper]
                      (y icon + height icon) ;;
            ret (Part000.fillerRows h (Math_round (y icon - 0))
                 ++ [lit "<tr>" ++ Part000.gutter h 0 ++ lit "<td>"
                     ++ fragment ++ lit "</td>" ++ Part000.gutter h 0
                     ++ lit "</tr>"]
                 ++ rows))%parser Part000.newParser
      /\ Part000.horizontalCells h Sample.iconGroup white download 8 false 2
           [(icon, Part000.renderNode h icon); upper] 0 Part000.newParser
         = (cells <- Part000.horizontalCells h Sample.iconGroup white download
                       8 false 2 [upper] 1 ;;
            ret ((html "<td valign=`"
                  ++ match counterAxisAlignItems Sample.iconGroup with
                     | Some CA_MAX => lit "bottom"
                     | Some CA_CENTER => lit "middle"
                     | _ => lit "top"
                     end
                  ++ html "`>" ++ fragment ++ lit "</td>")
                 :: (if (0 <? 2 - 1)%nat
                     then if false
                          then [html "<td width=`100%`>&nbsp;</td>"]
                          else if (0 <? 8)
                          then [html "<td width=`" ++ show h 8
                                ++ html "` style=`width: " ++ show h 8
                                ++ html "px;`>&nbsp;</td>"]
                          else []
                     else [])
                 ++ cells))%parser Part000.newParser
      /\ Part000.selectionRows h download [icon; Sample.upper] true 0
           Part000.newParser
         = (rows <- Part000.selectionRows h download [Sample.upper] false
                      (y icon + height icon) ;;
            ret ((if negb true && (2 <? Math_round (y icon - 0))
                  then [html "<tr><td height=`"
                        ++ show h (Math_round (y icon - 0))
                        ++ html "` style=`height:"
                        ++ show h (Math_round (y icon - 0))
                        ++ lit "px; font-size:"
                        ++ show h (Math_round (y icon - 0))
                        ++ lit "px; line-height:"
                        ++ show h (Math_round (y icon - 0))
                        ++ html "px;`>&nbsp;</td></tr>"]
                  else [])
                 ++ [lit "<tr><td>" ++ fragment ++ lit "</td></tr>"]
                 ++ rows))%parser Part000.newParser)
  /\ (forall sibling w bg fields,
        (forall n, In n (subtree sibling) ->
                   sameExport h (exportAsync Sample.host) n) ->
        (forall b, base64Encode Sample.host b = base64Encode h b) ->
        Part000.renderNode
          (withExporter h (exportAsync Sample.host) (base64Encode Sample.host))
          sibling w bg download fields
        = Part000.renderNode h sibling w bg download fields)
  /\ sameFate (fst (Part000.parse h [icon; Sample.upper] download
                      Part000.newParser))
              (fst (Part000.parse
                      (withExporter h (exportAsync Sample.host)
                         (base64Encode Sample.host))
                      [icon; Sample.upper] download Part000.newParser)).
Proof.
  apply (export_failure_is_recovered Sample.failingHost
           (Sample.vector "5:1" 0 24 24) 600 white download Part000.newParser
           (HostError (lit "export failed")) 600 0 0 0 Sample.iconGroup 8 false
           2 0 true
           [(Sample.upper, Part000.renderNode Sample.failingHost Sample.upper)]
           [Sample.upper] (exportAsync Sample.host) (base64Encode Sample.host)
           [Sample.vector "5:1" 0 24 24; Sample.upper] Part000.newParser
           Part000.newParser).
  - discriminate.
  - reflexivity.
  - reflexivity.
Defined.

(** The paragraph of a failed export names the node, and a sibling
    without images renders to the same markup whether the export of the
    broken node fails or not. *)
Lemma failed_export_names_the_node :
  Part000.renderImage Sample.failingHost (Sample.vector "5:1" 0 24 24) 600
    base64 Part000.newParser
  = (Ok (html "<p style=`color:red;`>Error exporting image: 5:1</p>"),
     Part000.newParser)
  /\ Part000.renderNode Sample.failingHost Sample.upper 600 white download
       Part000.newParser
     = Part000.renderNode Sample.host Sample.upper 600 white download
         Part000.newParser.
Proof. split; vm_compute; reflexivity. Qed.

(** A failed export between two siblings, rendered: the error fragment
    stands in the row of the broken image, and the other rows are there. *)
Lemma broken_image_between_siblings :
  Part000.parse Sample.failingHost
    [Sample.upper; Sample.vector "5:1" 10 24 24;
     Sample.rectangle "5:2" 34 100 10 Sample.blue]
    download Part000.newParser
  = (Ok (html "<tr><td><table width=`100%` height=`10` cellpadding=`0` cellspacing=`0` border=`0`><tr><td bgcolor=`#ff0000` style=`background-color:#ff0000;height:10px;font-size:1px;line-height:1px`>&nbsp;</td></tr></table></td></tr><tr><td><p style=`color:red;`>Error exporting image: 5:1</p></td></tr><tr><td><table width=`100%` height=`10` cellpadding=`0` cellspacing=`0` border=`0`><tr><td bgcolor=`#0000ff` style=`background-color:#0000ff;height:10px;font-size:1px;line-height:1px`>&nbsp;</td></tr></table></td></tr>"),
     Part000.newParser).
Proof. vm_compute. reflexivity. Qed.

(** *** Text *)

Lemma replaceAll_app (c : N) (rep a b : str) :
  replaceAll c rep (a ++ b) = replaceAll c rep a ++ replaceAll c rep b.
Proof. apply flat_map_app. Qed.

Lemma escapeText_app (a b : str) :
  CodeTs.escapeText (a ++ b) = CodeTs.escapeText a ++ CodeTs.escapeText b.
Proof. unfold CodeTs.escapeText. now rewrite !replaceAll_app. Qed.

Lemma escapeText_unit (c : N) : CodeTs.escapeText [c] = escapeUnit c.
Proof.
  unfold escapeUnit.
  destruct (N.eqb_spec c AMP) as [->|Ha]; [reflexivity|].
  destruct (N.eqb_spec c LT) as [->|Hl]; [reflexivity|].
  destruct (N.eqb_spec c GT) as [->|Hg]; [reflexivity|].
  destruct (N.eqb_spec c NL) as [->|Hn]; [reflexivity|].
  unfold CodeTs.escapeText, replaceAll. cbn [flat_map app].
  apply N.eqb_neq in Ha, Hl, Hg, Hn.
  rewrite Ha. cbn [flat_map app]. rewrite Hl. cbn [flat_map app].
  rewrite Hg. cbn [flat_map app]. rewrite Hn. reflexivity.
Qed.

(** The replacements do not disturb one another: the ampersands of the
    entities and the brackets of the line break are not escaped again. *)
Lemma escapeText_by_unit (chars : str) :
  CodeTs.escapeText chars = flat_map escapeUnit chars
  /\ Part000.escapeText chars = flat_map escapeUnit chars.
Proof.
  assert (H : CodeTs.escapeText chars = flat_map escapeUnit chars).
  { induction chars as [|c rest IH]; [reflexivity|].
    change (c :: rest) with ([c] ++ rest).
    rewrite escapeText_app, escapeText_unit, IH. reflexivity. }
  split; [exact H | exact H].
Qed.

(** C9 fails on the call-to-action path: the label of a confirmed
    button is written into the anchor as it is, while the text path
    escapes the same characters. *)
Theorem cta_label_is_not_escaped :
  CodeTs.renderNode Sample.host [lit "1:1"]
    (Sample.button "Save <b>50%</b> & more") 600 white
  = Ok (html "<table border=`0` cellpadding=`0` cellspacing=`0` role=`presentation`><tr><td align=`center` style=`border-radius: 0px; background-color: #ff0000;` bgcolor=`#ff0000`><a href=`#` target=`_blank` style=`font-family: 'Inter', Arial, sans-serif; font-size: 16px; font-weight: 400; color: #0000ff; text-decoration: none; padding: 12px 24px; border-radius: 0px; display: inline-block;`>Save <b>50%</b> & more</a></td></tr></table>")
  /\ CodeTs.renderText Sample.host
       (Sample.textNode "1:3" "Save <b>50%</b> & more" 10) white
     = Ok (html "<table cellpadding=`0` cellspacing=`0` border=`0` role=`presentation` width=`100%`><tr><td  style=`text-align:left;color:#0000ff;font-family:Inter, sans-serif;font-size:16px`>Save &lt;b&gt;50%&lt;/b&gt; &amp; more</td></tr></table>")
  /\ Part000.renderText Sample.host
       (Sample.textNode "1:3" "Save <b>50%</b> & more" 10) white
     = Ok (html "<table cellpadding=`0` cellspacing=`0` border=`0` width=`100%`><tr><td align=`left` style=`text-align: left;`><span style=`color:#0000ff;font-family:'Inter', sans-serif;font-size:16px`>Save &lt;b&gt;50%&lt;/b&gt; &amp; more</span></td></tr></table>").
Proof. split; [|split]; vm_compute; reflexivity. Qed.

(** *** Degenerate nodes *)




(* ================================================================== *)
(** ** Further properties of the two revisions *)
(* ================================================================== *)

(** *** The background of the ancestors *)

Lemma CodeTs_chain_below_page (below above : list Ancestor) (page : Ancestor) :
  anc_type page = PAGE ->
  CodeTs.findParentBackgroundColor_chain (below ++ page :: above)
  = CodeTs.findParentBackgroundColor_chain below.
Proof.
  intros Hpage. induction below as [|a below IH]; cbn [app].
  - cbn [CodeTs.findParentBackgroundColor_chain]. now rewrite Hpage.
  - cbn [CodeTs.findParentBackgroundColor_chain]. rewrite IH. reflexivity.
Qed.

Lemma Part000_chain_below_page (below above : list Ancestor) (page : Ancestor) :
  anc_type page = PAGE ->
  Part000.findParentBackgroundColor_chain (below ++ page :: above)
  = Part000.findParentBackgroundColor_chain below.
Proof.
  intros Hpage. induction below as [|a below IH]; cbn [app].
  - cbn [Part000.findParentBackgroundColor_chain]. now rewrite Hpage.
  - cbn [Part000.findParentBackgroundColor_chain]. rewrite IH. reflexivity.
Qed.

(** X1: the walk up the ancestors stops at the page: what stands above
    the first page in the chain of parents has no part in the
    background colour, in either revision. *)
Theorem ancestors_above_the_page_are_not_read (node : SceneNode)
    (below above : list Ancestor) (page : Ancestor) :
  parent node = below ++ page :: above ->
  anc_type page = PAGE ->
  CodeTs.findParentBackgroundColor node
  = CodeTs.findParentBackgroundColor (withParent below node)
  /\ Part000.findParentBackgroundColor node
     = Part000.findParentBackgroundColor (withParent below node).
Proof.
  intros Hparent Hpage.
  unfold CodeTs.findParentBackgroundColor, Part000.findParentBackgroundColor.
  rewrite Hparent. cbn [withParent parent].
  split;
    [now apply CodeTs_chain_below_page | now apply Part000_chain_below_page].
Qed.

Lemma ancestors_above_the_page_are_not_read_witness :
  CodeTs.findParentBackgroundColor
    (withParent [ {| anc_type := GROUP; anc_fills := None |};
                  {| anc_type := PAGE; anc_fills := None |};
                  {| anc_type := FRAME;
                     anc_fills := Some (Val [SOLID None None Sample.red]) |} ]
       Sample.upper)
  = CodeTs.findParentBackgroundColor
      (withParent [ {| anc_type := GROUP; anc_fills := None |} ]
         (withParent [ {| anc_type := GROUP; anc_fills := None |};
                       {| anc_type := PAGE; anc_fills := None |};
                       {| anc_type := FRAME;
                          anc_fills := Some (Val [SOLID None None Sample.red]) |} ]
            Sample.upper))
  /\ Part000.findParentBackgroundColor
       (withParent [ {| anc_type := GROUP; anc_fills := None |};
                     {| anc_type := PAGE; anc_fills := None |};
                     {| anc_type := FRAME;
                        anc_fills := Some (Val [SOLID None None Sample.red]) |} ]
          Sample.upper)
     = Part000.findParentBackgroundColor
         (withParent [ {| anc_type := GROUP; anc_fills := None |} ]
            (withParent [ {| anc_type := GROUP; anc_fills := None |};
                          {| anc_type := PAGE; anc_fills := None |};
                          {| anc_type := FRAME;
                             anc_fills := Some (Val [SOLID None None Sample.red]) |} ]
               Sample.upper)).
Proof.
  apply (ancestors_above_the_page_are_not_read _
           [ {| anc_type := GROUP; anc_fills := None |} ]
           [ {| anc_type := FRAME;
                anc_fills := Some (Val [SOLID None None Sample.red]) |} ]
           {| anc_type := PAGE; anc_fills := None |}).
  - reflexivity.
  - reflexivity.
Defined.

Lemma CodeTs_chain_origin (chain : list Ancestor) :
  (CodeTs.findParentBackgroundColor_chain chain = white
   /\ exists below,
        Forall passedOver below
        /\ (chain = below
            \/ exists page above,
                 chain = below ++ page :: above /\ anc_type page = PAGE))
  \/ exists below ancestor above fs v o,
       chain = below ++ ancestor :: above
       /\ Forall passedOver below
       /\ anc_type ancestor <> PAGE
       /\ anc_fills ancestor = Some (Val fs)
       /\ find visibleSolid fs
          = Some (SOLID v o (CodeTs.findParentBackgroundColor_chain chain))
       /\ (0.99 <=? orDefault o 1) = true.
Proof.
  induction chain as [|a up IH].
  - left. split; [reflexivity|]. exists []. split; [constructor | now left].
  - cbn [CodeTs.findParentBackgroundColor_chain].
    destruct (NodeType_eqb (anc_type a) PAGE) eqn:Hpage.
    { left. split; [reflexivity|]. exists []. split; [constructor | right].
      exists a, up. split; [reflexivity|].
      destruct (anc_type a); try discriminate Hpage. reflexivity. }
    assert (Hnopage : anc_type a <> PAGE)
      by (intros H; rewrite H in Hpage; discriminate).
    assert (Hup : opaqueFill a = None ->
              (CodeTs.findParentBackgroundColor_chain up = white
               /\ exists below,
                    Forall passedOver below
                    /\ (a :: up = below
                        \/ exists page above,
                             a :: up = below ++ page :: above
                             /\ anc_type page = PAGE))
              \/ exists below ancestor above fs v o,
                   a :: up = below ++ ancestor :: above
                   /\ Forall passedOver below
                   /\ anc_type ancestor <> PAGE
                   /\ anc_fills ancestor = Some (Val fs)
                   /\ find visibleSolid fs
                      = Some (SOLID v o (CodeTs.findParentBackgroundColor_chain up))
                   /\ (0.99 <=? orDefault o 1) = true).
    { intros Hnone.
      assert (Ha : passedOver a) by now split.
      destruct IH as [[Hwhite [below [Hbelow Hshape]]]
                     |[below [b [above [fs [v [o [Hshape [Hbelow H]]]]]]]]].
      - left. split; [exact Hwhite|]. exists (a :: below).
        split; [now constructor|].
        destruct Hshape as [->|[page [above [-> Hp]]]]; [now left | right].
        now exists page, above.
      - right. exists (a :: below), b, above, fs, v, o.
        split; [now rewrite Hshape|]. split; [now constructor | exact H]. }
    unfold opaqueFill in Hup.
    destruct (anc_fills a) as [[|[|f fs]]|] eqn:Hfills; try (now apply Hup).
    change (find (fun f0 => isSolid f0 && notHidden f0) (f :: fs))
      with (find visibleSolid (f :: fs)).
    destruct (find visibleSolid (f :: fs)) as [[v o c| | |]|] eqn:Hfind;
      try (now apply Hup).
    destruct (0.99 <=? orDefault o 1) eqn:Hop; [|now apply Hup].
    right. exists [], a, up, (f :: fs), v, o.
    repeat split; try assumption. constructor.
Qed.

(** X2: the background colour found for a node is the colour of the
    first visible solid fill of the nearest ancestor below the page whose
    first visible solid fill has opacity at least 0.99: every ancestor
    nearer to the node is no page and offers no such fill, so a
    translucent fill is passed over, never blended.  When the walk
    reaches a page, or the top, past ancestors that offer none, the
    colour is white. *)
Theorem parent_background_is_white_or_an_opaque_fill (node : SceneNode) :
  (CodeTs.findParentBackgroundColor node = white
   /\ exists below,
        Forall passedOver below
        /\ (parent node = below
            \/ exists page above,
                 parent node = below ++ page :: above /\ anc_type page = PAGE))
  \/ exists below ancestor above fs v o,
       parent node = below ++ ancestor :: above
       /\ Forall passedOver below
       /\ anc_type ancestor <> PAGE
       /\ anc_fills ancestor = Some (Val fs)
       /\ find visibleSolid fs
          = Some (SOLID v o (CodeTs.findParentBackgroundColor node))
       /\ (0.99 <=? orDefault o 1) = true.
Proof. apply CodeTs_chain_origin. Qed.

(** A translucent frame between the node and an opaque one is passed
    over; an opaque frame above the page is not reached. *)
Lemma nearest_opaque_ancestor_example :
  let translucent :=
    {| anc_type := FRAME; anc_fills := Some (Val [SOLID None (Some 0.5) Sample.red]) |} in
  let opaque :=
    {| anc_type := FRAME; anc_fills := Some (Val [SOLID None None Sample.blue]) |} in
  let page := {| anc_type := PAGE; anc_fills := None |} in
  CodeTs.findParentBackgroundColor_chain [translucent; opaque; page]
  = Sample.blue
  /\ CodeTs.findParentBackgroundColor_chain [translucent; page; opaque] = white.
Proof. split; vm_compute; reflexivity. Qed.

(** *** Borders *)

Lemma figmaColorToHex_truthy (h : Host) (c : RgbColor) :
  truthy (figmaColorToHex h c) = true.
Proof. reflexivity. Qed.

Lemma CodeTs_resolved_stroke (h : Host) (v : option bool) (o : option num)
    (c : RgbColor) (parentBg : RgbColor) :
  notHidden (SOLID v o c) = true ->
  hex (CodeTs.getEffectiveBackgroundColorForFills h [SOLID v o c] parentBg)
  = Some (figmaColorToHex h
            (rgb (CodeTs.getEffectiveBackgroundColorForFills h [SOLID v o c]
                    parentBg))).
Proof.
  intros Hv. unfold CodeTs.getEffectiveBackgroundColorForFills.
  cbn [find isSolid andb]. rewrite Hv.
  now destruct (0.99 <=? orDefault o 1).
Qed.

(** X3: when a node gets a border declaration, its stroke weight is a
    number that does not round to 0, the width written is the rounded
    weight, and the colour is the one of its first visible solid stroke,
    resolved against the background found among the ancestors; the
    fallback [#000000] is never written. *)
Theorem border_style_is_the_rounded_weight_and_the_stroke_colour (h : Host)
    (node : SceneNode) (s : str) :
  CodeTs.getBorderStyles h node = Some s ->
  exists ss sw v o c,
    strokes node = Some ss /\ strokeWeight node = Some (Val sw)
    /\ find (fun p => notHidden p && isSolid p) ss = Some (SOLID v o c)
    /\ (Math_round sw =? 0) = false
    /\ s = lit "border: " ++ show h (Math_round sw) ++ lit "px solid "
           ++ figmaColorToHex h
                (rgb (CodeTs.getEffectiveBackgroundColorForFills h [SOLID v o c]
                        (CodeTs.findParentBackgroundColor node)))
           ++ lit ";".
Proof.
  unfold CodeTs.getBorderStyles.
  destruct (strokes node) as [[|p ss]|] eqn:Hss; try discriminate.
  destruct (strokeWeight node) as [[|sw]|] eqn:Hsw; try discriminate.
  destruct (sw =? 0); [discriminate|].
  destruct (find _ (p :: ss)) as [[v o c| | |]|] eqn:Hfind; try discriminate.
  destruct (Math_round sw =? 0) eqn:Hw; [discriminate|].
  intros H. injection H as <-.
  exists (p :: ss), sw, v, o, c. repeat split; try assumption; try reflexivity.
  apply find_some in Hfind. destruct Hfind as [_ Hp].
  apply andb_true_iff in Hp. destruct Hp as [Hv _].
  rewrite (CodeTs_resolved_stroke h v o c _ Hv).
  cbn [orDefault]. unfold orElse. now rewrite figmaColorToHex_truthy.
Qed.

Lemma border_style_is_the_rounded_weight_and_the_stroke_colour_witness :
  CodeTs.getBorderStyles Sample.host (Sample.outlined 1.5)
  = Some (lit "border: 2px solid #800080;")
  /\ exists ss sw v o c,
       strokes (Sample.outlined 1.5) = Some ss
       /\ strokeWeight (Sample.outlined 1.5) = Some (Val sw)
       /\ find (fun p => notHidden p && isSolid p) ss = Some (SOLID v o c)
       /\ (Math_round sw =? 0) = false
       /\ lit "border: 2px solid #800080;"
          = lit "border: " ++ show Sample.host (Math_round sw) ++ lit "px solid "
            ++ figmaColorToHex Sample.host
                 (rgb (CodeTs.getEffectiveBackgroundColorForFills Sample.host
                         [SOLID v o c]
                         (CodeTs.findParentBackgroundColor (Sample.outlined 1.5))))
            ++ lit ";".
Proof.
  split; [reflexivity|].
  apply (border_style_is_the_rounded_weight_and_the_stroke_colour Sample.host
           (Sample.outlined 1.5)).
  reflexivity.
Defined.

(** The weight is tested after rounding as well: a hairline stroke
    gives no border. *)
Lemma hairline_stroke_gives_no_border :
  CodeTs.getBorderStyles Sample.host (Sample.outlined 0.4) = None.
Proof. reflexivity. Qed.

(** *** The classes of a container *)

Lemma isPotentialCta_children (node : SceneNode) :
  CodeTs.isPotentialCta node = true ->
  exists c1 c2,
    children node = Some [c1; c2]
    /\ existsb (fun c => NodeType_eqb (type c) TEXT) [c1; c2] = true
    /\ (NodeType_eqb (type c1) TEXT = false
        \/ NodeType_eqb (type c2) TEXT = false).
Proof.
  unfold CodeTs.isPotentialCta.
  destruct (negb _ && negb _); [discriminate|].
  destruct (children node) as [[|c1 [|c2 [|c3 cs]]]|]; try discriminate.
  cbn [List.length Nat.eqb negb]. intros H.
  apply andb_true_iff in H. destruct H as [Htext Hshape].
  exists c1, c2. repeat split; [exact Htext|].
  cbn [existsb] in Hshape. rewrite orb_false_r in Hshape.
  apply orb_true_iff in Hshape.
  destruct Hshape as [H|H]; [left | right]; now apply isShapeType_not_text.
Qed.

(** X4: the three classes [renderNode] tests a container for exclude
    one another: no node is both an icon group and a bullet item, or an
    icon group and a call-to-action candidate, or a bullet item and a
    call-to-action candidate; so the order of the three tests decides
    nothing. *)
Theorem node_classes_exclude_one_another (node : SceneNode) :
  CodeTs.isIconGroup node && CodeTs.isPotentialCta node = false
  /\ saysYes (CodeTs.isBulletPoint node) && CodeTs.isPotentialCta node = false
  /\ CodeTs.isIconGroup node && saysYes (CodeTs.isBulletPoint node) = false.
Proof.
  split; [|split].
  - destruct (CodeTs.isPotentialCta node) eqn:Hcta; [|apply andb_false_r].
    destruct (isPotentialCta_children node Hcta) as [c1 [c2 [Hcs [Htext _]]]].
    now rewrite (isIconGroup_text_child node [c1; c2] Hcs Htext).
  - destruct (CodeTs.isPotentialCta node) eqn:Hcta; [|apply andb_false_r].
    destruct (isPotentialCta_children node Hcta) as [c1 [c2 [Hcs [_ Hshape]]]].
    now rewrite (isBulletPoint_shape_child node c1 c2 Hcs Hshape).
  - destruct (saysYes (CodeTs.isBulletPoint node)) eqn:Hbullet;
      [|apply andb_false_r].
    rewrite andb_true_r. unfold CodeTs.isBulletPoint in Hbullet.
    destruct (negb _ || negb _); [discriminate|].
    destruct (layoutMode node) as [[| |]|]; try discriminate.
    destruct (children node) as [[|c1 [|c2 [|c3 cs]]]|] eqn:Hcs;
      try discriminate.
    destruct (NodeType_eqb (type c1) TEXT) eqn:Ht1; [|discriminate].
    apply (isIconGroup_text_child node [c1; c2] Hcs).
    cbn [existsb]. now rewrite Ht1.
Qed.

Lemma isVectorial_subtree (node : SceneNode) :
  CodeTs.isVectorial node = true ->
  (childrenOf node = [] -> In (type node) [VECTOR; ELLIPSE; LINE; RECTANGLE])
  /\ Forall (fun d => type d <> TEXT
                      /\ (childrenOf d = []
                          -> In (type d) [VECTOR; ELLIPSE; LINE; RECTANGLE]))
            (findAll node).
Proof.
  induction node as [node IH] using SceneNode_children_ind.
  rewrite isVectorial_eq, findAll_eq. unfold childrenOf in *.
  destruct (children node) as [[|c cs]|]; cbn [orDefault] in *.
  - intros H. split; [intros _ | constructor].
    destruct (type node); try discriminate H; simpl; tauto.
  - intros H. split; [discriminate|].
    rewrite forallb_forall in H. rewrite Forall_forall in IH.
    apply Forall_forall. intros d Hd. apply in_flat_map in Hd.
    destruct Hd as [k [Hk Hd]]. specialize (H k Hk).
    apply andb_true_iff in H. destruct H as [Htext Hvec].
    destruct (IH k Hk Hvec) as [Hleaf Hbelow].
    destruct Hd as [<-|Hd].
    + split; [|exact Hleaf]. intros Ht. rewrite Ht in Htext. discriminate.
    + rewrite Forall_forall in Hbelow. now apply Hbelow.
  - intros H. split; [intros _ | constructor].
    destruct (type node); try discriminate H; simpl; tauto.
Qed.

(** X5: below an icon group there is no text node, at any depth, and
    every node below it that has no children is a vector, an ellipse, a
    line or a rectangle. *)
Theorem icon_group_holds_shapes_only (node : SceneNode) :
  CodeTs.isIconGroup node = true ->
  Forall (fun d => type d <> TEXT
                   /\ (childrenOf d = []
                       -> In (type d) [VECTOR; ELLIPSE; LINE; RECTANGLE]))
         (findAll node).
Proof.
  unfold CodeTs.isIconGroup.
  destruct (children node) as [[|c cs]|]; try discriminate.
  intros H. now apply isVectorial_subtree.
Qed.

Lemma icon_group_holds_shapes_only_witness :
  CodeTs.isIconGroup (Sample.frame "5:0" [Sample.iconGroup; Sample.upper]) = true
  /\ Forall (fun d => type d <> TEXT
                      /\ (childrenOf d = []
                          -> In (type d) [VECTOR; ELLIPSE; LINE; RECTANGLE]))
            (findAll (Sample.frame "5:0" [Sample.iconGroup; Sample.upper])).
Proof.
  split; [reflexivity|].
  apply (icon_group_holds_shapes_only
           (Sample.frame "5:0" [Sample.iconGroup; Sample.upper])).
  reflexivity.
Defined.

(** *** Escaped text *)

Lemma count_occ_unit (c x : N) :
  count_occ N.eq_dec [c] x = if (c =? x)%N then 1%nat else 0%nat.
Proof.
  cbn [count_occ]. destruct (N.eq_dec c x) as [->|Hne].
  - now rewrite N.eqb_refl.
  - apply N.eqb_neq in Hne. now rewrite Hne.
Qed.

Lemma escapeUnit_counts (c : N) :
  count_occ N.eq_dec (escapeUnit c) LT = count_occ N.eq_dec [c] NL
  /\ count_occ N.eq_dec (escapeUnit c) GT = count_occ N.eq_dec [c] NL
  /\ count_occ N.eq_dec (escapeUnit c) AMP
     = (count_occ N.eq_dec [c] AMP + count_occ N.eq_dec [c] LT
        + count_occ N.eq_dec [c] GT)%nat.
Proof.
  unfold escapeUnit.
  destruct (N.eqb_spec c AMP) as [->|Ha]; [repeat split; reflexivity|].
  destruct (N.eqb_spec c LT) as [->|Hl]; [repeat split; reflexivity|].
  destruct (N.eqb_spec c GT) as [->|Hg]; [repeat split; reflexivity|].
  destruct (N.eqb_spec c NL) as [->|Hn]; [repeat split; reflexivity|].
  apply N.eqb_neq in Ha, Hl, Hg, Hn.
  rewrite !count_occ_unit, Ha, Hl, Hg, Hn. repeat split; reflexivity.
Qed.

(** X6: in escaped text every [<] and every [>] belongs to the line
    break written for a newline of the source text, and there is one
    ampersand for each [&], [<] and [>] of the source text: the text
    brings no markup of its own.  The two revisions escape alike. *)
Theorem escaped_text_brings_no_markup (chars : str) :
  count_occ N.eq_dec (CodeTs.escapeText chars) LT = count_occ N.eq_dec chars NL
  /\ count_occ N.eq_dec (CodeTs.escapeText chars) GT = count_occ N.eq_dec chars NL
  /\ count_occ N.eq_dec (CodeTs.escapeText chars) AMP
     = (count_occ N.eq_dec chars AMP + count_occ N.eq_dec chars LT
        + count_occ N.eq_dec chars GT)%nat
  /\ Part000.escapeText chars = CodeTs.escapeText chars.
Proof.
  assert (Hsame : Part000.escapeText chars = CodeTs.escapeText chars)
    by reflexivity.
  cut (count_occ N.eq_dec (flat_map escapeUnit chars) LT
       = count_occ N.eq_dec chars NL
       /\ count_occ N.eq_dec (flat_map escapeUnit chars) GT
          = count_occ N.eq_dec chars NL
       /\ count_occ N.eq_dec (flat_map escapeUnit chars) AMP
          = (count_occ N.eq_dec chars AMP + count_occ N.eq_dec chars LT
             + count_occ N.eq_dec chars GT)%nat).
  { destruct (escapeText_by_unit chars) as [<- _]. tauto. }
  clear Hsame.
  induction chars as [|c rest [IHl [IHg IHa]]]; [repeat split; reflexivity|].
  cbn [flat_map]. change (c :: rest) with ([c] ++ rest).
  rewrite !count_occ_app.
  destruct (escapeUnit_counts c) as [-> [-> ->]].
  rewrite IHl, IHg, IHa. repeat split; lia.
Qed.

(** *** The confirmed ids *)

Lemma CodeTs_kidsOf_eq (h : Host) (ids : list str) (n : SceneNode) :
  CodeTs.kidsOf h ids n = map (pairWith (CodeTs.renderNode h ids)) (childrenOf n).
Proof.
  unfold CodeTs.kidsOf, overChildren, childrenOf.
  now destruct (children n).
Qed.

Lemma fold_left_pairWith {R} (f : SceneNode -> R) (cs : list SceneNode)
    (sum : num) :
  fold_left (fun sum c => sum + width (fst c)) (map (pairWith f) cs) sum
  = fold_left (fun sum c => sum + width c) cs sum.
Proof.
  revert sum. induction cs as [|c cs IH]; intros sum; [reflexivity|].
  cbn [map fold_left pairWith fst]. apply IH.
Qed.

Section SameChildren.
Variable h : Host.
Variables render render' : SceneNode -> CodeTs.Renderer.

Lemma CodeTs_stackedRows_ext availableWidth parentBgColor paddingLeft
    paddingRight (cs : list SceneNode) :
  Forall (fun c => sameOutput (render c) (render' c)) cs ->
  forall lastBottomY,
    CodeTs.stackedRows h availableWidth parentBgColor paddingLeft paddingRight
      (map (pairWith render) cs) lastBottomY
    = CodeTs.stackedRows h availableWidth parentBgColor paddingLeft paddingRight
        (map (pairWith render') cs) lastBottomY.
Proof.
  induction 1 as [|c cs Hc _ IH]; intros lastBottomY; [reflexivity|].
  cbn [map pairWith CodeTs.stackedRows]. now rewrite Hc, IH.
Qed.

Lemma CodeTs_horizontalCells_ext parentBgColor itemSpacing totalContentWidth
    count (cs : list SceneNode) :
  Forall (fun c => sameOutput (render c) (render' c)) cs ->
  forall index,
    CodeTs.horizontalCells h parentBgColor itemSpacing totalContentWidth count
      (map (pairWith render) cs) index
    = CodeTs.horizontalCells h parentBgColor itemSpacing totalContentWidth count
        (map (pairWith render') cs) index.
Proof.
  induction 1 as [|c cs Hc _ IH]; intros index; [reflexivity|].
  cbn [map pairWith CodeTs.horizontalCells]. now rewrite Hc, IH.
Qed.

Lemma CodeTs_renderContainerK_ext (cs : list SceneNode) node parentWidth
    parentBgColor isRoot :
  Forall (fun c => sameOutput (render c) (render' c)) cs ->
  CodeTs.renderContainerK h (map (pairWith render) cs) node parentWidth
    parentBgColor isRoot
  = CodeTs.renderContainerK h (map (pairWith render') cs) node parentWidth
      parentBgColor isRoot.
Proof.
  intros Hcs.
  unfold CodeTs.renderContainerK, CodeTs.renderStackedChildrenK,
    CodeTs.renderHorizontalChildrenK.
  rewrite !filter_pairWith, !sortByY_pairWith, !length_map, !fold_left_pairWith.
  pose proof (Forall_filter _ visible _ Hcs) as Hvis.
  pose proof (Forall_sortByY y _ _ Hvis) as Hsort.
  destruct (layoutMode node) as [[| |]|];
    rewrite ?(CodeTs_horizontalCells_ext _ _ _ _ _ Hvis),
      ?(fun a b c d => CodeTs_stackedRows_ext a b c d _ Hvis),
      ?(fun a b c d => CodeTs_stackedRows_ext a b c d _ Hsort);
    reflexivity.
Qed.

End SameChildren.

Lemma CodeTs_renderNodeK_leaf (h : Host) (ids ids' : list str)
    (kids kids' : list CodeTs.Kid) (node : SceneNode) :
  CodeTs.isContainerType (type node) = false ->
  sameOutput (CodeTs.renderNodeK h ids kids node)
             (CodeTs.renderNodeK h ids' kids' node).
Proof.
  intros Htype parentWidth parentBgColor. unfold CodeTs.renderNodeK.
  destruct (negb (visible node)); [reflexivity|].
  destruct (type node); try discriminate Htype; reflexivity.
Qed.

Lemma CodeTs_renderNodeK_ext (h : Host) (ids ids' : list str)
    (render render' : SceneNode -> CodeTs.Renderer) (cs : list SceneNode)
    (node : SceneNode) :
  Forall (fun c => sameOutput (render c) (render' c)) cs ->
  (CodeTs.isPotentialCta node = true -> sameAnswer ids ids' node) ->
  sameOutput (CodeTs.renderNodeK h ids (map (pairWith render) cs) node)
             (CodeTs.renderNodeK h ids' (map (pairWith render') cs) node).
Proof.
  intros Hcs Hid parentWidth parentBgColor. unfold CodeTs.renderNodeK.
  rewrite (CodeTs_renderContainerK_ext h render render' cs node parentWidth
             parentBgColor false Hcs).
  destruct (CodeTs.isPotentialCta node).
  - rewrite (Hid eq_refl). reflexivity.
  - now rewrite !andb_false_r.
Qed.

Lemma scope_of_child (node c : SceneNode) :
  CodeTs.isContainerType (type node) = true ->
  In c (childrenOf node) -> incl (scope c) (scope node).
Proof.
  intros Htype Hc n Hn. unfold scope in *. rewrite Htype. right.
  rewrite findAll_eq. apply in_flat_map. exists c. split; [exact Hc|].
  destruct Hn as [<-|Hn]; [now left | right].
  now destruct (CodeTs.isContainerType (type c)).
Qed.

Lemma CodeTs_renderNode_ext (h : Host) (ids ids' : list str) (node : SceneNode) :
  (forall n, In n (scope node) -> CodeTs.isPotentialCta n = true ->
             sameAnswer ids ids' n) ->
  sameOutput (CodeTs.renderNode h ids node) (CodeTs.renderNode h ids' node).
Proof.
  induction node as [node IH] using SceneNode_children_ind. intros Hids.
  rewrite !CodeTs_renderNode_eq.
  destruct (CodeTs.isContainerType (type node)) eqn:Htype;
    [|now apply CodeTs_renderNodeK_leaf].
  rewrite !CodeTs_kidsOf_eq. apply CodeTs_renderNodeK_ext.
  - rewrite Forall_forall in IH. apply Forall_forall. intros c Hc.
    apply (IH c Hc). intros n Hn. apply Hids.
    exact (scope_of_child node c Htype Hc n Hn).
  - apply Hids. now left.
Qed.

Lemma CodeTs_selectionRows_ext (h : Host) (ids ids' : list str)
    (nodes : list SceneNode) :
  Forall (fun node => sameOutput (CodeTs.renderNode h ids node)
                                 (CodeTs.renderNode h ids' node)) nodes ->
  forall first lastBottomY,
    CodeTs.selectionRows h ids nodes first lastBottomY
    = CodeTs.selectionRows h ids' nodes first lastBottomY.
Proof.
  induction 1 as [|node nodes Hnode _ IH]; intros first lastBottomY;
    [reflexivity|].
  cbn [CodeTs.selectionRows]. now rewrite Hnode, IH.
Qed.

(** X7: what [parse] returns depends on the confirmed ids only through
    what they say of the call-to-action candidates the message handler
    collects from the selection: two lists of ids that agree on the
    candidates give the same markup.  With no candidate in the
    selection, the confirmed ids decide nothing. *)
Theorem parse_reads_the_answers_for_the_candidates_only (h : Host)
    (ids ids' : list str) (nodes : list SceneNode) :
  Forall (sameAnswer ids ids') (CodeTs.potentialCtas nodes) ->
  CodeTs.parse h ids nodes = CodeTs.parse h ids' nodes.
Proof.
  intros Hids.
  assert (Hall : forall node n, In node nodes -> In n (scope node) ->
                   CodeTs.isPotentialCta n = true -> sameAnswer ids ids' n).
  { intros node n Hnode Hn Hcta. rewrite Forall_forall in Hids. apply Hids.
    unfold CodeTs.potentialCtas. apply filter_In. split; [|exact Hcta].
    unfold CodeTs.allNodes. apply in_flat_map. exists node. now split. }
  assert (Hnodes : Forall (fun node => sameOutput (CodeTs.renderNode h ids node)
                                                  (CodeTs.renderNode h ids' node))
                     nodes).
  { apply Forall_forall. intros node Hnode. apply CodeTs_renderNode_ext.
    intros n. now apply Hall. }
  destruct nodes as [|node [|node' nodes]]; [reflexivity | |].
  - unfold CodeTs.parse.
    destruct (existsb (NodeType_eqb (type node)) [FRAME; COMPONENT; INSTANCE])
      eqn:Htype.
    + unfold CodeTs.renderContainer. rewrite !CodeTs_kidsOf_eq.
      rewrite (CodeTs_renderContainerK_ext h (CodeTs.renderNode h ids)
                 (CodeTs.renderNode h ids') (childrenOf node)); [reflexivity|].
      apply Forall_forall. intros c Hc. apply CodeTs_renderNode_ext.
      intros n Hn. apply (Hall node); [now left|].
      apply (scope_of_child node c); [|exact Hc | exact Hn].
      destruct (type node); try discriminate Htype; reflexivity.
    + inversion Hnodes as [|? ? Hnode _]. now rewrite Hnode.
  - unfold CodeTs.parse.
    rewrite (CodeTs_selectionRows_ext h ids ids' _
               (Forall_sortByY y _ _ Hnodes)).
    reflexivity.
Qed.

Lemma parse_reads_the_answers_for_the_candidates_only_witness :
  CodeTs.potentialCtas [Sample.upper; Sample.button "Buy"] = [Sample.button "Buy"]
  /\ CodeTs.parse Sample.host [lit "1:1"; lit "3:1"; lit "1:3"]
       [Sample.upper; Sample.button "Buy"]
     = CodeTs.parse Sample.host [lit "1:1"] [Sample.upper; Sample.button "Buy"].
Proof.
  split; [reflexivity|].
  apply (parse_reads_the_answers_for_the_candidates_only Sample.host
           [lit "1:1"; lit "3:1"; lit "1:3"] [lit "1:1"]
           [Sample.upper; Sample.button "Buy"]).
  repeat constructor.
Defined.

(** *** A button whose label mixes fonts *)

(** X8: a confirmed call-to-action candidate whose label is set in more
    than one font, or in more than one size, renders as the empty
    string: the button is left out of the markup, without an error. *)
Theorem confirmed_cta_with_mixed_label_renders_nothing (h : Host)
    (confirmedCtaIds : list str) (node textNode : SceneNode)
    (cs : list SceneNode) (parentWidth : num) (parentBgColor : RgbColor) :
  visible node = true ->
  CodeTs.isPotentialCta node = true ->
  inArray (id node) confirmedCtaIds = true ->
  children node = Some cs ->
  find (fun n => NodeType_eqb (type n) TEXT) cs = Some textNode ->
  fontName textNode = Some MIXED \/ fontSize textNode = Some MIXED ->
  CodeTs.renderNode h confirmedCtaIds node parentWidth parentBgColor = Ok [].
Proof.
  intros Hvis Hcta Hid Hcs Htext Hmixed.
  rewrite (confirmed_cta_renders_as_button h confirmedCtaIds node parentWidth
             parentBgColor Hvis Hcta Hid).
  unfold CodeTs.renderCta. rewrite Hcs, Htext.
  destruct Hmixed as [-> | ->]; [reflexivity|].
  now destruct (fontName textNode) as [[|fn]|].
Qed.

Lemma confirmed_cta_with_mixed_label_renders_nothing_witness :
  CodeTs.renderNode Sample.host [lit "8:0"]
    (Sample.frame "8:0" [Sample.rectangle "8:1" 0 120 40 Sample.red;
                         Sample.twoFonts "8:2" "Buy " "now" 10])
    600 white
  = Ok [].
Proof.
  apply (confirmed_cta_with_mixed_label_renders_nothing Sample.host [lit "8:0"]
           (Sample.frame "8:0" [Sample.rectangle "8:1" 0 120 40 Sample.red;
                                Sample.twoFonts "8:2" "Buy " "now" 10])
           (Sample.twoFonts "8:2" "Buy " "now" 10)
           [Sample.rectangle "8:1" 0 120 40 Sample.red;
            Sample.twoFonts "8:2" "Buy " "now" 10]).
  - reflexivity.
  - reflexivity.
  - reflexivity.
  - reflexivity.
  - reflexivity.
  - left. reflexivity.
Defined.

(** Unconfirmed, the same frame is rendered with its label. *)
Lemma unconfirmed_mixed_label_is_rendered :
  CodeTs.renderNode Sample.host []
    (Sample.frame "8:0" [Sample.rectangle "8:1" 0 120 40 Sample.red;
                         Sample.twoFonts "8:2" "Buy " "now" 10])
    600 white
  <> Ok [].
Proof. vm_compute. discriminate. Qed.

(** *** Hidden children *)

Lemma filter_without_hidden (pre post : list SceneNode) (c : SceneNode) :
  visible c = false ->
  filter visible (pre ++ c :: post) = filter visible (pre ++ post).
Proof.
  intros Hc. rewrite !filter_app. cbn [filter]. now rewrite Hc.
Qed.

Lemma CodeTs_renderContainerK_visible (h : Host) (kids kids' : list CodeTs.Kid)
    (node : SceneNode) (parentWidth : num) (parentBgColor : RgbColor)
    (isRoot : bool) :
  filter (fun k => visible (fst k)) kids = filter (fun k => visible (fst k)) kids' ->
  CodeTs.renderContainerK h kids node parentWidth parentBgColor isRoot
  = CodeTs.renderContainerK h kids' node parentWidth parentBgColor isRoot.
Proof.
  intros Hkids.
  unfold CodeTs.renderContainerK, CodeTs.renderStackedChildrenK,
    CodeTs.renderHorizontalChildrenK.
  now rewrite Hkids.
Qed.

Lemma Part000_renderContainerK_visible (h : Host) (kids kids' : list Part000.Kid)
    (node : SceneNode) (parentWidth : num) (parentBgColor : RgbColor)
    (isRoot : bool) (mode : ImageExportMode) :
  filter (fun k => visible (fst k)) kids = filter (fun k => visible (fst k)) kids' ->
  Part000.renderContainerK h kids node parentWidth parentBgColor isRoot mode
  = Part000.renderContainerK h kids' node parentWidth parentBgColor isRoot mode.
Proof.
  intros Hkids.
  unfold Part000.renderContainerK, Part000.renderStackedChildrenK,
    Part000.renderHorizontalChildrenK.
  now rewrite Hkids.
Qed.

Lemma CodeTs_renderContainerK_withChildren (h : Host) (kids : list CodeTs.Kid)
    (cs cs' : list SceneNode) (node : SceneNode) :
  CodeTs.renderContainerK h kids (withChildren cs node)
  = CodeTs.renderContainerK h kids (withChildren cs' node).
Proof. reflexivity. Qed.

Lemma Part000_horizontalCells_withChildren (h : Host) (cs cs' : list SceneNode)
    (node : SceneNode) parentBgColor mode itemSpacing isSpaceBetween count
    (kids : list Part000.Kid) :
  forall index,
    Part000.horizontalCells h (withChildren cs node) parentBgColor mode
      itemSpacing isSpaceBetween count kids index
    = Part000.horizontalCells h (withChildren cs' node) parentBgColor mode
        itemSpacing isSpaceBetween count kids index.
Proof.
  induction kids as [|[child render] kids IH]; intros index; [reflexivity|].
  cbn [Part000.horizontalCells]. now rewrite IH.
Qed.

Lemma Part000_renderContainerK_withChildren (h : Host) (kids : list Part000.Kid)
    (cs cs' : list SceneNode) (node : SceneNode) parentWidth parentBgColor
    isRoot mode (this : Part000.Parser) :
  Part000.renderContainerK h kids (withChildren cs node) parentWidth
    parentBgColor isRoot mode this
  = Part000.renderContainerK h kids (withChildren cs' node) parentWidth
      parentBgColor isRoot mode this.
Proof.
  unfold Part000.renderContainerK.
  apply bind_cong; [reflexivity | intros effective this1].
  apply bind_cong; [reflexivity | intros empty this2].
  destruct empty; [reflexivity|].
  apply bind_cong; [|reflexivity].
  intros this3. cbn [withChildren layoutMode].
  destruct (layoutMode node) as [[| |]|]; try reflexivity.
  unfold Part000.renderHorizontalChildrenK.
  apply bind_cong; [|reflexivity].
  intros this4. cbn [withChildren itemSpacing primaryAxisAlignItems].
  now rewrite (Part000_horizontalCells_withChildren h cs cs').
Qed.

(** X9: for a container, a hidden child is as good as no child: the
    markup of the container, and in the revision with export modes the
    assets it collects, are the same with the hidden child taken out of
    the list of children. *)
Theorem hidden_children_are_left_out (h : Host) (confirmedCtaIds : list str)
    (node c : SceneNode) (pre post : list SceneNode) (parentWidth : num)
    (parentBgColor : RgbColor) (isRoot : bool) (mode : ImageExportMode)
    (this : Part000.Parser) :
  visible c = false ->
  CodeTs.renderContainer h confirmedCtaIds (withChildren (pre ++ c :: post) node)
    parentWidth parentBgColor isRoot
  = CodeTs.renderContainer h confirmedCtaIds (withChildren (pre ++ post) node)
      parentWidth parentBgColor isRoot
  /\ Part000.renderContainer h (withChildren (pre ++ c :: post) node)
       parentWidth parentBgColor isRoot mode this
     = Part000.renderContainer h (withChildren (pre ++ post) node)
         parentWidth parentBgColor isRoot mode this.
Proof.
  intros Hc. split.
  - unfold CodeTs.renderContainer. rewrite !CodeTs_kidsOf_eq.
    rewrite (CodeTs_renderContainerK_withChildren h _ _ (pre ++ post)).
    rewrite (CodeTs_renderContainerK_visible h
               (map (pairWith (CodeTs.renderNode h confirmedCtaIds))
                  (childrenOf (withChildren (pre ++ c :: post) node)))
               (map (pairWith (CodeTs.renderNode h confirmedCtaIds))
                  (childrenOf (withChildren (pre ++ post) node))));
      [reflexivity|].
    rewrite !filter_pairWith. unfold childrenOf. cbn [withChildren children orDefault].
    now rewrite (filter_without_hidden pre post c Hc).
  - unfold Part000.renderContainer. rewrite !Part000_kidsOf_eq.
    rewrite (Part000_renderContainerK_withChildren h _ _ (pre ++ post)).
    rewrite (Part000_renderContainerK_visible h
               (map (pairWith (Part000.renderNode h))
                  (childrenOf (withChildren (pre ++ c :: post) node)))
               (map (pairWith (Part000.renderNode h))
                  (childrenOf (withChildren (pre ++ post) node))));
      [reflexivity|].
    rewrite !filter_pairWith. unfold childrenOf. cbn [withChildren children orDefault].
    now rewrite (filter_without_hidden pre post c Hc).
Qed.

Lemma hidden_children_are_left_out_witness :
  CodeTs.renderContainer Sample.host []
    (withChildren ([Sample.upper] ++ Sample.ghost "3:9" 12 50 50 :: [Sample.lower 3])
       (Sample.stacked 3))
    600 white false
  = CodeTs.renderContainer Sample.host []
      (withChildren ([Sample.upper] ++ [Sample.lower 3]) (Sample.stacked 3))
      600 white false
  /\ Part000.renderContainer Sample.host
       (withChildren ([Sample.upper] ++ Sample.ghost "3:9" 12 50 50 :: [Sample.lower 3])
          (Sample.stacked 3))
       600 white false download Part000.newParser
     = Part000.renderContainer Sample.host
         (withChildren ([Sample.upper] ++ [Sample.lower 3]) (Sample.stacked 3))
         600 white false download Part000.newParser.
Proof.
  apply (hidden_children_are_left_out Sample.host [] (Sample.stacked 3)
           (Sample.ghost "3:9" 12 50 50) [Sample.upper] [Sample.lower 3]).
  reflexivity.
Defined.

(** *** Rows of cells *)

Lemma CodeTs_horizontalCells_length (h : Host) parentBgColor itemSpacing
    totalContentWidth count (children : list CodeTs.Kid) :
  forall index cells,
    (index + List.length children = count)%nat ->
    CodeTs.horizontalCells h parentBgColor itemSpacing totalContentWidth count
      children index = Ok cells ->
    List.length cells
    = (List.length children
       + if (0 <? itemSpacing)%float then List.length children - 1 else 0)%nat.
Proof.
  induction children as [|[child render] rest IH]; intros index cells Hcount.
  - cbn. intros H. injection H as <-. now destruct (0 <? itemSpacing).
  - cbn [CodeTs.horizontalCells List.length] in *.
    destruct (render _ _) as [childHtml|e]; [cbn [rbind] | discriminate].
    destruct (CodeTs.horizontalCells _ _ _ _ _ rest (S index)) as [more|e] eqn:Hmore;
      [cbn [rbind] | discriminate].
    intros H. injection H as <-.
    specialize (IH (S index) more ltac:(lia) Hmore).
    cbn [List.length]. rewrite length_app. unfold str in *. rewrite IH.
    destruct (0 <? itemSpacing); [|rewrite andb_false_r; cbn; lia].
    rewrite andb_true_r.
    destruct rest as [|k rest].
    + replace (index <? count - 1)%nat with false
        by (symmetry; apply Nat.ltb_ge; cbn in Hcount; lia).
      reflexivity.
    + replace (index <? count - 1)%nat with true
        by (symmetry; apply Nat.ltb_lt; cbn in Hcount; lia).
      cbn [List.length]. lia.
Qed.

Lemma Part000_horizontalCells_length (h : Host) node parentBgColor mode
    itemSpacing isSpaceBetween count (children : list Part000.Kid) :
  forall index cells this this',
    (index + List.length children = count)%nat ->
    Part000.horizontalCells h node parentBgColor mode itemSpacing isSpaceBetween
      count children index this = (Ok cells, this') ->
    List.length cells
    = (List.length children
       + if isSpaceBetween || (0 <? itemSpacing)%float
         then List.length children - 1 else 0)%nat.
Proof.
  induction children as [|[child render] rest IH];
    intros index cells this this' Hcount.
  - cbn. intros H. injection H as <- _. now destruct (_ || _).
  - cbn [Part000.horizontalCells List.length] in *. unfold bind, ret.
    destruct (render _ _ _ this) as [[childHtml|e] this1]; [|discriminate].
    destruct (Part000.horizontalCells _ _ _ _ _ _ _ rest (S index) this1)
      as [[more|e] this2] eqn:Hmore; [|discriminate].
    intros H. injection H as <- _.
    specialize (IH (S index) more this1 this2 ltac:(lia) Hmore).
    cbn [List.length]. rewrite length_app. unfold str in *. rewrite IH.
    destruct rest as [|k rest].
    + replace (index <? count - 1)%nat with false
        by (symmetry; apply Nat.ltb_ge; cbn in Hcount; lia).
      now destruct (_ || _).
    + replace (index <? count - 1)%nat with true
        by (symmetry; apply Nat.ltb_lt; cbn in Hcount; lia).
      destruct isSpaceBetween; [cbn; lia|].
      cbn [orb]. destruct (0 <? itemSpacing); cbn [List.length]; lia.
Qed.

Lemma between_cons {A} (sep : list A) (x y : A) (rest : list A) :
  between sep (x :: y :: rest) = x :: sep ++ between sep (y :: rest).
Proof. reflexivity. Qed.

Lemma fragmentsA_length (parentBgColor : RgbColor) (kids : list CodeTs.Kid) :
  forall htmls, fragmentsA parentBgColor kids = Ok htmls ->
                List.length htmls = List.length kids.
Proof.
  induction kids as [|[child render] rest IH]; intros htmls.
  - cbn. intros H. now injection H as <-.
  - cbn [fragmentsA]. destruct (render _ _) as [childHtml|e]; [|discriminate].
    cbn [rbind]. destruct (fragmentsA parentBgColor rest) as [more|e];
      [|discriminate].
    cbn [rbind]. intros H. injection H as <-. cbn [List.length].
    now rewrite (IH more eq_refl).
Qed.

Lemma fragmentsD_length (parentBgColor : RgbColor) (mode : ImageExportMode)
    (kids : list Part000.Kid) :
  forall htmls this this',
    fragmentsD parentBgColor mode kids this = (Ok htmls, this') ->
    List.length htmls = List.length kids.
Proof.
  induction kids as [|[child render] rest IH]; intros htmls this this'.
  - cbn. intros H. now injection H as <- _.
  - cbn [fragmentsD]. unfold bind, ret.
    destruct (render _ _ _ this) as [[childHtml|e] this1]; [|discriminate].
    destruct (fragmentsD parentBgColor mode rest this1) as [[more|e] this2]
      eqn:Hmore; [|discriminate].
    intros H. injection H as <- _. cbn [List.length].
    now rewrite (IH more this1 this2 Hmore).
Qed.

Section Row.
Variable h : Host.
Variable parentBgColor : RgbColor.
Variable itemSpacing : num.

Section RowA.
Variable totalContentWidth : num.
Variable count : nat.

(** The cell of 386-406 around the fragment of [child]. *)
Let cellA (k : SceneNode * str) : str :=
  let colWidth := Math_round (width (fst k)) in
  let widthAttr :=
    if CodeTs.isImageLikeNode (fst k)
    then html "width=`" ++ show h colWidth ++ html "`"
    else if CodeTs.isContainerType (type (fst k)) && Nat.ltb 1 count
    then html "width=`" ++ toFixed2 h (colWidth / totalContentWidth * 100)
         ++ html "%`"
    else [] in
  lit "<td" ++ (if truthy widthAttr then lit " " ++ widthAttr else [])
  ++ html " valign=`top`>" ++ snd k ++ lit "</td>".

Let spacerA : list str :=
  if (0 <? itemSpacing)%float
  then [html "<td width=`" ++ show h itemSpacing
        ++ html "` style=`font-size:0; line-height:0;`>&nbsp;</td>"]
  else [].

Lemma CodeTs_horizontalCells_between (children : list CodeTs.Kid) :
  forall index,
    (index + List.length children = count)%nat ->
    CodeTs.horizontalCells h parentBgColor itemSpacing totalContentWidth count
      children index
    = (htmls <- fragmentsA parentBgColor children ;;
       Ok (between spacerA (map cellA (combine (map fst children) htmls))))%js.
Proof.
  induction children as [|[child render] rest IH]; intros index Hcount;
    [reflexivity|].
  cbn [CodeTs.horizontalCells fragmentsA List.length] in *.
  destruct (render _ _) as [childHtml|e]; [cbn [rbind] | reflexivity].
  rewrite (IH (S index)) by lia.
  destruct (fragmentsA parentBgColor rest) as [more|e] eqn:Hmore;
    [cbn [rbind] | reflexivity].
  apply fragmentsA_length in Hmore.
  cbn [map combine fst]. f_equal.
  destruct rest as [|k rest].
  - destruct more; [|discriminate]. cbn [map combine between].
    replace (index <? count - 1)%nat with false
      by (symmetry; apply Nat.ltb_ge; cbn in Hcount; lia).
    reflexivity.
  - destruct more as [|m more]; [discriminate|].
    cbn [map combine fst]. rewrite between_cons.
    replace (index <? count - 1)%nat with true
      by (symmetry; apply Nat.ltb_lt; cbn in Hcount; lia).
    cbn [andb]. unfold spacerA. now destruct (0 <? itemSpacing)%float.
Qed.

End RowA.

Section RowD.
Variable node : SceneNode.
Variable mode : ImageExportMode.
Variable isSpaceBetween : bool.
Variable count : nat.

(** The cell of 553-557 around a fragment. *)
Let cellD (childHtml : str) : str :=
  html "<td valign=`"
  ++ match counterAxisAlignItems node with
     | Some CA_MAX => lit "bottom"
     | Some CA_CENTER => lit "middle"
     | _ => lit "top"
     end
  ++ html "`>" ++ childHtml ++ lit "</td>".

Let spacerD : list str :=
  if isSpaceBetween then [html "<td width=`100%`>&nbsp;</td>"]
  else if (0 <? itemSpacing)%float
  then [html "<td width=`" ++ show h itemSpacing ++ html "` style=`width: "
        ++ show h itemSpacing ++ html "px;`>&nbsp;</td>"]
  else [].

Lemma Part000_horizontalCells_between (children : list Part000.Kid) :
  forall index this,
    (index + List.length children = count)%nat ->
    Part000.horizontalCells h node parentBgColor mode itemSpacing isSpaceBetween
      count children index this
    = (htmls <- fragmentsD parentBgColor mode children ;;
       ret (between spacerD (map cellD htmls)))%parser this.
Proof.
  induction children as [|[child render] rest IH]; intros index this Hcount;
    [reflexivity|].
  cbn [Part000.horizontalCells fragmentsD List.length] in *.
  unfold bind at 1 3 4. unfold ret at 2.
  destruct (render _ _ _ this) as [[childHtml|e] this1]; [|reflexivity].
  unfold bind at 1 2. rewrite (IH (S index)) by lia. unfold bind, ret.
  destruct (fragmentsD parentBgColor mode rest this1) as [[more|e] this2]
    eqn:Hmore; [|reflexivity].
  apply fragmentsD_length in Hmore.
  cbn [map]. f_equal. f_equal.
  destruct rest as [|k rest].
  - destruct more; [|discriminate]. cbn [map between].
    replace (index <? count - 1)%nat with false
      by (symmetry; apply Nat.ltb_ge; cbn in Hcount; lia).
    reflexivity.
  - destruct more as [|m more]; [discriminate|].
    cbn [map]. rewrite between_cons.
    replace (index <? count - 1)%nat with true
      by (symmetry; apply Nat.ltb_lt; cbn in Hcount; lia).
    reflexivity.
Qed.

End RowD.
End Row.

(** X10: the loop over the children of a horizontal container writes
    the cells of the children in their order, each around the fragment
    of its child, with one spacer cell between every two of them and none
    before the first or behind the last; the spacer is there when the
    item spacing is positive (in [part_000] also, as a cell of full
    width, when the children are spread with [SPACE_BETWEEN]).  The loop
    throws when a child does, at the first that does. *)
Theorem horizontal_row_has_a_spacer_between_children (h : Host)
    (node : SceneNode) (parentBgColor : RgbColor) (mode : ImageExportMode)
    (itemSpacing totalContentWidth : num) (isSpaceBetween : bool)
    (childrenA : list CodeTs.Kid) (childrenD : list Part000.Kid)
    (this : Part000.Parser) :
  let cellA (k : SceneNode * str) : str :=
    let colWidth := Math_round (width (fst k)) in
    let widthAttr :=
      if CodeTs.isImageLikeNode (fst k)
      then html "width=`" ++ show h colWidth ++ html "`"
      else if CodeTs.isContainerType (type (fst k))
              && Nat.ltb 1 (List.length childrenA)
      then html "width=`" ++ toFixed2 h (colWidth / totalContentWidth * 100)
           ++ html "%`"
      else [] in
    lit "<td" ++ (if truthy widthAttr then lit " " ++ widthAttr else [])
    ++ html " valign=`top`>" ++ snd k ++ lit "</td>" in
  let spacerA : list str :=
    if (0 <? itemSpacing)%float
    then [html "<td width=`" ++ show h itemSpacing
          ++ html "` style=`font-size:0; line-height:0;`>&nbsp;</td>"]
    else [] in
  let cellD (childHtml : str) : str :=
    html "<td valign=`"
    ++ match counterAxisAlignItems node with
       | Some CA_MAX => lit "bottom"
       | Some CA_CENTER => lit "middle"
       | _ => lit "top"
       end
    ++ html "`>" ++ childHtml ++ lit "</td>" in
  let spacerD : list str :=
    if isSpaceBetween then [html "<td width=`100%`>&nbsp;</td>"]
    else if (0 <? itemSpacing)%float
    then [html "<td width=`" ++ show h itemSpacing ++ html "` style=`width: "
          ++ show h itemSpacing ++ html "px;`>&nbsp;</td>"]
    else [] in
  CodeTs.horizontalCells h parentBgColor itemSpacing totalContentWidth
    (List.length childrenA) childrenA 0
  = (htmls <- fragmentsA parentBgColor childrenA ;;
     Ok (between spacerA (map cellA (combine (map fst childrenA) htmls))))%js
  /\ Part000.horizontalCells h node parentBgColor mode itemSpacing
       isSpaceBetween (List.length childrenD) childrenD 0 this
     = (htmls <- fragmentsD parentBgColor mode childrenD ;;
        ret (between spacerD (map cellD htmls)))%parser this.
Proof.
  intros cellA spacerA cellD spacerD. split.
  - now apply CodeTs_horizontalCells_between.
  - now apply Part000_horizontalCells_between.
Qed.

(** Three icons in a row, eight pixels apart: cell, spacer, cell,
    spacer, cell. *)
Lemma three_icons_in_a_row :
  Part000.horizontalCells Sample.host Sample.iconGroup white placeholder 8 false
    3 (Part000.kidsOf Sample.host Sample.iconGroup) 0 Part000.newParser
  = (Ok [html "<td valign=`top`><img src=`https://placehold.co/24x24/EFEFEF/7F7F7F?text=24x24` width=`24` alt=`4:1` style=`display: block; border: 0; width: 100%; max-width: 24px; height: auto;` /></td>";
         html "<td width=`8` style=`width: 8px;`>&nbsp;</td>";
         html "<td valign=`top`><img src=`https://placehold.co/24x24/EFEFEF/7F7F7F?text=24x24` width=`24` alt=`4:2` style=`display: block; border: 0; width: 100%; max-width: 24px; height: auto;` /></td>";
         html "<td width=`8` style=`width: 8px;`>&nbsp;</td>";
         html "<td valign=`top`><img src=`https://placehold.co/24x24/EFEFEF/7F7F7F?text=24x24` width=`24` alt=`4:3` style=`display: block; border: 0; width: 100%; max-width: 24px; height: auto;` /></td>"],
     Part000.newParser).
Proof. vm_compute. reflexivity. Qed.

(** *** What a pass does to the fields of the parser *)

Section PassInvariant.
Variable h : Host.
Variable I : Part000.Parser -> Prop.
Variable mode : ImageExportMode.
Hypothesis renderImage_inv :
  forall node parentWidth, preserves I (Part000.renderImage h node parentWidth mode).

Lemma stackedRows_inv availableWidth parentBgColor paddingLeft paddingRight
    (kids : list Part000.Kid) :
  Forall (fun k => forall w bg, preserves I (snd k w bg mode)) kids ->
  forall lastBottomY,
    preserves I
      (Part000.stackedRows h availableWidth parentBgColor mode paddingLeft
         paddingRight kids lastBottomY).
Proof.
  induction 1 as [|[child render] kids Hk _ IH]; intros lastBottomY;
    cbn [Part000.stackedRows]; [apply preserves_ret|].
  apply preserves_bind; [apply Hk | intros childHtml].
  apply preserves_bind; [apply IH | intros more; apply preserves_ret].
Qed.

Lemma horizontalCells_inv node parentBgColor itemSpacing isSpaceBetween count
    (kids : list Part000.Kid) :
  Forall (fun k => forall w bg, preserves I (snd k w bg mode)) kids ->
  forall index,
    preserves I
      (Part000.horizontalCells h node parentBgColor mode itemSpacing
         isSpaceBetween count kids index).
Proof.
  induction 1 as [|[child render] kids Hk _ IH]; intros index;
    cbn [Part000.horizontalCells]; [apply preserves_ret|].
  apply preserves_bind; [apply Hk | intros childHtml].
  apply preserves_bind; [apply IH | intros more; apply preserves_ret].
Qed.

Lemma renderContainerK_inv (kids : list Part000.Kid) node parentWidth
    parentBgColor isRoot :
  Forall (fun k => forall w bg, preserves I (snd k w bg mode)) kids ->
  preserves I
    (Part000.renderContainerK h kids node parentWidth parentBgColor isRoot mode).
Proof.
  intros Hkids.
  assert (Hstack : forall w bg,
            preserves I (Part000.renderStackedChildrenK h kids node w bg mode)).
  { intros w bg. unfold Part000.renderStackedChildrenK.
    apply preserves_bind; [|intros rows; apply preserves_ret].
    apply stackedRows_inv.
    destruct (layoutMode node) as [[| |]|];
      try apply Forall_sortByY; now apply Forall_filter. }
  assert (Hrow : forall w bg,
            preserves I (Part000.renderHorizontalChildrenK h kids node w bg mode)).
  { intros w bg. unfold Part000.renderHorizontalChildrenK.
    apply preserves_bind; [|intros cells; apply preserves_ret].
    apply horizontalCells_inv. now apply Forall_filter. }
  unfold Part000.renderContainerK. preserve.
Qed.

Lemma renderNodeK_inv (kids : list Part000.Kid) node parentWidth parentBgColor :
  Forall (fun k => forall w bg, preserves I (snd k w bg mode)) kids ->
  preserves I (Part000.renderNodeK h kids node parentWidth parentBgColor mode).
Proof.
  intros Hkids. unfold Part000.renderNodeK.
  destruct (negb (visible node)); [apply preserves_ret|].
  destruct (Part000.isImageLikeNode node); [apply renderImage_inv|].
  pose proof (renderContainerK_inv kids node parentWidth parentBgColor false
                Hkids).
  destruct (type node); preserve.
Qed.

Lemma renderNode_inv (node : SceneNode) :
  forall w bg, preserves I (Part000.renderNode h node w bg mode).
Proof.
  induction node as [node IH] using SceneNode_children_ind. intros w bg.
  rewrite Part000_renderNode_eq. apply renderNodeK_inv.
  rewrite Part000_kidsOf_eq. induction IH; cbn [map]; constructor; assumption.
Qed.

Lemma renderContainer_inv node parentWidth parentBgColor isRoot :
  preserves I
    (Part000.renderContainer h node parentWidth parentBgColor isRoot mode).
Proof.
  apply renderContainerK_inv. rewrite Part000_kidsOf_eq.
  apply Forall_forall. intros k Hk. apply in_map_iff in Hk.
  destruct Hk as [c [<- _]]. apply renderNode_inv.
Qed.

Lemma selectionRows_inv (nodes : list SceneNode) :
  forall first lastBottomY,
    preserves I (Part000.selectionRows h mode nodes first lastBottomY).
Proof.
  induction nodes as [|node nodes IH]; intros first lastBottomY;
    cbn [Part000.selectionRows]; [apply preserves_ret|].
  apply preserves_bind; [apply renderNode_inv | intros nodeHtml].
  apply preserves_bind; [apply IH | intros more; apply preserves_ret].
Qed.

(** An invariant that holds of a new parser holds when [parse] is
    through with a selection. *)
Lemma parse_inv (nodes : list SceneNode) (this : Part000.Parser) :
  nodes <> [] -> I Part000.newParser ->
  I (snd (Part000.parse h nodes mode this)).
Proof.
  intros Hnodes Hnew. destruct nodes as [|node nodes]; [contradiction|].
  unfold Part000.parse. destruct nodes as [|node' nodes].
  - destruct (existsb _ _).
    + now apply renderContainer_inv.
    + now apply renderNode_inv.
  - refine (preserves_bind I _ _ _ _ _ Hnew).
    + apply selectionRows_inv.
    + intros rows. apply preserves_ret.
Qed.

End PassInvariant.

Lemma renderImage_keeps_fields (h : Host) (mode : ImageExportMode)
    (this : Part000.Parser) :
  mode <> download ->
  forall node parentWidth,
    preserves (fun s => s = this) (Part000.renderImage h node parentWidth mode).
Proof.
  intros Hmode node parentWidth s ->. unfold Part000.renderImage.
  destruct (_ || _); [reflexivity|].
  destruct mode; [reflexivity | | contradiction].
  now destruct (rbind _ _).
Qed.

(** X11: outside [download] mode a pass writes nothing into the fields
    of the parser: rendering a node leaves the asset list and the
    counter as they were, and after [parse] on a selection they are those
    of a new parser. *)
Theorem only_download_mode_collects_assets (h : Host) (mode : ImageExportMode)
    (node : SceneNode) (nodes : list SceneNode) (parentWidth : num)
    (parentBgColor : RgbColor) (this : Part000.Parser) :
  mode <> download ->
  snd (Part000.renderNode h node parentWidth parentBgColor mode this) = this
  /\ snd (Part000.parse h nodes mode this)
     = match nodes with [] => this | _ :: _ => Part000.newParser end.
Proof.
  intros Hmode. split.
  - now apply (renderNode_inv h (fun s => s = this) mode
                 (renderImage_keeps_fields h mode this Hmode)).
  - destruct nodes as [|n nodes]; [reflexivity|].
    apply (parse_inv h (fun s => s = Part000.newParser) mode
             (renderImage_keeps_fields h mode Part000.newParser Hmode));
      [discriminate | reflexivity].
Qed.

Lemma only_download_mode_collects_assets_witness :
  snd (Part000.renderNode Sample.host Sample.iconGroup 600 white base64
         Sample.used)
  = Sample.used
  /\ snd (Part000.parse Sample.host Sample.icons base64 Sample.used)
     = Part000.newParser.
Proof.
  apply (only_download_mode_collects_assets Sample.host base64 Sample.iconGroup
           Sample.icons 600 white Sample.used).
  discriminate.
Defined.

Lemma grownFrom_refl (this : Part000.Parser) : grownFrom this this.
Proof. exists []. split; [now rewrite app_nil_r | cbn; lia]. Qed.

Lemma renderImage_grows (h : Host) (mode : ImageExportMode)
    (this : Part000.Parser) :
  forall node parentWidth,
    preserves (grownFrom this) (Part000.renderImage h node parentWidth mode).
Proof.
  intros node parentWidth s Hs. unfold Part000.renderImage.
  destruct (_ || _); [exact Hs|].
  destruct mode; [exact Hs | now destruct (rbind _ _) |].
  destruct (exportAsync h node _) as [imageBytes|e]; [|exact Hs].
  destruct Hs as [added [Hassets Hcounter]].
  exists (added ++ [{| asset_name :=
                         lit "image-"
                         ++ decimalDigits (Part000.imageCounter s + 1)
                         ++ lit ".png";
                       asset_data := imageBytes |}]).
  cbn [snd Part000.imageAssets Part000.imageCounter].
  rewrite Hassets, Hcounter, length_app. cbn [List.length].
  split; [symmetry; apply app_assoc | lia].
Qed.

(** X12: in every mode, the assets the parser held before a node is
    rendered are still there afterwards, in their places, whether the
    rendering returned or threw; what was added stands behind them, and
    the counter has gone up by the number of assets added. *)
Theorem assets_are_only_appended (h : Host) (mode : ImageExportMode)
    (node : SceneNode) (parentWidth : num) (parentBgColor : RgbColor)
    (this : Part000.Parser) :
  grownFrom this
    (snd (Part000.renderNode h node parentWidth parentBgColor mode this)).
Proof.
  apply (renderNode_inv h (grownFrom this) mode (renderImage_grows h mode this)).
  apply grownFrom_refl.
Qed.

(** *** Placeholder mode and the exporter *)

Section OtherExporter.
Variable h : Host.
Variable exportAsync' : SceneNode -> ExportSettingsImage -> result bytes.
Variable base64Encode' : bytes -> result str.
Let h' : Host := withExporter h exportAsync' base64Encode'.

Section Kids.
Variables render render' : SceneNode -> Part000.Renderer.

Lemma stackedRows_placeholder availableWidth parentBgColor paddingLeft
    paddingRight (cs : list SceneNode) :
  Forall (fun c => forall w bg this,
            render c w bg placeholder this = render' c w bg placeholder this) cs ->
  forall lastBottomY this,
    Part000.stackedRows h availableWidth parentBgColor placeholder paddingLeft
      paddingRight (map (pairWith render) cs) lastBottomY this
    = Part000.stackedRows h' availableWidth parentBgColor placeholder paddingLeft
        paddingRight (map (pairWith render') cs) lastBottomY this.
Proof.
  induction 1 as [|c cs Hc _ IH]; intros lastBottomY this; [reflexivity|].
  cbn [map pairWith Part000.stackedRows].
  apply bind_cong; [apply Hc | intros childHtml this1].
  apply bind_cong; [apply IH | reflexivity].
Qed.

Lemma horizontalCells_placeholder node parentBgColor itemSpacing isSpaceBetween
    count (cs : list SceneNode) :
  Forall (fun c => forall w bg this,
            render c w bg placeholder this = render' c w bg placeholder this) cs ->
  forall index this,
    Part000.horizontalCells h node parentBgColor placeholder itemSpacing
      isSpaceBetween count (map (pairWith render) cs) index this
    = Part000.horizontalCells h' node parentBgColor placeholder itemSpacing
        isSpaceBetween count (map (pairWith render') cs) index this.
Proof.
  induction 1 as [|c cs Hc _ IH]; intros index this; [reflexivity|].
  cbn [map pairWith Part000.horizontalCells].
  apply bind_cong; [apply Hc | intros childHtml this1].
  apply bind_cong; [apply IH | reflexivity].
Qed.

Lemma renderContainerK_placeholder (cs : list SceneNode) node parentWidth
    parentBgColor isRoot (this : Part000.Parser) :
  Forall (fun c => forall w bg this,
            render c w bg placeholder this = render' c w bg placeholder this) cs ->
  Part000.renderContainerK h (map (pairWith render) cs) node parentWidth
    parentBgColor isRoot placeholder this
  = Part000.renderContainerK h' (map (pairWith render') cs) node parentWidth
      parentBgColor isRoot placeholder this.
Proof.
  intros Hcs.
  pose proof (Forall_filter _ visible _ Hcs) as Hvis.
  pose proof (Forall_sortByY y _ _ Hvis) as Hsort.
  unfold Part000.renderContainerK.
  apply bind_cong; [reflexivity | intros effective this1].
  apply bind_cong;
    [intros this2; now rewrite !filter_pairWith, !length_map
    | intros empty this2].
  destruct empty; [reflexivity|].
  apply bind_cong; [|reflexivity].
  intros this3.
  unfold Part000.renderStackedChildrenK, Part000.renderHorizontalChildrenK.
  rewrite !filter_pairWith, !sortByY_pairWith, !length_map.
  destruct (layoutMode node) as [[| |]|];
    (apply bind_cong; [intros this4 | reflexivity]).
  - now apply stackedRows_placeholder.
  - now apply horizontalCells_placeholder.
  - now apply stackedRows_placeholder.
  - now apply stackedRows_placeholder.
Qed.

Lemma renderNodeK_placeholder (cs : list SceneNode) node parentWidth
    parentBgColor (this : Part000.Parser) :
  Forall (fun c => forall w bg this,
            render c w bg placeholder this = render' c w bg placeholder this) cs ->
  Part000.renderNodeK h (map (pairWith render) cs) node parentWidth
    parentBgColor placeholder this
  = Part000.renderNodeK h' (map (pairWith render') cs) node parentWidth
      parentBgColor placeholder this.
Proof.
  intros Hcs. unfold Part000.renderNodeK.
  destruct (negb (visible node)); [reflexivity|].
  destruct (Part000.isImageLikeNode node); [reflexivity|].
  destruct (type node); try reflexivity;
    (apply bind_cong; [reflexivity | intros bullet this1];
     destruct bullet; [reflexivity | now apply renderContainerK_placeholder]).
Qed.

End Kids.

Lemma renderNode_placeholder (node : SceneNode) :
  forall w bg this,
    Part000.renderNode h node w bg placeholder this
    = Part000.renderNode h' node w bg placeholder this.
Proof.
  induction node as [node IH] using SceneNode_children_ind. intros w bg this.
  rewrite !Part000_renderNode_eq, !Part000_kidsOf_eq.
  now apply renderNodeK_placeholder.
Qed.

Lemma selectionRows_placeholder (nodes : list SceneNode) :
  forall first lastBottomY this,
    Part000.selectionRows h placeholder nodes first lastBottomY this
    = Part000.selectionRows h' placeholder nodes first lastBottomY this.
Proof.
  induction nodes as [|node nodes IH]; intros first lastBottomY this;
    [reflexivity|].
  cbn [Part000.selectionRows].
  apply bind_cong; [apply renderNode_placeholder | intros nodeHtml this1].
  apply bind_cong; [apply IH | reflexivity].
Qed.

Lemma parse_placeholder (nodes : list SceneNode) (this : Part000.Parser) :
  Part000.parse h nodes placeholder this = Part000.parse h' nodes placeholder this.
Proof.
  unfold Part000.parse. destruct nodes as [|node [|node' nodes]]; [reflexivity | |].
  - destruct (existsb _ _).
    + unfold Part000.renderContainer. rewrite !Part000_kidsOf_eq.
      apply renderContainerK_placeholder.
      apply Forall_forall. intros c _. apply renderNode_placeholder.
    + apply renderNode_placeholder.
  - apply bind_cong; [apply selectionRows_placeholder | reflexivity].
Qed.

End OtherExporter.

(** X13: in [placeholder] mode the exporter and the encoder are not
    asked: [parse] returns the same markup, or throws the same
    exception, and leaves the same fields, whatever the two would have
    returned. *)
Theorem placeholder_mode_does_not_export (h : Host)
    (exportAsync' : SceneNode -> ExportSettingsImage -> result bytes)
    (base64Encode' : bytes -> result str)
    (nodes : list SceneNode) (this : Part000.Parser) :
  Part000.parse (withExporter h exportAsync' base64Encode') nodes placeholder this
  = Part000.parse h nodes placeholder this.
Proof. symmetry. apply parse_placeholder. Qed.

(** *** Pruning twice *)

Lemma split_aux_no_sep (c : N) (s : str) :
  ~ In c (fst (split_aux c s)) /\ Forall (fun d => ~ In c d) (snd (split_aux c s)).
Proof.
  induction s as [|x s [IHh IHt]]; cbn [split_aux].
  - split; [intros [] | constructor].
  - destruct (split_aux c s) as [hd tl]. cbn [fst snd] in *.
    destruct (N.eqb_spec x c) as [->|Hx]; cbn [fst snd].
    + split; [intros [] | now constructor].
    + split; [|exact IHt]. intros [H|H]; [now apply Hx | now apply IHh].
Qed.

Lemma split_no_sep (c : N) (s : str) : Forall (fun d => ~ In c d) (split c s).
Proof.
  unfold split. pose proof (split_aux_no_sep c s) as [Hh Ht].
  destruct (split_aux c s) as [hd tl]. now constructor.
Qed.

Lemma filter_idempotent {A} (f : A -> bool) (l : list A) :
  filter f (filter f l) = filter f l.
Proof.
  induction l as [|a l IH]; [reflexivity|]. cbn [filter].
  destruct (f a) eqn:Ha; [|exact IH]. cbn [filter]. now rewrite Ha, IH.
Qed.

Lemma truthy_join (sep d : str) (ds : list str) :
  truthy d = true -> truthy (join sep (d :: ds)) = true.
Proof.
  destruct d as [|x d]; [discriminate|]. intros _.
  cbn [join]. now destruct ds.
Qed.

Lemma prune_twice (keep : str -> bool) (s : str) :
  (forall d, keep d = true -> truthy d = true) ->
  let clean s :=
    if negb (truthy s) then []
    else join (lit ";") (filter keep (split SEMI s)) in
  clean (clean s) = clean s.
Proof.
  intros Hkeep clean. subst clean. cbv beta.
  destruct (truthy s); cbn [negb]; [|reflexivity].
  destruct (filter keep (split SEMI s)) as [|d ds] eqn:Hds; [reflexivity|].
  assert (Hd : keep d = true).
  { assert (Hin : In d (filter keep (split SEMI s))) by (rewrite Hds; now left).
    apply filter_In in Hin. tauto. }
  rewrite (truthy_join (lit ";") d ds (Hkeep d Hd)). cbn [negb].
  change (lit ";") with [SEMI]. rewrite (split_join SEMI (d :: ds)).
  - now rewrite <- Hds, filter_idempotent.
  - discriminate.
  - rewrite <- Hds. apply Forall_filter, split_no_sep.
Qed.

Lemma truthy_trim (d : str) : truthy (trim d) = true -> truthy d = true.
Proof. now destruct d. Qed.

(** X14: pruning is idempotent in both revisions: pruning what has been
    pruned changes nothing. *)
Theorem pruning_twice_is_pruning_once (styleStr : str) :
  CodeTs.cleanZeroValueStyles (CodeTs.cleanZeroValueStyles styleStr)
  = CodeTs.cleanZeroValueStyles styleStr
  /\ Part000.cleanZeroValueStyles (Part000.cleanZeroValueStyles styleStr)
     = Part000.cleanZeroValueStyles styleStr.
Proof.
  split.
  - apply (prune_twice CodeTs.keepRule). intros d. unfold CodeTs.keepRule.
    destruct (truthy (trim d)) eqn:Ht; [intros _; now apply truthy_trim|].
    discriminate.
  - apply (prune_twice Part000.keepRule). intros d. unfold Part000.keepRule.
    destruct (truthy (trim d)) eqn:Ht; [intros _; now apply truthy_trim|].
    discriminate.
Qed.

(** *** Deduplicated styles *)

Lemma In_trimStart (x : N) (s : str) : In x (trimStart s) -> In x s.
Proof.
  induction s as [|c s IH]; [intros []|]. cbn [trimStart].
  destruct (isWhiteSpace c); [right; now apply IH | trivial].
Qed.

Lemma In_trim (x : N) (s : str) : In x (trim s) -> In x s.
Proof.
  unfold trim, trimEnd. intros H. apply in_rev in H.
  apply In_trimStart in H. apply in_rev in H. now apply In_trimStart.
Qed.

Lemma In_split_aux (c x : N) (s : str) :
  (In x (fst (split_aux c s)) -> In x s)
  /\ (forall d, In d (snd (split_aux c s)) -> In x d -> In x s).
Proof.
  induction s as [|y s [IHh IHt]]; cbn [split_aux].
  - split; [intros [] | intros d []].
  - destruct (split_aux c s) as [hd tl]. cbn [fst snd] in *.
    destruct (y =? c)%N; cbn [fst snd].
    + split; [intros [] |].
      intros d [<-|Hd] Hx; right; [now apply IHh | now apply (IHt d)].
    + split.
      * intros [->|H]; [now left | right; now apply IHh].
      * intros d Hd Hx. right. now apply (IHt d).
Qed.

Lemma In_split (c x : N) (s d : str) : In d (split c s) -> In x d -> In x s.
Proof.
  unfold split. pose proof (In_split_aux c x s) as [Hh Ht].
  destruct (split_aux c s) as [hd tl]. cbn [fst snd] in *.
  intros [<-|Hd] Hx; [now apply Hh | now apply (Ht d)].
Qed.

Lemma In_join (x : N) (sep : str) (l : list str) :
  In x (join sep l) -> In x sep \/ exists d, In d l /\ In x d.
Proof.
  induction l as [|d l IH]; [intros []|]. cbn [join].
  destruct l as [|d' l].
  - intros H. right. exists d. split; [now left | exact H].
  - intros H. apply in_app_or in H. destruct H as [H|H].
    + right. exists d. split; [now left | exact H].
    + apply in_app_or in H. destruct H as [H|H]; [now left|].
      destruct (IH H) as [Hs|[e [He Hx]]]; [now left | right].
      exists e. split; [now right | exact Hx].
Qed.

Lemma In_dedupe (d : str) (l : list str) : In d (dedupe l) -> In d l.
Proof.
  induction l as [|a l IH]; [intros []|]. cbn [dedupe].
  intros [<-|H]; [now left | right]. apply filter_In in H. now apply IH.
Qed.

Lemma In_replaceAll_nil (x c : N) (s : str) : In x (replaceAll c [] s) -> In x s.
Proof.
  unfold replaceAll. intros H. apply in_flat_map in H.
  destruct H as [y [Hy Hx]]. destruct (y =? c)%N; [destruct Hx|].
  destruct Hx as [<-|[]]. exact Hy.
Qed.

Lemma mapSet_tidy (k v : str) (m : list (str * str)) :
  tidy m -> ~ In COLON k -> ~ In SEMI k -> ~ In SEMI v -> tidy (mapSet k v m).
Proof.
  intros [Hnodup Hall] Hk1 Hk2 Hv.
  assert (Hkeys : map fst (mapSet k v m) = map fst m
                  \/ (~ In k (map fst m)
                      /\ map fst (mapSet k v m) = map fst m ++ [k])).
  { clear Hnodup Hall. induction m as [|[k' v'] m IH]; [right; now split|].
    cbn [mapSet]. destruct (str_eqb k' k) eqn:Heq; [now left|].
    cbn [map fst]. destruct IH as [->|[Hnot ->]]; [now left | right].
    split; [|reflexivity]. intros [H|H]; [|now apply Hnot].
    cbn [fst] in H. subst k'.
    assert (str_eqb k k = true) by now apply str_eqb_eq. congruence. }
  split.
  - destruct Hkeys as [->|[Hnot ->]]; [exact Hnodup|].
    apply NoDup_app; [exact Hnodup | repeat constructor; intros [] |].
    intros a Ha [<-|[]]. now apply Hnot.
  - clear Hnodup Hkeys. induction Hall as [|[k' v'] m Hkv Hall IH].
    + repeat constructor; assumption.
    + cbn [mapSet]. destruct (str_eqb k' k) eqn:Heq.
      * constructor; [|exact Hall]. cbn [fst snd] in *. tauto.
      * constructor; assumption.
Qed.

Lemma In_before (c x : N) (s : str) : In x (before c s) -> In x s.
Proof.
  induction s as [|y s IH]; [intros []|]. cbn [before].
  destruct (y =? c)%N; [intros [] |].
  intros [->|H]; [now left | right; now apply IH].
Qed.

(** The key and the value [sanitizeRule] reads off a rule. *)
Lemma rule_key_value (rule key : str) (valueParts : list str) :
  ~ In SEMI rule ->
  split COLON rule = key :: valueParts ->
  ~ In COLON (trim key) /\ ~ In SEMI (trim key)
  /\ ~ In SEMI (trim (join (lit ":") valueParts)).
Proof.
  intros Hrule Hsplit.
  assert (Hkey : key = before COLON rule).
  { rewrite split_unfold in Hsplit. now injection Hsplit as <- _. }
  repeat split.
  - intros H. apply In_trim in H. rewrite Hkey in H.
    exact (before_has_no COLON rule H).
  - intros H. apply In_trim in H. rewrite Hkey in H.
    apply Hrule. exact (In_before COLON SEMI rule H).
  - intros H. apply In_trim, In_join in H.
    destruct H as [[H|[]]|[d [Hd Hx]]]; [discriminate H|].
    apply Hrule. apply (In_split COLON SEMI rule d); [|exact Hx].
    rewrite Hsplit. now right.
Qed.

Lemma CodeTs_sanitizeRule_tidy (m : list (str * str)) (rule : str) :
  ~ In SEMI rule -> tidy m -> tidy (CodeTs.sanitizeRule m rule).
Proof.
  intros Hrule Hm. unfold CodeTs.sanitizeRule.
  destruct (split COLON rule) as [|key valueParts] eqn:Hsplit; [exact Hm|].
  destruct (rule_key_value rule key valueParts Hrule Hsplit) as [Hk1 [Hk2 Hv]].
  destruct (negb (truthy key) || negb (truthy _)); [exact Hm|].
  destruct (str_eqb (trim key) (lit "font-family"));
    apply mapSet_tidy; try assumption.
  intros H. apply In_join in H.
  destruct H as [[H|[H|[]]]|[d [Hd Hx]]]; [discriminate H | discriminate H|].
  apply In_dedupe, in_map_iff in Hd. destruct Hd as [f [<- Hf]].
  apply In_replaceAll_nil, In_trim in Hx.
  apply Hv. exact (In_split COMMA SEMI _ f Hf Hx).
Qed.

Lemma Part000_sanitizeRule_tidy (m : list (str * str)) (rule : str) :
  ~ In SEMI rule -> tidy m -> tidy (Part000.sanitizeRule m rule).
Proof.
  intros Hrule Hm. unfold Part000.sanitizeRule.
  destruct (split COLON rule) as [|key valueParts] eqn:Hsplit; [exact Hm|].
  destruct (rule_key_value rule key valueParts Hrule Hsplit) as [Hk1 [Hk2 Hv]].
  destruct (negb (truthy key) || negb (truthy _)); [exact Hm|].
  now apply mapSet_tidy.
Qed.

Lemma fold_left_tidy (step : list (str * str) -> str -> list (str * str))
    (rules : list str) :
  (forall m rule, ~ In SEMI rule -> tidy m -> tidy (step m rule)) ->
  Forall (fun rule => ~ In SEMI rule) rules ->
  forall m, tidy m -> tidy (fold_left step rules m).
Proof.
  intros Hstep. induction 1 as [|rule rules Hrule _ IH]; intros m Hm;
    [exact Hm|].
  cbn [fold_left]. apply IH. now apply Hstep.
Qed.

(** The property names of the entries of a tidy map can be read off the
    string made of them. *)
Lemma declaredProperties_of_entries (m : list (str * str)) :
  tidy m ->
  NoDup (declaredProperties
           (join (lit ";") (map (fun kv => fst kv ++ lit ":" ++ snd kv) m))).
Proof.
  intros [Hnodup Hall]. unfold declaredProperties.
  destruct m as [|kv m]; [repeat constructor; intros []|].
  change (lit ";") with [SEMI]. rewrite split_join.
  - rewrite map_map.
    replace (map (fun kv0 => before COLON (fst kv0 ++ lit ":" ++ snd kv0)) (kv :: m))
      with (map fst (kv :: m)); [exact Hnodup|].
    apply map_ext_Forall. eapply Forall_impl; [|exact Hall].
    intros [k v] [Hk _]. cbn [fst snd] in *.
    change (k ++ lit ":" ++ v) with (k ++ COLON :: v).
    now destruct (before_app COLON k v Hk) as [-> _].
  - discriminate.
  - apply Forall_map. eapply Forall_impl; [|exact Hall].
    intros [k v] [_ [Hk Hv]] H. cbn [fst snd] in *.
    apply in_app_or in H. destruct H as [H|[H|H]];
      [now apply Hk | discriminate H | now apply Hv].
Qed.

Lemma tidy_nil : tidy [].
Proof. split; constructor. Qed.

(** X15: the deduplication step of either revision never writes a
    property twice: the property names of the declarations of its result
    are distinct. *)
Theorem sanitized_styles_name_each_property_once (styleStr : str) :
  NoDup (declaredProperties (CodeTs.sanitizeStyles styleStr))
  /\ NoDup (declaredProperties (Part000.sanitizeStyles styleStr)).
Proof.
  assert (Hrules : Forall (fun rule => ~ In SEMI rule)
                     (filter (fun rule => truthy (trim rule))
                        (split SEMI styleStr)))
    by apply Forall_filter, split_no_sep.
  split.
  - unfold CodeTs.sanitizeStyles.
    destruct (negb (truthy styleStr)); [repeat constructor; intros []|].
    apply declaredProperties_of_entries.
    exact (fold_left_tidy CodeTs.sanitizeRule _ CodeTs_sanitizeRule_tidy Hrules
             [] tidy_nil).
  - unfold Part000.sanitizeStyles.
    destruct (negb (truthy styleStr)); [repeat constructor; intros []|].
    apply declaredProperties_of_entries.
    exact (fold_left_tidy Part000.sanitizeRule _ Part000_sanitizeRule_tidy Hrules
             [] tidy_nil).
Qed.

(** *** The two resolvers *)

Lemma find_narrower {A} (p q : A -> bool) (l : list A) (x : A) :
  (forall a, q a = true -> p a = true) ->
  find p l = Some x -> q x = true -> find q l = Some x.
Proof.
  intros Hqp. induction l as [|a l IH]; [discriminate|]. cbn [find].
  destruct (p a) eqn:Hp.
  - intros H Hq. injection H as ->. now rewrite Hq.
  - intros H Hq. destruct (q a) eqn:Hqa; [|now apply IH].
    rewrite (Hqp a Hqa) in Hp. discriminate.
Qed.

(** X16: in [part_000] the first visible fill decides.  When it is a
    solid, the revision resolves the colour [src/code.ts] resolves; when
    it is an image or a paint of another kind, no colour is resolved and
    the background passes through, also when a solid fill follows. *)
Theorem first_visible_fill_decides (h : Host) (fills : list Paint)
    (first : Paint) (parentBgColor : RgbColor) :
  find notHidden fills = Some first ->
  Part000.getEffectiveBackgroundColorForFills h fills parentBgColor
  = match first with
    | SOLID _ _ _ =>
        Ok (CodeTs.getEffectiveBackgroundColorForFills h fills parentBgColor)
    | GRADIENT _ _ [] => Throw TypeError
    | GRADIENT _ _ (firstStop :: _) =>
        let c := color firstStop in
        Ok (CodeTs.getEffectiveBackgroundColorForFills h
              [SOLID None (Some (orDefault (alpha c) 1))
                 {| r := sr c; g := sg c; b := sb c |}]
              parentBgColor)
    | _ => Ok {| hex := None; rgb := parentBgColor |}
    end.
Proof.
  intros Hfirst. unfold Part000.getEffectiveBackgroundColorForFills.
  rewrite Hfirst. destruct first as [v o c|v o [|firstStop stops]|v o|v o];
    try reflexivity.
  unfold CodeTs.getEffectiveBackgroundColorForFills.
  rewrite (find_narrower notHidden (fun f => isSolid f && notHidden f) fills
             (SOLID v o c)).
  - destruct (0.99 <=? orDefault o 1); now rewrite ?RgbColor_eta.
  - intros a Ha. apply andb_true_iff in Ha. tauto.
  - exact Hfirst.
  - apply find_some in Hfirst. cbn [isSolid andb]. tauto.
Qed.

Lemma first_visible_fill_decides_witness :
  Part000.getEffectiveBackgroundColorForFills Sample.host
    [SOLID (Some false) None Sample.red; IMAGE None None;
     SOLID None None Sample.blue] white
  = Ok {| hex := None; rgb := white |}
  /\ CodeTs.getEffectiveBackgroundColorForFills Sample.host
       [SOLID (Some false) None Sample.red; IMAGE None None;
        SOLID None None Sample.blue] white
     = {| hex := Some (lit "#0000ff"); rgb := Sample.blue |}.
Proof.
  split; [|reflexivity].
  apply (first_visible_fill_decides Sample.host
           [SOLID (Some false) None Sample.red; IMAGE None None;
            SOLID None None Sample.blue] (IMAGE None None) white).
  reflexivity.
Defined.

(** *** A selected frame *)

Lemma Part000_horizontalCells_withVisible (h : Host) (shown : bool)
    (node : SceneNode) parentBgColor mode itemSpacing isSpaceBetween count
    (kids : list Part000.Kid) :
  forall index,
    Part000.horizontalCells h (withVisible shown node) parentBgColor mode
      itemSpacing isSpaceBetween count kids index
    = Part000.horizontalCells h node parentBgColor mode itemSpacing
        isSpaceBetween count kids index.
Proof.
  induction kids as [|[child render] kids IH]; intros index; [reflexivity|].
  cbn [Part000.horizontalCells]. now rewrite IH.
Qed.

Lemma Part000_renderContainerK_withVisible (h : Host) (kids : list Part000.Kid)
    (shown : bool) (node : SceneNode) parentWidth parentBgColor isRoot mode
    (this : Part000.Parser) :
  Part000.renderContainerK h kids (withVisible shown node) parentWidth
    parentBgColor isRoot mode this
  = Part000.renderContainerK h kids node parentWidth parentBgColor isRoot mode
      this.
Proof.
  unfold Part000.renderContainerK.
  apply bind_cong; [reflexivity | intros effective this1].
  apply bind_cong; [reflexivity | intros empty this2].
  destruct empty; [reflexivity|].
  apply bind_cong; [|reflexivity].
  intros this3. cbn [withVisible layoutMode].
  destruct (layoutMode node) as [[| |]|]; try reflexivity.
  unfold Part000.renderHorizontalChildrenK.
  apply bind_cong; [|reflexivity].
  intros this4. cbn [withVisible itemSpacing primaryAxisAlignItems].
  now rewrite (Part000_horizontalCells_withVisible h shown).
Qed.

(** X17: a frame, component or instance that is the only node selected
    is rendered as the root container whether it is shown or hidden:
    [parse] does not look at its [visible]. *)
Theorem selected_frame_is_rendered_hidden_or_not (h : Host)
    (confirmedCtaIds : list str) (node : SceneNode) (shown : bool)
    (mode : ImageExportMode) (this : Part000.Parser) :
  existsb (NodeType_eqb (type node)) [FRAME; COMPONENT; INSTANCE] = true ->
  CodeTs.parse h confirmedCtaIds [withVisible shown node]
  = CodeTs.parse h confirmedCtaIds [node]
  /\ Part000.parse h [withVisible shown node] mode this
     = Part000.parse h [node] mode this.
Proof.
  intros Htype. split.
  - unfold CodeTs.parse. cbn [withVisible type]. rewrite Htype. reflexivity.
  - unfold Part000.parse. cbn [withVisible type]. rewrite Htype.
    unfold Part000.renderContainer.
    apply Part000_renderContainerK_withVisible.
Qed.

Lemma selected_frame_is_rendered_hidden_or_not_witness :
  CodeTs.parse Sample.host [] [withVisible false (Sample.stacked 3)]
  = CodeTs.parse Sample.host [] [Sample.stacked 3]
  /\ Part000.parse Sample.host [withVisible false (Sample.stacked 3)] download
       Sample.used
     = Part000.parse Sample.host [Sample.stacked 3] download Sample.used.
Proof.
  apply (selected_frame_is_rendered_hidden_or_not Sample.host []
           (Sample.stacked 3) false download Sample.used).
  reflexivity.
Defined.

(** A hidden rectangle, selected alone, gives no markup; inside a
    selected frame that is hidden itself, a shown rectangle is
    rendered. *)
Lemma hidden_selection_examples :
  CodeTs.parse Sample.host [] [Sample.ghost "3:9" 0 50 50] = Ok []
  /\ CodeTs.parse Sample.host [] [withVisible false (Sample.stacked 3)] <> Ok [].
Proof. split; vm_compute; [reflexivity | discriminate]. Qed.

(** *** Image-like nodes *)

(** X18: rendering an image-like node never throws, in any mode and
    whatever the exporter and the encoder do; when the encoder fails in
    [base64] mode the red paragraph [Error exporting image:] followed by
    the node's name (or by [Image] when the name is empty) is returned,
    as for a failed export, and the fields of the parser are left as
    they were. *)
Theorem image_like_nodes_never_throw (h : Host) (node : SceneNode)
    (parentWidth : num) (parentBgColor : RgbColor) (mode : ImageExportMode)
    (this : Part000.Parser) :
  Part000.isImageLikeNode node = true ->
  (exists fragment this',
     Part000.renderNode h node parentWidth parentBgColor mode this
     = (Ok fragment, this'))
  /\ (forall imageBytes e,
        visible node = true ->
        (width node <? 1) || (height node <? 1) = false ->
        exportAsync h node {| png_width := Math_round (width node * 2) |}
        = Ok imageBytes ->
        base64Encode h imageBytes = Throw e ->
        Part000.renderNode h node parentWidth parentBgColor base64 this
        = (Ok (html "<p style=`color:red;`>Error exporting image: "
               ++ orElse (name node) (lit "Image") ++ lit "</p>"),
           this)).
Proof.
  intros Hlike. rewrite !Part000_renderNode_eq. unfold Part000.renderNodeK.
  rewrite Hlike. split.
  - destruct (negb (visible node)); [now eexists; eexists|].
    apply renderImage_returns.
  - intros imageBytes e -> Hsize Hexport Hencode. cbn [negb].
    unfold Part000.renderImage. rewrite Hsize, Hexport. cbn [rbind].
    now rewrite Hencode.
Qed.

Lemma image_like_nodes_never_throw_witness :
  (exists fragment this',
     Part000.renderNode Sample.brokenEncoderHost Sample.iconGroup 600 white
       base64 Sample.used
     = (Ok fragment, this'))
  /\ (forall imageBytes e,
        visible Sample.iconGroup = true ->
        (width Sample.iconGroup <? 1) || (height Sample.iconGroup <? 1) = false ->
        exportAsync Sample.brokenEncoderHost Sample.iconGroup
          {| png_width := Math_round (width Sample.iconGroup * 2) |}
        = Ok imageBytes ->
        base64Encode Sample.brokenEncoderHost imageBytes = Throw e ->
        Part000.renderNode Sample.brokenEncoderHost Sample.iconGroup 600 white
          base64 Sample.used
        = (Ok (html "<p style=`color:red;`>Error exporting image: "
               ++ orElse (name Sample.iconGroup) (lit "Image") ++ lit "</p>"),
           Sample.used)).
Proof.
  apply (image_like_nodes_never_throw Sample.brokenEncoderHost Sample.iconGroup
           600 white base64 Sample.used).
  reflexivity.
Defined.

(** The frame around the three icons, with the failing encoder. *)
Lemma broken_encoder_example :
  Part000.renderNode Sample.brokenEncoderHost Sample.iconGroup 600 white base64
    Sample.used
  = (Ok (html "<p style=`color:red;`>Error exporting image: 4:0</p>"),
     Sample.used).
Proof. vm_compute. reflexivity. Qed.

(** *** The content block of the first revision *)

Lemma addedTo_typed (additions : list Addition) (this : Part000Old.ContentBlock)
    (t : Part000Old.BlockType) :
  Part000Old.type this = Some t ->
  Part000Old.htmlContent (fold_left addedTo additions this)
  = Part000Old.htmlContent this ++ map (fun a => fst (fst a)) additions
  /\ Part000Old.type (fold_left addedTo additions this) = Some t
  /\ Part000Old.style (fold_left addedTo additions this) = Part000Old.style this.
Proof.
  revert this. induction additions as [|a additions IH]; intros this Ht.
  - cbn [fold_left map]. now rewrite app_nil_r.
  - cbn [fold_left map].
    assert (Ha : Part000Old.htmlContent (addedTo this a)
                 = Part000Old.htmlContent this ++ [fst (fst a)]
                 /\ Part000Old.type (addedTo this a) = Some t
                 /\ Part000Old.style (addedTo this a) = Part000Old.style this).
    { unfold addedTo, Part000Old.add. rewrite Ht. cbn. repeat split. }
    destruct Ha as [Hc [Hty Hst]].
    destruct (IH (addedTo this a) Hty) as [-> [-> ->]].
    rewrite Hc, Hst, <- app_assoc. now split.
Qed.

(** X19: a content block is decided by its first addition: the block
    has the type of the first addition, and its style when that is
    text; the markup of all additions is kept in order, and rendered
    with line breaks between the pieces in a text block and with nothing
    between them otherwise; a block without additions renders as the
    empty string. *)
Theorem content_block_is_decided_by_its_first_addition
    (additions : list Addition) :
  Part000Old.htmlContent (built additions) = map (fun a => fst (fst a)) additions
  /\ Part000Old.type (built additions)
     = option_map (fun a => snd (fst a)) (hd_error additions)
  /\ Part000Old.style (built additions)
     = match additions with
       | (_, Part000Old.text, style) :: _ => style
       | _ => []
       end
  /\ Part000Old.render (built additions)
     = join (match additions with
             | (_, Part000Old.text, _) :: _ => html "<br />"
             | _ => []
             end)
            (map (fun a => fst (fst a)) additions).
Proof.
  destruct additions as [|[[html0 t] style0] additions];
    [repeat split; reflexivity|].
  unfold built. cbn [fold_left hd_error option_map fst snd].
  assert (Hfirst : Part000Old.type
                     (addedTo Part000Old.newContentBlock (html0, t, style0))
                   = Some t) by reflexivity.
  destruct (addedTo_typed additions _ t Hfirst) as [Hc [Hty Hst]].
  repeat split.
  - rewrite Hc. reflexivity.
  - exact Hty.
  - rewrite Hst. now destruct t.
  - unfold Part000Old.render, Part000Old.isEmpty, Part000Old.isText.
    rewrite Hc, Hty. cbn [addedTo Part000Old.add Part000Old.newContentBlock
      Part000Old.type Part000Old.htmlContent fst snd app List.length Nat.eqb map].
    now destruct t.
Qed.

(** *** The colours of the earlier revision *)

(** X20: the colour [src/code.ts] resolves for a visible solid fill is
    the one its earlier revision wrote for the fill, given the same
    background, wherever the two opacity thresholds agree: the earlier
    revision blends below 1, the later one below 0.99. *)
Theorem later_resolver_agrees_with_the_earlier_one (h : Host)
    (visible : option bool) (opacity : option num) (color : RgbColor)
    (node : SceneNode) :
  visible <> Some false ->
  (orDefault opacity 1 <? 1) = negb (0.99 <=? orDefault opacity 1) ->
  hex (CodeTs.getEffectiveBackgroundColorForFills h [SOLID visible opacity color]
         (CodeTsOld.findBackgroundColor node))
  = Some (CodeTsOld.getSolidHexForFill h opacity color node).
Proof.
  intros Hvis Hthreshold.
  unfold CodeTs.getEffectiveBackgroundColorForFills, CodeTsOld.getSolidHexForFill.
  cbn [find isSolid andb].
  assert (Hnh : notHidden (SOLID visible opacity color) = true).
  { unfold notHidden; simpl. destruct visible as [[|]|]; congruence. }
  rewrite Hnh, Hthreshold.
  destruct (0.99 <=? orDefault opacity 1); cbn [negb hex].
  - now rewrite RgbColor_eta.
  - reflexivity.
Qed.

Lemma later_resolver_agrees_with_the_earlier_one_witness :
  hex (CodeTs.getEffectiveBackgroundColorForFills Sample.host
         [SOLID (Some true) (Some 0.5) Sample.red]
         (CodeTsOld.findBackgroundColor (Sample.outlined 2)))
  = Some (CodeTsOld.getSolidHexForFill Sample.host (Some 0.5) Sample.red
            (Sample.outlined 2)).
Proof.
  apply (later_resolver_agrees_with_the_earlier_one Sample.host (Some true)
           (Some 0.5) Sample.red (Sample.outlined 2)).
  - discriminate.
  - reflexivity.
Defined.

(** Between the thresholds the two differ: at opacity 0.995 the earlier
    revision blends and the later one does not. *)
Lemma resolvers_differ_between_the_thresholds :
  CodeTsOld.getSolidHexForFill Sample.host (Some 0.995) Sample.red
    (Sample.outlined 2)
  = lit "#ff0101"
  /\ hex (CodeTs.getEffectiveBackgroundColorForFills Sample.host
            [SOLID (Some true) (Some 0.995) Sample.red]
            (CodeTsOld.findBackgroundColor (Sample.outlined 2)))
     = Some (lit "#ff0000").
Proof. split; vm_compute; reflexivity. Qed.

(** *** What makes the renderer of part_000 throw *)

Lemma returns_ret {S A} (a : A) : returns (S := S) (ret a).
Proof. intros this. now exists a, this. Qed.

Lemma returns_lift {S A} (x : result A) :
  (exists a, x = Ok a) -> returns (S := S) (lift x).
Proof. intros [a ->] this. now exists a, this. Qed.

Lemma returns_bind {S A B} (m : Method S A) (f : A -> Method S B) :
  returns m -> (forall a, returns (f a)) -> returns (bind m f).
Proof.
  intros Hm Hf this. unfold bind.
  destruct (Hm this) as [a [this' ->]]. apply Hf.
Qed.

Lemma sound_resolves (h : Host) (fs : list Paint) (parentBgColor : RgbColor) :
  forallb hasStops fs = true ->
  exists e, Part000.getEffectiveBackgroundColorForFills h fs parentBgColor = Ok e.
Proof.
  intros Hfs. unfold Part000.getEffectiveBackgroundColorForFills.
  destruct (find notHidden fs) as [[v o c|v o [|stop stops]|v o|v o]|] eqn:Hfind;
    try (now eexists).
  apply find_some in Hfind. destruct Hfind as [Hin _].
  rewrite forallb_forall in Hfs. specialize (Hfs _ Hin). discriminate.
Qed.

Lemma sound_chain_resolves (chain : list Ancestor) :
  forallb (fun a => soundFills (anc_fills a)) chain = true ->
  exists c, Part000.findParentBackgroundColor_chain chain = Ok c.
Proof.
  induction chain as [|a up IH]; [now eexists|].
  cbn [forallb Part000.findParentBackgroundColor_chain]. intros H.
  apply andb_true_iff in H. destruct H as [Ha Hup]. specialize (IH Hup).
  destruct (NodeType_eqb (anc_type a) PAGE); [now eexists|].
  destruct (anc_fills a) as [[|[|f fs]]|]; try exact IH.
  destruct (find _ (f :: fs)) as [[v o c|v o [|stop stops]|v o|v o]|] eqn:Hfind;
    try exact IH.
  - destruct (0.99 <=? orDefault o 1); [now eexists | exact IH].
  - apply find_some in Hfind. destruct Hfind as [Hin _].
    cbn [soundFills] in Ha. rewrite forallb_forall in Ha.
    specialize (Ha _ Hin). discriminate.
  - destruct (0.99 <=? _); [now eexists | exact IH].
Qed.

Section Sound.
Variable h : Host.

Lemma sound_border (node : SceneNode) :
  soundNode node = true -> exists b, Part000.getBorderStyles h node = Ok b.
Proof.
  unfold soundNode. intros H. repeat (apply andb_true_iff in H; destruct H as [H ?]).
  unfold Part000.getBorderStyles, Part000.findParentBackgroundColor.
  destruct (strokes node) as [[|s ss]|]; try (now eexists).
  destruct (strokeWeight node) as [[|sw]|]; try (now eexists).
  destruct (sw =? 0); [now eexists|].
  destruct (find _ (s :: ss)) as [[v o c| | |]|]; try (now eexists).
  destruct (Math_round sw =? 0); [now eexists|].
  destruct (sound_chain_resolves (parent node) H) as [c' ->]. cbn [rbind].
  destruct (sound_resolves h [SOLID v o c] c' eq_refl) as [e ->]. cbn [rbind].
  now eexists.
Qed.

Lemma sound_background (node : SceneNode) (parentBgColor : RgbColor) :
  soundNode node = true ->
  exists e, Part000.getEffectiveBackgroundColor h node parentBgColor = Ok e.
Proof.
  unfold soundNode. intros H. repeat (apply andb_true_iff in H; destruct H as [H ?]).
  unfold Part000.getEffectiveBackgroundColor.
  destruct (fills node) as [[|fs]|]; try (now eexists).
  now apply sound_resolves.
Qed.

Lemma sound_segments (segs : list StyledTextSegment) (parentBgColor : RgbColor) :
  forallb (fun s => forallb hasStops (seg_fills s)) segs = true ->
  exists s, Part000.renderSegments h segs parentBgColor = Ok s.
Proof.
  induction segs as [|seg segs IH]; [now eexists|].
  cbn [forallb Part000.renderSegments]. intros H.
  apply andb_true_iff in H. destruct H as [Hseg Hsegs].
  destruct (IH Hsegs) as [more Hmore].
  destruct (seg_fontName seg); [now exists more|].
  unfold Part000.styleObjectToInlineCss.
  destruct (seg_fills seg) as [|f fs] eqn:Hfills.
  - cbn [rbind]. rewrite Hmore. cbn [rbind]. now eexists.
  - destruct (sound_resolves h (f :: fs) parentBgColor Hseg) as [e ->].
    cbn [rbind]. destruct (hex e); cbn [rbind]; rewrite Hmore; cbn [rbind];
      now eexists.
Qed.

Lemma sound_textContent (node : SceneNode) (parentBgColor : RgbColor) :
  soundNode node = true ->
  exists s, Part000.renderTextContent h node parentBgColor = Ok s.
Proof.
  intros Hnode. unfold Part000.renderTextContent.
  destruct (Part000.blankCharacters node); [now eexists|].
  apply sound_segments.
  unfold soundNode in Hnode.
  repeat (apply andb_true_iff in Hnode; destruct Hnode as [Hnode ?]).
  assumption.
Qed.

Lemma sound_text (node : SceneNode) (parentBgColor : RgbColor) :
  soundNode node = true ->
  exists s, Part000.renderText h node parentBgColor = Ok s.
Proof.
  intros Hnode. unfold Part000.renderText.
  destruct (Part000.blankCharacters node); [now eexists|].
  destruct (sound_textContent node parentBgColor Hnode) as [s ->]. cbn [rbind].
  destruct (sound_border node Hnode) as [b ->]. cbn [rbind]. now eexists.
Qed.

Lemma sound_shape (node : SceneNode) (parentBgColor : RgbColor) :
  soundNode node = true ->
  exists s, Part000.renderShape h node parentBgColor = Ok s.
Proof.
  intros Hnode. unfold Part000.renderShape.
  destruct (_ || _); [now eexists|].
  destruct (sound_background node parentBgColor Hnode) as [e ->]. cbn [rbind].
  destruct (sound_border node Hnode) as [b ->]. cbn [rbind]. now eexists.
Qed.

Lemma sound_bullet (node : SceneNode) (parentBgColor : RgbColor) :
  Forall (fun c => soundNode c = true) (childrenOf node) ->
  exists b,
    Part000.isBulletPoint node = Ok b
    /\ (b = true ->
        exists s, Part000.renderBulletPoint h node parentBgColor = Ok s).
Proof.
  intros Hcs. unfold Part000.isBulletPoint, Part000.renderBulletPoint.
  unfold childrenOf in Hcs.
  destruct (negb _ || negb _); [exists false; now split|].
  destruct (layoutMode node) as [[| |]|]; try (exists false; now split).
  destruct (children node) as [[|c1 [|c2 [|c3 cs]]]|];
    try (exists false; now split).
  cbn [orDefault] in Hcs.
  inversion Hcs as [|? ? H1 Hcs']. inversion Hcs' as [|? ? H2 _]. subst.
  destruct (NodeType_eqb (type c1) TEXT) eqn:Ht1; [|exists false; now split].
  destruct (negb (NodeType_eqb (type c2) TEXT)); cbn [negb orb];
    [exists false; now split|].
  destruct (characters c1) as [cs|] eqn:Hchars.
  - eexists. split; [reflexivity|]. intros _.
    destruct (sound_textContent c1 parentBgColor H1) as [s1 ->]. cbn [rbind].
    destruct (sound_textContent c2 parentBgColor H2) as [s2 ->]. cbn [rbind].
    now eexists.
  - exfalso. unfold soundNode in H1. rewrite Hchars in H1.
    destruct (type c1); try discriminate Ht1.
    now rewrite andb_false_r in H1.
Qed.

End Sound.

Section Returns.
Variable h : Host.

Lemma stackedRows_returns availableWidth parentBgColor mode paddingLeft
    paddingRight (kids : list Part000.Kid) :
  Forall (fun k => forall w bg, returns (snd k w bg mode)) kids ->
  forall lastBottomY,
    returns (Part000.stackedRows h availableWidth parentBgColor mode paddingLeft
               paddingRight kids lastBottomY).
Proof.
  induction 1 as [|[child render] kids Hk _ IH]; intros lastBottomY;
    cbn [Part000.stackedRows]; [apply returns_ret|].
  apply returns_bind; [apply Hk | intros childHtml].
  apply returns_bind; [apply IH | intros more; apply returns_ret].
Qed.

Lemma horizontalCells_returns node parentBgColor mode itemSpacing
    isSpaceBetween count (kids : list Part000.Kid) :
  Forall (fun k => forall w bg, returns (snd k w bg mode)) kids ->
  forall index,
    returns (Part000.horizontalCells h node parentBgColor mode itemSpacing
               isSpaceBetween count kids index).
Proof.
  induction 1 as [|[child render] kids Hk _ IH]; intros index;
    cbn [Part000.horizontalCells]; [apply returns_ret|].
  apply returns_bind; [apply Hk | intros childHtml].
  apply returns_bind; [apply IH | intros more; apply returns_ret].
Qed.

Lemma renderContainerK_returns (kids : list Part000.Kid) node parentWidth
    parentBgColor isRoot mode :
  soundNode node = true ->
  Forall (fun k => forall w bg, returns (snd k w bg mode)) kids ->
  returns (Part000.renderContainerK h kids node parentWidth parentBgColor isRoot
             mode).
Proof.
  intros Hnode Hkids.
  assert (Hborder : returns (S := Part000.Parser)
                      (lift (Part000.getBorderStyles h node)))
    by apply returns_lift, sound_border, Hnode.
  unfold Part000.renderContainerK.
  apply returns_bind; [apply returns_lift, sound_background, Hnode|].
  intros effective.
  apply returns_bind.
  { destruct (_ && _); [|apply returns_ret].
    apply returns_bind; [|intros b; apply returns_ret].
    apply returns_bind; [exact Hborder | intros b; apply returns_ret]. }
  intros empty. destruct empty; [apply returns_ret|].
  apply returns_bind.
  { unfold Part000.renderStackedChildrenK, Part000.renderHorizontalChildrenK.
    destruct (layoutMode node) as [[| |]|];
      (apply returns_bind; [|intros rows; apply returns_ret]).
    - apply stackedRows_returns. now apply Forall_sortByY, Forall_filter.
    - apply horizontalCells_returns. now apply Forall_filter.
    - apply stackedRows_returns. now apply Forall_filter.
    - apply stackedRows_returns. now apply Forall_filter. }
  intros innerHtml.
  apply returns_bind.
  { destruct (truthy _); [apply returns_ret|].
    apply returns_bind; [exact Hborder | intros b; apply returns_ret]. }
  intros hasStyles. destruct (_ && _); [apply returns_ret|].
  apply returns_bind; [exact Hborder | intros b; apply returns_ret].
Qed.

Lemma renderNodeK_returns (kids : list Part000.Kid) node parentWidth
    parentBgColor mode :
  soundNode node = true ->
  Forall (fun c => soundNode c = true) (childrenOf node) ->
  Forall (fun k => forall w bg, returns (snd k w bg mode)) kids ->
  returns (Part000.renderNodeK h kids node parentWidth parentBgColor mode).
Proof.
  intros Hnode Hcs Hkids. unfold Part000.renderNodeK.
  destruct (negb (visible node)); [apply returns_ret|].
  destruct (Part000.isImageLikeNode node).
  { intros this. apply renderImage_returns. }
  destruct (sound_bullet h node parentBgColor Hcs) as [b [Hb Hrender]].
  pose proof (renderContainerK_returns kids node parentWidth parentBgColor false
                mode Hnode Hkids) as Hcontainer.
  assert (Hbranch :
            returns
              (bullet <- lift (Part000.isBulletPoint node) ;;
               if bullet : bool
               then lift (Part000.renderBulletPoint h node parentBgColor)
               else Part000.renderContainerK h kids node parentWidth
                      parentBgColor false mode)%parser).
  { intros this. unfold bind, lift. rewrite Hb. destruct b.
    - destruct (Hrender eq_refl) as [s ->]. now exists s, this.
    - apply Hcontainer. }
  destruct (type node); try exact Hbranch; try apply returns_ret.
  - apply returns_lift. now apply sound_shape.
  - apply returns_lift. now apply sound_shape.
  - apply returns_lift. now apply sound_text.
Qed.

Lemma renderNode_returns (node : SceneNode) :
  Forall (fun n => soundNode n = true) (subtree node) ->
  forall w bg mode, returns (Part000.renderNode h node w bg mode).
Proof.
  induction node as [node IH] using SceneNode_children_ind.
  intros Hsound w bg mode. rewrite Part000_renderNode_eq.
  inversion Hsound as [|? ? Hnode Hbelow]. subst.
  rewrite Forall_forall in Hbelow.
  apply renderNodeK_returns; [exact Hnode | |].
  - apply Forall_forall. intros c Hc. apply Hbelow.
    apply (subtree_of_child node c Hc). now left.
  - rewrite Part000_kidsOf_eq. apply Forall_forall. intros k Hk.
    apply in_map_iff in Hk. destruct Hk as [c [<- Hc]]. cbn [pairWith snd].
    rewrite Forall_forall in IH. intros w' bg'. apply (IH c Hc).
    apply Forall_forall. intros n Hn. apply Hbelow.
    exact (subtree_of_child node c Hc n Hn).
Qed.

End Returns.

Lemma selectionRows_returns (h : Host) (mode : ImageExportMode)
    (nodes : list SceneNode) :
  Forall (fun node => forall w bg, returns (Part000.renderNode h node w bg mode))
         nodes ->
  forall first lastBottomY,
    returns (Part000.selectionRows h mode nodes first lastBottomY).
Proof.
  induction 1 as [|node nodes Hnode _ IH]; intros first lastBottomY;
    cbn [Part000.selectionRows]; [apply returns_ret|].
  apply returns_bind; [apply Hnode | intros nodeHtml].
  apply returns_bind; [apply IH | intros more; apply returns_ret].
Qed.

(** X21: the renderer of [part_000] throws only over what it cannot
    read: when in the selection and below it every gradient (among the
    fills of a node, of its ancestors and of its text segments) has a
    stop and every text node has [characters], [parse] returns, in every
    mode and whatever the exporter and the encoder do. *)
Theorem sound_selection_is_rendered_without_exception (h : Host)
    (nodes : list SceneNode) (mode : ImageExportMode) (this : Part000.Parser) :
  forallb soundNode (flat_map subtree nodes) = true ->
  exists html this', Part000.parse h nodes mode this = (Ok html, this').
Proof.
  intros Hsound. rewrite forallb_forall in Hsound.
  assert (Hnodes : Forall (fun node => forall w bg,
                             returns (Part000.renderNode h node w bg mode)) nodes).
  { apply Forall_forall. intros node Hnode w bg. apply renderNode_returns.
    apply Forall_forall. intros n Hn. apply Hsound.
    apply in_flat_map. now exists node. }
  destruct nodes as [|node [|node' nodes]].
  - now exists [], this.
  - unfold Part000.parse. inversion Hnodes as [|? ? Hnode _]. subst.
    destruct (existsb _ _); [|apply Hnode].
    apply renderContainerK_returns.
    + apply Hsound. cbn. now left.
    + rewrite Part000_kidsOf_eq. apply Forall_forall. intros k Hk.
      apply in_map_iff in Hk. destruct Hk as [c [<- Hc]]. cbn [pairWith snd].
      intros w bg. apply renderNode_returns.
      apply Forall_forall. intros n Hn. apply Hsound.
      cbn [flat_map]. rewrite app_nil_r. right.
      exact (subtree_of_child node c Hc n Hn).
  - unfold Part000.parse.
    refine (returns_bind _ _ _ _ _).
    + apply selectionRows_returns. now apply Forall_sortByY.
    + intros rows. apply returns_ret.
Qed.

Lemma sound_selection_is_rendered_without_exception_witness :
  exists html this',
    Part000.parse Sample.failingHost
      [Sample.button "Buy"; Sample.iconGroup; Sample.stacked 3] download
      Sample.used
    = (Ok html, this').
Proof.
  apply (sound_selection_is_rendered_without_exception Sample.failingHost
           [Sample.button "Buy"; Sample.iconGroup; Sample.stacked 3] download
           Sample.used).
  reflexivity.
Defined.

(** A gradient without stops is what the renderer cannot read. *)
Lemma gradient_without_stops_throws :
  Part000.parse Sample.host
    [Sample.leaf "9:1" RECTANGLE 0 100 40 [GRADIENT None None []]] placeholder
    Part000.newParser
  = (Throw TypeError, Part000.newParser).
Proof. vm_compute. reflexivity. Qed.

